(** * AcademiaMind: the generate-and-persist flow of the study-notes app

    A shallow embedding of the TypeScript sources
    - [types.ts] (the data model),
    - [services/geminiService.ts] (the generation client),
    - the [App] component (the handlers, the history list and its
      persistence in [localStorage], what its render reads of the notes and
      of the history, the theme),
    together with the JavaScript built-ins these rely on: [String.prototype.trim],
    [String.prototype.split], [Array.prototype.join],
    [Number.prototype.toString], [JSON.parse] and [JSON.stringify].

    JavaScript strings are sequences of UTF-16 code units; they are modelled
    as lists of [N].  Numbers are IEEE 754 doubles: a number literal is
    rounded to the nearest double, ties to even, and a double is printed with
    the fewest digits that read back as the same double. *)

From Stdlib Require Import String Ascii.
From Stdlib Require Import List ZArith NArith Lia Bool.
From Stdlib Require DecimalFacts DecimalN.
Import ListNotations.

Local Open Scope N_scope.

(** ** JavaScript strings *)

Module JS.

Definition jsstring := list N.

(** A string literal of the source, as code units. *)
Definition lit (s : string) : jsstring :=
  map N_of_ascii (list_ascii_of_string s).
Arguments lit s%_string.

Definition jsstring_eqb (a b : jsstring) : bool :=
  if list_eq_dec N.eq_dec a b then true else false.

(** WhiteSpace and LineTerminator code points of ECMAScript, the ones
    [String.prototype.trim] removes: TAB, LF, VT, FF, CR, SP, NBSP,
    U+1680, U+2000..U+200A, LS, PS, U+202F, U+205F, U+3000, ZWNBSP. *)
Definition isWhiteSpace (c : N) : bool :=
  ((9 <=? c) && (c <=? 13))
  || (c =? 32) || (c =? 160) || (c =? 5760)
  || ((8192 <=? c) && (c <=? 8202))
  || (c =? 8232) || (c =? 8233) || (c =? 8239) || (c =? 8287)
  || (c =? 12288) || (c =? 65279).

Fixpoint trimStart (s : jsstring) : jsstring :=
  match s with
  | c :: r => if isWhiteSpace c then trimStart r else s
  | [] => []
  end.

Definition trimEnd (s : jsstring) : jsstring := rev (trimStart (rev s)).

(** [s.trim()] *)
Definition trim (s : jsstring) : jsstring := trimEnd (trimStart s).

(** Truthiness of a string: the empty string is the only falsy one. *)
Definition truthy (s : jsstring) : bool :=
  match s with [] => false | _ :: _ => true end.

(** [items.join(sep)] on an array of strings. *)
Fixpoint join (sep : jsstring) (items : list jsstring) : jsstring :=
  match items with
  | [] => []
  | [x] => x
  | x :: rest => x ++ sep ++ join sep rest
  end.

(** Decimal digits. *)
Definition isDigit (c : N) : bool := (48 <=? c) && (c <=? 57).

Fixpoint uint_codes (d : Decimal.uint) : jsstring :=
  match d with
  | Decimal.Nil => []
  | Decimal.D0 d => 48 :: uint_codes d
  | Decimal.D1 d => 49 :: uint_codes d
  | Decimal.D2 d => 50 :: uint_codes d
  | Decimal.D3 d => 51 :: uint_codes d
  | Decimal.D4 d => 52 :: uint_codes d
  | Decimal.D5 d => 53 :: uint_codes d
  | Decimal.D6 d => 54 :: uint_codes d
  | Decimal.D7 d => 55 :: uint_codes d
  | Decimal.D8 d => 56 :: uint_codes d
  | Decimal.D9 d => 57 :: uint_codes d
  end.

Definition digit_cons (c : N) (d : Decimal.uint) : Decimal.uint :=
  if c =? 48 then Decimal.D0 d
  else if c =? 49 then Decimal.D1 d
  else if c =? 50 then Decimal.D2 d
  else if c =? 51 then Decimal.D3 d
  else if c =? 52 then Decimal.D4 d
  else if c =? 53 then Decimal.D5 d
  else if c =? 54 then Decimal.D6 d
  else if c =? 55 then Decimal.D7 d
  else if c =? 56 then Decimal.D8 d
  else Decimal.D9 d.

Fixpoint codes_uint (s : jsstring) : Decimal.uint :=
  match s with
  | [] => Decimal.Nil
  | c :: r => digit_cons c (codes_uint r)
  end.

(** The decimal digits of a natural number, and the number a run of
    digits denotes. *)
Definition digits (n : N) : jsstring := uint_codes (N.to_uint n).
Definition digits_value (s : jsstring) : N := N.of_uint (codes_uint s).

(** The decimal form of a whole number: [n.toString()] for an integral
    Number [n] of magnitude below [2^53]. *)
Definition Z_toString (n : Z) : jsstring :=
  ((if (n <? 0)%Z then [45] else []) ++ digits (Z.abs_N n)).

(** *** Numbers

    A Number is an IEEE 754 double.  [Integer z] is the double of value [z],
    for a whole number [z] of magnitude below [2^53] (every such number is a
    double); [Dyadic neg m e] is any other finite double that is not zero,
    of value [m * 2^e] with [m] odd and the sign [neg]; then there are the
    negative zero and the two infinities.  [NaN] is left out: neither
    [JSON.parse] nor [Date.now()] produces it. *)
Inductive number : Type :=
| Integer (z : Z)
| Dyadic (negative : bool) (m : positive) (e : Z)
| NegativeZero
| Infinity (negative : bool).

Definition number_eqb (x y : number) : bool :=
  match x, y with
  | Integer a, Integer b => (a =? b)%Z
  | Dyadic s m e, Dyadic s' m' e' =>
      Bool.eqb s s' && (m =? m')%positive && (e =? e')%Z
  | NegativeZero, NegativeZero => true
  | Infinity s, Infinity s' => Bool.eqb s s'
  | _, _ => false
  end.

(** [2^53] *)
Definition safeBound : Z := 9007199254740992.

(** [Number.isSafeInteger] on whole numbers. *)
Definition isSafeInteger (z : Z) : bool := (Z.abs z <? safeBound)%Z.

Definition negate (neg : bool) (z : Z) : Z := if neg then (- z)%Z else z.

(** The integral part of the binary logarithm of [p / q], for positive [p]
    and [q]. *)
Definition log2Ratio (p q : Z) : Z :=
  let l := (Z.log2 p - Z.log2 q)%Z in
  if (if 0 <=? l then q * 2 ^ l <=? p else q <=? p * 2 ^ (- l))%Z
  then l else (l - 1)%Z.

(** [num / den] rounded to the nearest whole number, ties to even. *)
Definition halfEven (num den : Z) : Z :=
  let d := (num / den)%Z in
  let r := (num mod den)%Z in
  if (2 * r <? den)%Z then d
  else if (den <? 2 * r)%Z then (d + 1)%Z
  else if Z.even d then d else (d + 1)%Z.

(** The double nearest to [p / q], ties to even, as [m * 2^e] with
    [m <= 2^53]: 53 bits of precision down to the exponent [-1074] of the
    subnormal doubles.  [None]: the nearest is beyond the largest double. *)
Definition roundRatio (p q : Z) : option (Z * Z) :=
  let e := Z.max (log2Ratio p q - 52) (-1074) in
  let m := if (0 <=? e)%Z then halfEven p (q * 2 ^ e)
           else halfEven (p * 2 ^ (- e)) q in
  if ((971 <? e) || ((e =? 971) && (m =? safeBound)))%Z then None
  else Some (m, e).

Fixpoint oddPart (m : positive) : positive * Z :=
  match m with
  | xO p => let (o, k) := oddPart p in (o, (k + 1)%Z)
  | _ => (m, 0%Z)
  end.

(** The number of value [m * 2^e]. *)
Definition canonical (neg : bool) (m : positive) (e : Z) : number :=
  let (o, k) := oddPart m in
  let e' := (e + k)%Z in
  if ((0 <=? e') && (Z.pos o * 2 ^ e' <? safeBound))%Z
  then Integer (negate neg (Z.pos o * 2 ^ e'))
  else Dyadic neg o e'.

Definition Number_of_ratio (neg : bool) (p q : Z) : number :=
  match roundRatio p q with
  | None => Infinity neg
  | Some (Z.pos m, e) => canonical neg m e
  | Some _ => if neg then NegativeZero else Integer 0
  end.

(** [s * 10^e] as a fraction. *)
Definition decimalRatio (s e : Z) : Z * Z :=
  if (0 <=? e)%Z then (s * 10 ^ e, 1)%Z else (s, 10 ^ (- e))%Z.

(** The Number a decimal literal denotes: sign, digits [n], exponent [e]. *)
Definition Number_of_decimal (neg : bool) (n : N) (e : Z) : number :=
  if n =? 0 then (if neg then NegativeZero else Integer 0)
  else let (p, q) := decimalRatio (Z.of_N n) e in Number_of_ratio neg p q.

(** [Number::toString(x)]: let [n], [k] and [s] be integers such that
    [k >= 1], [10^(k-1) <= s < 10^k], [s * 10^(n-k)] is [x], and [k] is as
    small as possible; of several [s], the one nearest to [x], the even one
    on a tie.  The doubles range from [5e-324] to [1.8e308]. *)
Definition below10 (p q n : Z) : bool :=
  if (0 <=? n)%Z then (p <? q * 10 ^ n)%Z else (p * 10 ^ (- n) <? q)%Z.

(** The least [n] with [p / q < 10^n]. *)
Definition decimalMagnitude (p q : Z) : Z :=
  match find (below10 p q) (map (fun i => (Z.of_nat i - 330)%Z) (seq 0 700)) with
  | Some n => n
  | None => 370%Z
  end.

(** [(p / q) / 10^scale] as a fraction. *)
Definition scaled (p q scale : Z) : Z * Z :=
  if (0 <=? scale)%Z then (p, q * 10 ^ scale)%Z else (p * 10 ^ (- scale), q)%Z.

(** [s * 10^scale] is [x]: it rounds to the double [x]. *)
Definition denotes (x : number) (s scale : Z) : bool :=
  let (u, v) := decimalRatio s scale in number_eqb (Number_of_ratio false u v) x.

(** The [s] of [k] digits for [x = p / q], if there is one: of the two
    multiples of [10^(n-k)] around [x], the nearer one first. *)
Definition candidate (x : number) (p q n k : Z) : option Z :=
  let (a, b) := scaled p q (n - k) in
  let near := halfEven a b in
  let far := if (near =? a / b)%Z then (a / b + 1)%Z else (a / b)%Z in
  if denotes x near (n - k) then Some near
  else if denotes x far (n - k) then Some far
  else None.

(** The least [k], from [k] on; seventeen digits tell any two doubles
    apart. *)
Fixpoint shortest (fuel : nat) (x : number) (p q n k : Z) : Z * Z :=
  match fuel with
  | O => (let (a, b) := scaled p q (n - k) in halfEven a b, k)
  | S fuel' =>
      match candidate x p q n k with
      | Some s => (s, k)
      | None => shortest fuel' x p q n (k + 1)%Z
      end
  end.

Definition exponentText (e : Z) : jsstring :=
  [101; if (e <? 0)%Z then 45 else 43] ++ digits (Z.abs_N e).

(** The digits [ds] of [s] laid out for the exponent [n]: as a whole number
    up to [10^21], with a decimal point down to [10^-6], in exponent
    notation beyond. *)
Definition formatDecimal (ds : jsstring) (n : Z) : jsstring :=
  let k := Z.of_nat (length ds) in
  if ((k <=? n) && (n <=? 21))%Z then ds ++ repeat 48 (Z.to_nat (n - k))
  else if ((0 <? n) && (n <=? 21))%Z
  then firstn (Z.to_nat n) ds ++ [46] ++ skipn (Z.to_nat n) ds
  else if ((-6 <? n) && (n <=? 0))%Z
  then [48; 46] ++ repeat 48 (Z.to_nat (- n)) ++ ds
  else match ds with
       | [d] => [d] ++ exponentText (n - 1)
       | d :: r => [d; 46] ++ r ++ exponentText (n - 1)
       | [] => []
       end.

Definition positiveText (m : positive) (e : Z) : jsstring :=
  let (p, q) := if (0 <=? e)%Z then (Z.pos m * 2 ^ e, 1)%Z
                else (Z.pos m, 2 ^ (- e))%Z in
  let n := decimalMagnitude p q in
  let (s, k) := shortest 16 (canonical false m e) p q n 1 in
  if (s =? 10 ^ k)%Z then formatDecimal [49] (n + 1)
  else formatDecimal (digits (Z.to_N s)) n.

(** [x.toString()]; on the whole numbers below [2^53] it is the decimal
    form of the number. *)
Definition Number_toString (x : number) : jsstring :=
  match x with
  | Integer z => Z_toString z
  | Dyadic neg m e => (if neg then [45] else []) ++ positiveText m e
  | NegativeZero => [48]
  | Infinity neg => (if neg then [45] else []) ++ lit "Infinity"
  end.

(** [String(x)] for [x : string | undefined]. *)
Definition ToString (x : option jsstring) : jsstring :=
  match x with
  | Some s => s
  | None => lit "undefined"
  end.

End JS.
Export JS.

(** ** JSON values, [JSON.stringify] and [JSON.parse] *)

Module JSON.

(** A JavaScript value of the JSON fragment.  An object is the list of its
    own properties in property order (array-index keys first, in ascending
    order, then the other keys in creation order). *)
#[warnings="-register-all"]
Inductive value : Type :=
| JNull
| JBool (b : bool)
| JNumber (n : number)
| JString (s : jsstring)
| JArray (elements : list value)
| JObject (members : list (jsstring * value)).

Definition member := (jsstring * value)%type.

(** *** Property order of ordinary objects *)

(** [arrayIndex k] is [Some i] when [k] is the canonical decimal form of an
    integer [i < 2^32 - 1]. *)
Definition arrayIndex (k : jsstring) : option N :=
  match k with
  | [] => None
  | c :: r =>
      if forallb isDigit k && ((negb (c =? 48)) || (length r =? 0)%nat)
      then
        if (length k <=? 10)%nat && (digits_value k <? 4294967295)
        then Some (digits_value k) else None
      else None
  end.

Definition hasKey (k : jsstring) (o : list member) : bool :=
  existsb (fun kv => jsstring_eqb (fst kv) k) o.

Fixpoint replaceKey (k : jsstring) (v : value) (o : list member) : list member :=
  match o with
  | [] => []
  | (k', v') :: r =>
      if jsstring_eqb k' k then (k', v) :: r else (k', v') :: replaceKey k v r
  end.

Fixpoint insertIndex (i : N) (k : jsstring) (v : value) (o : list member)
  : list member :=
  match o with
  | [] => [(k, v)]
  | (k', v') :: r =>
      match arrayIndex k' with
      | Some j => if j <? i then (k', v') :: insertIndex i k v r
                  else (k, v) :: o
      | None => (k, v) :: o
      end
  end.

(** [CreateDataProperty(o, k, v)]: an existing property keeps its place and
    takes the new value; a new array-index key goes among the index keys; any
    other new key goes last. *)
Definition setProperty (k : jsstring) (v : value) (o : list member) : list member :=
  if hasKey k o then replaceKey k v o
  else match arrayIndex k with
       | Some i => insertIndex i k v o
       | None => o ++ [(k, v)]
       end.

(** [o[k]], [None] standing for [undefined]. *)
Fixpoint getProperty (k : jsstring) (o : list member) : option value :=
  match o with
  | [] => None
  | (k', v) :: r => if jsstring_eqb k' k then Some v else getProperty k r
  end.

(** *** Numbers *)

Definition signed (neg : bool) (n : N) : Z :=
  if neg then (- Z.of_N n)%Z else Z.of_N n.

(** [SerializeJSONProperty] on a Number: its string when it is finite,
    [null] otherwise. *)
Definition numberText (n : number) : jsstring :=
  match n with
  | Infinity _ => lit "null"
  | _ => Number_toString n
  end.

(** *** Strings *)

Definition hexDigit (n : N) : N := if n <? 10 then 48 + n else 87 + n.

Definition unhex (c : N) : option N :=
  if isDigit c then Some (c - 48)
  else if (97 <=? c) && (c <=? 102) then Some (c - 87)
  else if (65 <=? c) && (c <=? 70) then Some (c - 55)
  else None.

Definition isLeadSurrogate (c : N) : bool := (55296 <=? c) && (c <=? 56319).
Definition isTrailSurrogate (c : N) : bool := (56320 <=? c) && (c <=? 57343).

(** [UnicodeEscape]: backslash, [u] and four lowercase hexadecimal digits. *)
Definition unicodeEscape (c : N) : jsstring :=
  [92; 117; hexDigit (c / 4096 mod 16); hexDigit (c / 256 mod 16);
   hexDigit (c / 16 mod 16); hexDigit (c mod 16)].

(** One code point of [QuoteJSONString] that is not a surrogate pair. *)
Definition quoteUnit (c : N) : jsstring :=
  if c =? 8 then [92; 98]
  else if c =? 9 then [92; 116]
  else if c =? 10 then [92; 110]
  else if c =? 12 then [92; 102]
  else if c =? 13 then [92; 114]
  else if c =? 34 then [92; 34]
  else if c =? 92 then [92; 92]
  else if (c <? 32) || isLeadSurrogate c || isTrailSurrogate c
       then unicodeEscape c
       else [c].

Fixpoint quoteUnits (s : jsstring) : jsstring :=
  match s with
  | [] => []
  | c :: r =>
      match r with
      | d :: r' =>
          if isLeadSurrogate c && isTrailSurrogate d
          then c :: d :: quoteUnits r'
          else quoteUnit c ++ quoteUnits r
      | [] => quoteUnit c
      end
  end.

(** [QuoteJSONString(s)] *)
Definition quote (s : jsstring) : jsstring := 34 :: quoteUnits s ++ [34].

(** *** [JSON.stringify] *)

Fixpoint stringify (v : value) : jsstring :=
  match v with
  | JNull => lit "null"
  | JBool true => lit "true"
  | JBool false => lit "false"
  | JNumber n => numberText n
  | JString s => quote s
  | JArray vs => [91] ++ join [44] (map stringify vs) ++ [93]
  | JObject ms =>
      [123]
      ++ join [44] (map (fun kv => quote (fst kv) ++ [58] ++ stringify (snd kv)) ms)
      ++ [125]
  end.

Definition JSON_stringify (v : value) : jsstring := stringify v.

(** *** [JSON.parse] *)

Definition isJsonSpace (c : N) : bool :=
  (c =? 32) || (c =? 9) || (c =? 10) || (c =? 13).

Fixpoint skipSpace (s : jsstring) : jsstring :=
  match s with
  | c :: r => if isJsonSpace c then skipSpace r else s
  | [] => []
  end.

Definition unescape (c : N) : option N :=
  if c =? 34 then Some 34
  else if c =? 92 then Some 92
  else if c =? 47 then Some 47
  else if c =? 98 then Some 8
  else if c =? 102 then Some 12
  else if c =? 110 then Some 10
  else if c =? 114 then Some 13
  else if c =? 116 then Some 9
  else None.

Definition unhex4 (a b c d : N) : option N :=
  match unhex a, unhex b, unhex c, unhex d with
  | Some x3, Some x2, Some x1, Some x0 =>
      Some (x3 * 4096 + x2 * 256 + x1 * 16 + x0)
  | _, _, _, _ => None
  end.

Definition consResult (c : N) (r : option (jsstring * jsstring))
  : option (jsstring * jsstring) :=
  match r with
  | Some (s, rest) => Some (c :: s, rest)
  | None => None
  end.

(** The characters of a string literal after its opening quote, up to and
    including the closing quote. *)
Fixpoint parseStringBody (s : jsstring) : option (jsstring * jsstring) :=
  match s with
  | [] => None
  | c :: r =>
      if c =? 34 then Some ([], r)
      else if c =? 92 then
        match r with
        | [] => None
        | x :: r1 =>
            if x =? 117 then
              match r1 with
              | a :: b :: c' :: d :: r2 =>
                  match unhex4 a b c' d with
                  | Some u => consResult u (parseStringBody r2)
                  | None => None
                  end
              | _ => None
              end
            else
              match unescape x with
              | Some u => consResult u (parseStringBody r1)
              | None => None
              end
        end
      else if c <? 32 then None
      else consResult c (parseStringBody r)
  end.

Fixpoint spanDigits (s : jsstring) : jsstring * jsstring :=
  match s with
  | c :: r =>
      if isDigit c
      then let (d, rest) := spanDigits r in (c :: d, rest)
      else ([], s)
  | [] => ([], [])
  end.

(** [0], or a non-zero digit followed by digits. *)
Definition parseIntPart (s : jsstring) : option (jsstring * jsstring) :=
  match s with
  | c :: r =>
      if c =? 48 then Some ([48], r)
      else if isDigit c then Some (spanDigits s)
      else None
  | [] => None
  end.

(** An optional fraction: a point and at least one digit. *)
Definition parseFraction (s : jsstring) : option (jsstring * jsstring) :=
  match s with
  | c :: r =>
      if c =? 46 then
        match spanDigits r with
        | ([], _) => None
        | (d, rest) => Some (d, rest)
        end
      else Some ([], s)
  | [] => Some ([], [])
  end.

Definition parseSign (s : jsstring) : bool * jsstring :=
  match s with
  | c :: r =>
      if c =? 45 then (true, r)
      else if c =? 43 then (false, r)
      else (false, s)
  | [] => (false, [])
  end.

(** An optional exponent: [e] or [E], an optional sign, at least one digit. *)
Definition parseExponent (s : jsstring) : option (Z * jsstring) :=
  match s with
  | c :: r =>
      if (c =? 101) || (c =? 69) then
        let (neg, r1) := parseSign r in
        match spanDigits r1 with
        | ([], _) => None
        | (d, rest) => Some (signed neg (digits_value d), rest)
        end
      else Some (0%Z, s)
  | [] => Some (0%Z, [])
  end.

Definition parseNumber (s : jsstring) : option (value * jsstring) :=
  let (neg, s1) :=
    match s with
    | c :: r => if c =? 45 then (true, r) else (false, s)
    | [] => (false, [])
    end in
  match parseIntPart s1 with
  | None => None
  | Some (i, s2) =>
      match parseFraction s2 with
      | None => None
      | Some (f, s3) =>
          match parseExponent s3 with
          | None => None
          | Some (x, s4) =>
              Some (JNumber (Number_of_decimal neg (digits_value (i ++ f))
                                               (x - Z.of_nat (length f))%Z),
                    s4)
          end
      end
  end.

(** [expect w s]: the rest of [s] after the prefix [w]. *)
Fixpoint expect (w s : jsstring) : option jsstring :=
  match w with
  | [] => Some s
  | c :: w' =>
      match s with
      | d :: s' => if d =? c then expect w' s' else None
      | [] => None
      end
  end.

Definition keyword (w : jsstring) (v : value) (s : jsstring)
  : option (value * jsstring) :=
  match expect w s with
  | Some rest => Some (v, rest)
  | None => None
  end.

(** Recursive descent; the fuel bounds the nesting and the number of
    elements, and the length of the text is always enough. *)
Fixpoint parseValue (fuel : nat) (s : jsstring) : option (value * jsstring) :=
  match fuel with
  | O => None
  | S fuel' =>
      match skipSpace s with
      | [] => None
      | c :: r =>
          if c =? 110 then keyword (lit "ull") JNull r
          else if c =? 116 then keyword (lit "rue") (JBool true) r
          else if c =? 102 then keyword (lit "alse") (JBool false) r
          else if c =? 34 then
            match parseStringBody r with
            | Some (str, rest) => Some (JString str, rest)
            | None => None
            end
          else if c =? 91 then
            match skipSpace r with
            | d :: r' =>
                if d =? 93 then Some (JArray [], r')
                else parseElements fuel' r []
            | [] => None
            end
          else if c =? 123 then
            match skipSpace r with
            | d :: r' =>
                if d =? 125 then Some (JObject [], r')
                else parseMembers fuel' r []
            | [] => None
            end
          else parseNumber (c :: r)
      end
  end

with parseElements (fuel : nat) (s : jsstring) (acc : list value)
  : option (value * jsstring) :=
  match fuel with
  | O => None
  | S fuel' =>
      match parseValue fuel' s with
      | None => None
      | Some (v, r) =>
          match skipSpace r with
          | d :: r' =>
              if d =? 44 then parseElements fuel' r' (v :: acc)
              else if d =? 93 then Some (JArray (rev (v :: acc)), r')
              else None
          | [] => None
          end
      end
  end

with parseMembers (fuel : nat) (s : jsstring) (acc : list member)
  : option (value * jsstring) :=
  match fuel with
  | O => None
  | S fuel' =>
      match skipSpace s with
      | q :: r =>
          if q =? 34 then
            match parseStringBody r with
            | None => None
            | Some (k, r1) =>
                match skipSpace r1 with
                | c :: r2 =>
                    if c =? 58 then
                      match parseValue fuel' r2 with
                      | None => None
                      | Some (v, r3) =>
                          match skipSpace r3 with
                          | d :: r4 =>
                              if d =? 44
                              then parseMembers fuel' r4 (setProperty k v acc)
                              else if d =? 125
                              then Some (JObject (setProperty k v acc), r4)
                              else None
                          | [] => None
                          end
                      end
                    else None
                | [] => None
                end
            end
          else None
      | [] => None
      end
  end.

(** [JSON.parse(text)]; [None] stands for the [SyntaxError] it throws. *)
Definition JSON_parse (text : jsstring) : option value :=
  match parseValue (S (length text)) text with
  | Some (v, rest) =>
      match skipSpace rest with
      | [] => Some v
      | _ :: _ => None
      end
  | None => None
  end.

End JSON.
Export JSON.


(** ** The data model of [types.ts] *)

Module Types.

Record Mcq := {
  mcq_question : jsstring;
  options : list jsstring;
  mcq_answer : jsstring
}.

Record ShortAnswer := {
  sa_question : jsstring;
  sa_answer : jsstring
}.

Record ExamStyle := {
  exam_question : jsstring;
  modelAnswer : jsstring
}.

Record StudyQuestions := {
  mcqs : list Mcq;
  shortAnswers : list ShortAnswer;
  examStyle : ExamStyle
}.

Record StudyNotes := {
  topicOverview : jsstring;
  detailedExplanation : jsstring;
  keyPoints : list jsstring;
  examples : list jsstring;
  commonMistakes : list jsstring;
  examTips : list jsstring;
  studyQuestions : StudyQuestions
}.

(** The [notes] of an item are what [generateStudyNotes] returned: the value
    [JSON.parse] produced, cast to [StudyNotes] without a check.  The field
    therefore holds a JSON value; [value_of_StudyNotes] below gives the
    values that do have the declared type. *)
Record NoteHistoryItem := {
  id : jsstring;
  timestamp : number;
  originalText : jsstring;
  notes : value
}.

(** The run-time objects of the typed records. *)
Definition strings (l : list jsstring) : value := JArray (map JString l).

Definition value_of_Mcq (q : Mcq) : value :=
  JObject [(lit "question", JString (mcq_question q));
           (lit "options", strings (options q));
           (lit "answer", JString (mcq_answer q))].

Definition value_of_ShortAnswer (q : ShortAnswer) : value :=
  JObject [(lit "question", JString (sa_question q));
           (lit "answer", JString (sa_answer q))].

Definition value_of_ExamStyle (q : ExamStyle) : value :=
  JObject [(lit "question", JString (exam_question q));
           (lit "modelAnswer", JString (modelAnswer q))].

Definition value_of_StudyQuestions (q : StudyQuestions) : value :=
  JObject [(lit "mcqs", JArray (map value_of_Mcq (mcqs q)));
           (lit "shortAnswers", JArray (map value_of_ShortAnswer (shortAnswers q)));
           (lit "examStyle", value_of_ExamStyle (examStyle q))].

Definition value_of_StudyNotes (n : StudyNotes) : value :=
  JObject [(lit "topicOverview", JString (topicOverview n));
           (lit "detailedExplanation", JString (detailedExplanation n));
           (lit "keyPoints", strings (keyPoints n));
           (lit "examples", strings (examples n));
           (lit "commonMistakes", strings (commonMistakes n));
           (lit "examTips", strings (examTips n));
           (lit "studyQuestions", value_of_StudyQuestions (studyQuestions n))].

(** The object literal of [handleSubmit] and [handleFileUpload]:
    [{ id, timestamp, originalText, notes }]. *)
Definition value_of_item (it : NoteHistoryItem) : value :=
  JObject [(lit "id", JString (id it));
           (lit "timestamp", JNumber (timestamp it));
           (lit "originalText", JString (originalText it));
           (lit "notes", notes it)].

Definition value_of_history (h : list NoteHistoryItem) : value :=
  JArray (map value_of_item h).

(** The typed reading of a parsed value as [NoteHistoryItem[]].  The source
    assigns [JSON.parse(savedHistory)] to the history without any check; the
    reading is defined on the values that are the objects of a typed history
    ([None] elsewhere: the state would leave its declared type). *)
Definition item_of_value (v : value) : option NoteHistoryItem :=
  match v with
  | JObject [(k1, JString i); (k2, JNumber t); (k3, JString s); (k4, n)] =>
      if jsstring_eqb k1 (lit "id") && jsstring_eqb k2 (lit "timestamp")
         && jsstring_eqb k3 (lit "originalText") && jsstring_eqb k4 (lit "notes")
      then Some {| id := i; timestamp := t; originalText := s; notes := n |}
      else None
  | _ => None
  end.

Fixpoint items_of_values (vs : list value) : option (list NoteHistoryItem) :=
  match vs with
  | [] => Some []
  | v :: r =>
      match item_of_value v, items_of_values r with
      | Some it, Some its => Some (it :: its)
      | _, _ => None
      end
  end.

Definition history_of_value (v : value) : option (list NoteHistoryItem) :=
  match v with
  | JArray vs => items_of_values vs
  | _ => None
  end.

End Types.
Export Types.

(** ** The generation client, [services/geminiService.ts] *)

Module Service.

(** The [responseSchema] sent with the request. *)
#[warnings="-register-all"]
Inductive Schema : Type :=
| STRING
| ARRAY (items : Schema)
| OBJECT (properties : list (jsstring * Schema)) (required : list jsstring).

Definition responseSchema : Schema :=
  OBJECT
    [(lit "topicOverview", STRING);
     (lit "detailedExplanation", STRING);
     (lit "keyPoints", ARRAY STRING);
     (lit "examples", ARRAY STRING);
     (lit "commonMistakes", ARRAY STRING);
     (lit "examTips", ARRAY STRING);
     (lit "studyQuestions",
       OBJECT
         [(lit "mcqs",
            ARRAY (OBJECT [(lit "question", STRING);
                           (lit "options", ARRAY STRING);
                           (lit "answer", STRING)]
                          [lit "question"; lit "options"; lit "answer"]));
          (lit "shortAnswers",
            ARRAY (OBJECT [(lit "question", STRING);
                           (lit "answer", STRING)]
                          [lit "question"; lit "answer"]));
          (lit "examStyle",
            OBJECT [(lit "question", STRING);
                    (lit "modelAnswer", STRING)]
                   [lit "question"; lit "modelAnswer"])]
         [lit "mcqs"; lit "shortAnswers"; lit "examStyle"])]
    [lit "topicOverview"; lit "detailedExplanation"; lit "keyPoints";
     lit "examples"; lit "commonMistakes"; lit "examTips"; lit "studyQuestions"].

(** A value has the shape a schema describes: the type matches, every
    required property is present, and every declared property that is
    present has the shape of its own schema. *)
Fixpoint conforms (sc : Schema) (v : value) {struct sc} : bool :=
  match sc with
  | STRING => match v with JString _ => true | _ => false end
  | ARRAY it => match v with JArray vs => forallb (conforms it) vs | _ => false end
  | OBJECT props req =>
      match v with
      | JObject ms =>
          forallb (fun k => hasKey k ms) req
          && forallb (fun kp =>
                        match getProperty (fst kp) ms with
                        | Some x => conforms (snd kp) x
                        | None => true
                        end) props
      | _ => false
      end
  end.

(** What a rejected promise carries: an [Error] with its message, or some
    other thrown value. *)
Inductive thrown : Type :=
| ErrorObject (message : jsstring)
| OtherThrown.

(** What [ai.models.generateContent] does with a request: it rejects, or it
    resolves to a response whose [text] is a string or [undefined]. *)
Inductive reply : Type :=
| Rejected (e : thrown)
| Responded (text : option jsstring).

Definition malformedMessage : jsstring :=
  lit "I had trouble structuring those notes. Please try pasting shorter content or checking the text quality.".

(** What the program does to the outside, and to its own state, in the
    order it does it. *)
Inductive action : Type :=
| SetInputText (s : jsstring)
| SetLoading (b : bool)
| SetError (e : option jsstring)
| SetNotes (n : option value)
| SetHistory (h : list NoteHistoryItem)
| SetShowUploadMenu (b : bool)
| SetCurrentFileType (t : jsstring)
| GenerateContent (contents : jsstring)
| ConsoleError (label : jsstring)
| GetItem (key : jsstring)
| SetItem (key data : jsstring)
| PreventDefault
| OpenFilePicker (accept : jsstring)
| ResetFileInput
| ScrollToTop.

(** [generateStudyNotes(content)], given the service's reply: what it does,
    and the notes it returns or the value it throws. *)
Definition generateStudyNotes (content : jsstring) (r : reply)
  : list action * (thrown + value) :=
  match r with
  | Rejected e => ([GenerateContent content], inl e)
  | Responded text =>
      match JSON_parse (ToString text) with
      | Some result => ([GenerateContent content], inr result)
      | None =>
          ([GenerateContent content;
            ConsoleError (lit "Failed to parse Gemini response")],
           inl (ErrorObject malformedMessage))
      end
  end.

End Service.
Export Service.

(** ** The [App] component

    The state hooks, the two asynchronous handlers [handleSubmit] and
    [handleFileUpload], the click on a history entry, and the two effects on
    the history (loading at the first render, persisting after a change).
    A handler is run from its first statement to its last with the answers
    of the outside given to it: the awaited promises follow one another, and
    no other interaction is placed between them.  The render that comes
    between a handler and the effects is the subject of [Render] and
    [Pages] below; the theme and the rotating loading message follow in
    [Theme] and [View]. *)

Module App.

Inductive fileType : Type := pdf | docx | text.

Definition fileTypeName (t : fileType) : jsstring :=
  match t with
  | pdf => lit "pdf"
  | docx => lit "docx"
  | text => lit "text"
  end.

(** An uploaded file, as what the three readers make of its bytes:
    [mammoth.extractRawText(...).value], the text items ([item.str]) of each
    page [pdfjs] delivers, and [file.text()].  Each may reject. *)
Record File := {
  mammothRawText : thrown + jsstring;
  pdfPages : thrown + list (thrown + list jsstring);
  fileText : thrown + jsstring
}.

(** The state hooks of the component that the flow uses. *)
Record AppState := {
  inputText : jsstring;
  loading : bool;
  error : option jsstring;
  notes : option value;
  history : list NoteHistoryItem;
  showUploadMenu : bool;
  currentFileType : option fileType
}.

Definition initialState : AppState :=
  {| inputText := []; loading := false; error := None; notes := None;
     history := []; showUploadMenu := false; currentFileType := None |}.

(** [localStorage]: string keys, string data. *)
Definition Storage := list (jsstring * jsstring).

Fixpoint getItem (key : jsstring) (st : Storage) : option jsstring :=
  match st with
  | [] => None
  | (k, d) :: r => if jsstring_eqb k key then Some d else getItem key r
  end.

Fixpoint setItem (key data : jsstring) (st : Storage) : Storage :=
  match st with
  | [] => [(key, data)]
  | (k, d) :: r =>
      if jsstring_eqb k key then (k, data) :: r else (k, d) :: setItem key data r
  end.

Definition historyKey : jsstring := lit "academia_mind_history".

(** The component, its storage, and everything done so far. *)
Record World := {
  ui : AppState;
  storage : Storage;
  trace : list action
}.

(** *** A state monad over the world *)

Definition M (A : Type) : Type := World -> A * World.

Definition ret {A} (x : A) : M A := fun w => (x, w).

Definition bind {A B} (c : M A) (k : A -> M B) : M B :=
  fun w => let (x, w') := c w in k x w'.

Declare Scope app_scope.
Delimit Scope app_scope with app.
Notation "x <- c ;; k" := (bind c (fun x => k))
  (at level 61, c at next level, right associativity) : app_scope.
Notation "c ;; k" := (bind c (fun _ => k))
  (at level 61, right associativity) : app_scope.
Local Open Scope app_scope.

Definition exec {A} (c : M A) (w : World) : World := snd (c w).

Definition emit (a : action) : M unit :=
  fun w => (tt, {| ui := ui w; storage := storage w;
                   trace := trace w ++ [a] |}).

Fixpoint emitAll (l : list action) : M unit :=
  match l with
  | [] => ret tt
  | a :: r => emit a ;; emitAll r
  end.

Definition modify (f : AppState -> AppState) : M unit :=
  fun w => (tt, {| ui := f (ui w); storage := storage w;
                   trace := trace w |}).

(** The values the handler closed over at the last render. *)
Definition render : M AppState := fun w => (ui w, w).

Definition setInputText (s : jsstring) : M unit :=
  modify (fun st =>
    {| inputText := s; loading := loading st; error := error st;
       notes := notes st; history := history st;
       showUploadMenu := showUploadMenu st;
       currentFileType := currentFileType st |}) ;;
  emit (SetInputText s).

Definition setLoading (b : bool) : M unit :=
  modify (fun st =>
    {| inputText := inputText st; loading := b; error := error st;
       notes := notes st; history := history st;
       showUploadMenu := showUploadMenu st;
       currentFileType := currentFileType st |}) ;;
  emit (SetLoading b).

Definition setError (e : option jsstring) : M unit :=
  modify (fun st =>
    {| inputText := inputText st; loading := loading st; error := e;
       notes := notes st; history := history st;
       showUploadMenu := showUploadMenu st;
       currentFileType := currentFileType st |}) ;;
  emit (SetError e).

Definition setNotes (n : option value) : M unit :=
  modify (fun st =>
    {| inputText := inputText st; loading := loading st; error := error st;
       notes := n; history := history st;
       showUploadMenu := showUploadMenu st;
       currentFileType := currentFileType st |}) ;;
  emit (SetNotes n).

Definition setShowUploadMenu (b : bool) : M unit :=
  modify (fun st =>
    {| inputText := inputText st; loading := loading st; error := error st;
       notes := notes st; history := history st;
       showUploadMenu := b;
       currentFileType := currentFileType st |}) ;;
  emit (SetShowUploadMenu b).

Definition setCurrentFileType (t : fileType) : M unit :=
  modify (fun st =>
    {| inputText := inputText st; loading := loading st; error := error st;
       notes := notes st; history := history st;
       showUploadMenu := showUploadMenu st;
       currentFileType := Some t |}) ;;
  emit (SetCurrentFileType (fileTypeName t)).

(** [setHistory(prev => f prev)]: the updater is applied to the latest
    history. *)
Definition setHistory (f : list NoteHistoryItem -> list NoteHistoryItem) : M unit :=
  st <- render ;;
  modify (fun st =>
    {| inputText := inputText st; loading := loading st; error := error st;
       notes := notes st; history := f (history st);
       showUploadMenu := showUploadMenu st;
       currentFileType := currentFileType st |}) ;;
  emit (SetHistory (f (history st))).

(** [localStorage.setItem(key, data)] *)
Definition writeStorage (key data : jsstring) : M unit :=
  fun w => (tt, {| ui := ui w; storage := setItem key data (storage w);
                   trace := trace w ++ [SetItem key data] |}).

(** *** Text extraction in [handleFileUpload] *)

(** The loop over the pages of a PDF: [fullText += items.join(" ") + "\n"]. *)
Fixpoint pdfText (pages : list (thrown + list jsstring)) (fullText : jsstring)
  : thrown + jsstring :=
  match pages with
  | [] => inr fullText
  | inl e :: _ => inl e
  | inr items :: rest => pdfText rest (fullText ++ join [32] items ++ [10])
  end.

Definition extractText (t : option fileType) (file : File) : thrown + jsstring :=
  match t with
  | Some docx => mammothRawText file
  | Some pdf =>
      match pdfPages file with
      | inl e => inl e
      | inr pages => pdfText pages []
      end
  | _ => fileText file
  end.

(** *** The handlers *)

(** What the outside answers while a handler runs: the service's reply to
    the generation request, and the two readings of [Date.now()] taken for
    the [id] and for the [timestamp] of a new item.  A reading is a whole
    number of milliseconds, of magnitude far below [2^53]. *)
Record Answers := {
  serviceReply : reply;
  nowForId : Z;
  nowForTimestamp : Z
}.

(** [err instanceof Error ? err.message : fallback] *)
Definition messageOr (fallback : jsstring) (err : thrown) : jsstring :=
  match err with
  | ErrorObject message => message
  | OtherThrown => fallback
  end.

Definition newItem (a : Answers) (source : jsstring) (generatedNotes : value)
  : NoteHistoryItem :=
  {| id := Z_toString (nowForId a);
     timestamp := Integer (nowForTimestamp a);
     originalText := source;
     Types.notes := generatedNotes |}.

(** [prev => [item, ...prev].slice(0, 10)] *)
Definition record (item : NoteHistoryItem) (prev : list NoteHistoryItem)
  : list NoteHistoryItem :=
  firstn 10 (item :: prev).

(** [await generateStudyNotes(content)] inside a handler. *)
Definition callGenerate (content : jsstring) (a : Answers) : M (thrown + value) :=
  let (calls, result) := generateStudyNotes content (serviceReply a) in
  emitAll calls ;; ret result.

(** The [try] block of [handleFileUpload]. *)
Definition uploadTry (t : option fileType) (file : File) (a : Answers)
  : M (thrown + unit) :=
  match extractText t file with
  | inl e => ret (inl e)
  | inr extractedText =>
      if negb (truthy (trim extractedText))
      then ret (inl (ErrorObject (lit "Document appears to be empty.")))
      else
        setInputText extractedText ;;
        r <- callGenerate extractedText a ;;
        match r with
        | inl e => ret (inl e)
        | inr generatedNotes =>
            setNotes (Some generatedNotes) ;;
            setHistory (record (newItem a extractedText generatedNotes)) ;;
            ret (inr tt)
        end
  end.

Definition handleFileUpload (file : option File) (a : Answers) : M unit :=
  match file with
  | None => ret tt
  | Some file =>
      st <- render ;;
      setLoading true ;;
      setError None ;;
      setShowUploadMenu false ;;
      r <- uploadTry (currentFileType st) file a ;;
      match r with
      | inl err => setError (Some (messageOr (lit "Error processing file.") err))
      | inr _ => ret tt
      end ;;
      setLoading false ;;
      emit ResetFileInput
  end.

Definition triggerFilePicker (t : fileType) : M unit :=
  setCurrentFileType t ;;
  emit (OpenFilePicker (match t with
                        | pdf => lit ".pdf"
                        | docx => lit ".docx"
                        | text => lit ".txt,.md"
                        end)).

Inductive FormEvent : Type := formEvent.

(** The [try] block of [handleSubmit]. *)
Definition submitTry (source : jsstring) (a : Answers) : M (thrown + unit) :=
  r <- callGenerate source a ;;
  match r with
  | inl e => ret (inl e)
  | inr generatedNotes =>
      setNotes (Some generatedNotes) ;;
      setHistory (record (newItem a source generatedNotes)) ;;
      ret (inr tt)
  end.

Definition handleSubmit (e : option FormEvent) (a : Answers) : M unit :=
  match e with Some _ => emit PreventDefault | None => ret tt end ;;
  st <- render ;;
  if negb (truthy (trim (inputText st))) then ret tt
  else
    setLoading true ;;
    setError None ;;
    r <- submitTry (inputText st) a ;;
    match r with
    | inl err =>
        setError (Some (messageOr (lit "Analysis failed. Please try again.") err))
    | inr _ => ret tt
    end ;;
    setLoading false.

(** The [onClick] of a history entry. *)
Definition selectItem (item : NoteHistoryItem) : M unit :=
  setNotes (Some (Types.notes item)) ;;
  setInputText (originalText item) ;;
  emit ScrollToTop.

(** *** The effects on the history *)

(** [localStorage.setItem('academia_mind_history', JSON.stringify(history))] *)
Definition persist (h : list NoteHistoryItem) : M unit :=
  writeStorage historyKey (JSON_stringify (value_of_history h)).

(** The persisting effect depends on [[history]]: it runs after a commit in
    which [setHistory] was called. *)
Definition isSetHistory (a : action) : bool :=
  match a with SetHistory _ => true | _ => false end.

Definition historyReplaced (before after : World) : bool :=
  existsb isSetHistory (skipn (length (trace before)) (trace after)).

(** What the user does.  A history entry is chosen by its position in the
    list on display. *)
Inductive event : Type :=
| Change (s : jsstring)
| Clear
| ToggleUploadMenu
| PickFileType (t : fileType)
| Upload (file : option File) (a : Answers)
| Submit (a : Answers)
| Select (index : nat).

Definition handle (ev : event) : M unit :=
  match ev with
  | Change s => setInputText s
  | Clear => setInputText []
  | ToggleUploadMenu => st <- render ;; setShowUploadMenu (negb (showUploadMenu st))
  | PickFileType t => triggerFilePicker t
  | Upload file a => handleFileUpload file a
  | Submit a => handleSubmit (Some formEvent) a
  | Select i =>
      st <- render ;;
      match nth_error (history st) i with
      | Some item => selectItem item
      | None => ret tt
      end
  end.

(** One interaction: the handler runs to its end, then the effects.  The
    effects run after the render of the state the handler set; [dispatch]
    is what handler and effects do when that render goes through, and
    [interact] below says when it does. *)
Definition dispatch (ev : event) (w : World) : World :=
  let w' := exec (handle ev) w in
  if historyReplaced w w' then exec (persist (history (ui w'))) w' else w'.

Definition run (evs : list event) (w : World) : World :=
  fold_left (fun w ev => dispatch ev w) evs w.

(** The first render and its effects, on the storage the browser holds.
    The loading effect reads the saved history and, when it parses, sets it;
    the persisting effect then writes the history of the first render, which
    is empty; when a history was set, the component renders again and the
    persisting effect writes that one.  [None]: the saved text parses to a
    value that is not a typed history. *)
Definition initialWorld (stored : Storage) : World :=
  {| ui := initialState; storage := stored; trace := [] |}.

Definition mount (stored : Storage) : option World :=
  let w := exec (emit (GetItem historyKey)) (initialWorld stored) in
  match getItem historyKey stored with
  | None => Some (exec (persist []) w)
  | Some savedHistory =>
      if truthy savedHistory then
        match JSON_parse savedHistory with
        | Some v =>
            match history_of_value v with
            | Some h =>
                Some (exec (setHistory (fun _ => h) ;; persist [] ;; persist h) w)
            | None => None
            end
        | None =>
            Some (exec (emit (ConsoleError (lit "History parse failed")) ;;
                        persist []) w)
        end
      else Some (exec (persist []) w)
  end.

End App.
Export App.

(** ** What the component renders

    After a handler has set the state the component renders again, and the
    effects of [dispatch] run only when that render goes through.  The JSX
    reads the notes and the history entries without a check: where it reads
    a property of [null] or [undefined], calls [split] or [map] on a value
    that has none, or is handed an object as a child, the render throws.
    The component has no error boundary, so React then takes it off the
    page: the state the handler set is not committed and no effect runs.

    The state updates a handler makes in one go (after an awaited promise,
    too) are rendered together. *)

Module Render.

(** [v ? ... : ...] *)
Definition valueTruthy (v : value) : bool :=
  match v with
  | JNull => false
  | JBool b => b
  | JNumber (Integer z) => negb (z =? 0)%Z
  | JNumber NegativeZero => false
  | JNumber _ => true
  | JString s => truthy s
  | JArray _ | JObject _ => true
  end.

(** [v.key] on a value that is neither [null] nor [undefined], for the
    property names of [types.ts], none of which a prototype defines: the own
    property of an object, [undefined] on a string, a number, a boolean or
    an array. *)
Definition property (key : jsstring) (v : value) : option value :=
  match v with
  | JObject ms => getProperty key ms
  | _ => None
  end.

(** [{v}] among the children of an element: a string or a number is text,
    a boolean or [null] is nothing, an array gives its elements as
    children; on an object React throws. *)
Fixpoint validChild (v : value) : bool :=
  match v with
  | JObject _ => false
  | JArray vs => forallb validChild vs
  | _ => true
  end.

(** [{x}] where [x] may be [undefined], which is nothing. *)
Definition child (x : option value) : bool :=
  match x with
  | Some v => validChild v
  | None => true
  end.

(** [x.map(v => ...)]: only an array has [map]. *)
Definition mapped (f : value -> bool) (x : option value) : bool :=
  match x with
  | Some (JArray vs) => forallb f vs
  | _ => false
  end.

(** [x.split(...)]: only a string has [split]. *)
Definition isText (x : option value) : bool :=
  match x with
  | Some (JString _) => true
  | _ => false
  end.

(** One multiple-choice question: [q.question], [q.options.map(...)] and
    [q.answer]. *)
Definition rendersMcq (q : value) : bool :=
  match q with
  | JNull => false
  | _ => child (property (lit "question") q)
         && mapped validChild (property (lit "options") q)
         && child (property (lit "answer") q)
  end.

(** One short-answer question: [q.question] and [q.answer]. *)
Definition rendersShortAnswer (q : value) : bool :=
  match q with
  | JNull => false
  | _ => child (property (lit "question") q)
         && child (property (lit "answer") q)
  end.

(** [notes.studyQuestions.mcqs.map(...)],
    [notes.studyQuestions.shortAnswers.map(...)],
    [notes.studyQuestions.examStyle.question] and [.modelAnswer]. *)
Definition rendersQuestions (x : option value) : bool :=
  match x with
  | None | Some JNull => false
  | Some q =>
      mapped rendersMcq (property (lit "mcqs") q)
      && mapped rendersShortAnswer (property (lit "shortAnswers") q)
      && match property (lit "examStyle") q with
         | None | Some JNull => false
         | Some x => child (property (lit "question") x)
                     && child (property (lit "modelAnswer") x)
         end
  end.

(** The notes on display: [{notes && ...}] and [{notes ? ... : ...}].
    Falsy notes are not looked into. *)
Definition rendersNotes (n : value) : bool :=
  if valueTruthy n then
    child (property (lit "topicOverview") n)
    && isText (property (lit "detailedExplanation") n)
    && mapped validChild (property (lit "keyPoints") n)
    && mapped validChild (property (lit "commonMistakes") n)
    && mapped validChild (property (lit "examTips") n)
    && rendersQuestions (property (lit "studyQuestions") n)
  else true.

(** The button of a history entry reads [item.notes.topicOverview]. *)
Definition rendersTitle (n : value) : bool :=
  match n with
  | JNull => false
  | _ => child (property (lit "topicOverview") n)
  end.

Definition rendersEntry (item : NoteHistoryItem) : bool :=
  rendersTitle (Types.notes item).

(** The render of the component goes through. *)
Definition renders (st : AppState) : bool :=
  match notes st with
  | Some n => rendersNotes n
  | None => true
  end
  && forallb rendersEntry (history st).

(** Notes that can be shown and listed in the history. *)
Definition displayable (n : value) : bool := rendersNotes n && rendersTitle n.

End Render.
Export Render.

(** ** The page *)

Module Pages.
Local Open Scope app_scope.

(** The component is on the page, or it has been taken off: then the
    storage and what was done remain. *)
Inductive Page : Type :=
| Mounted (w : World)
| Unmounted (stored : Storage) (done : list action).

(** One interaction with the page: the handler runs and the component
    renders the state it set; when the render goes through, the effects
    run; when it throws, the component is unmounted with nothing committed
    and nothing written.  There is nothing to interact with on a page
    without the component. *)
Definition interact (ev : event) (p : Page) : Page :=
  match p with
  | Mounted w =>
      let handled := exec (handle ev) w in
      if renders (ui handled) then Mounted (dispatch ev w)
      else Unmounted (storage handled) (trace handled)
  | Unmounted _ _ => p
  end.

Definition session (evs : list event) (p : Page) : Page :=
  fold_left (fun p ev => interact ev p) evs p.

(** The page comes up.  The first render shows the empty history and goes
    through; its effects load the saved history and write the empty one;
    the render of the loaded history follows, and only after it the effect
    that writes the loaded history. *)
Definition start (stored : Storage) : option Page :=
  match mount stored with
  | Some w =>
      if renders (ui w) then Some (Mounted w)
      else
        let first := exec (emit (GetItem historyKey) ;;
                           setHistory (fun _ => history (ui w)) ;;
                           persist []) (initialWorld stored) in
        Some (Unmounted (storage first) (trace first))
  | None => None
  end.

(** The item an interaction asks to record: the one a submission or an
    upload builds when its generation succeeds. *)
Definition generatedItem (source : jsstring) (a : Answers) : option NoteHistoryItem :=
  if truthy (trim source) then
    match snd (generateStudyNotes source (serviceReply a)) with
    | inr generatedNotes => Some (newItem a source generatedNotes)
    | inl _ => None
    end
  else None.

Definition generated (ev : event) (w : World) : option NoteHistoryItem :=
  match ev with
  | Submit a => generatedItem (inputText (ui w)) a
  | Upload (Some file) a =>
      match extractText (currentFileType (ui w)) file with
      | inr extractedText => generatedItem extractedText a
      | inl _ => None
      end
  | _ => None
  end.

(** The notes on display after an interaction that records nothing: those
    of the chosen entry, or the ones that were there. *)
Definition notesKept (ev : event) (w : World) : option value :=
  match ev with
  | Select i =>
      match nth_error (history (ui w)) i with
      | Some item => Some (Types.notes item)
      | None => notes (ui w)
      end
  | _ => notes (ui w)
  end.

(** The items recorded along a run, the latest first. *)
Fixpoint recorded (evs : list event) (w : World) : list NoteHistoryItem :=
  match evs with
  | [] => []
  | ev :: rest =>
      recorded rest (dispatch ev w)
      ++ match generated ev w with
         | Some item => [item]
         | None => []
         end
  end.

End Pages.
Export Pages.

(** ** Values that survive a trip through storage *)

Module Storable.

(** A key may come next in an object whose keys so far are [seen]: it is
    new, and when it is an array index, the keys so far are smaller array
    indices. *)
Definition keyFits (seen : list jsstring) (k : jsstring) : bool :=
  negb (existsb (fun k' => jsstring_eqb k' k) seen)
  && match arrayIndex k with
     | Some i =>
         forallb (fun k' => match arrayIndex k' with
                            | Some j => j <? i
                            | None => false
                            end) seen
     | None => true
     end.

Fixpoint keysOrdered (seen ks : list jsstring) : bool :=
  match ks with
  | [] => true
  | k :: r => keyFits seen k && keysOrdered (seen ++ [k]) r
  end.

(** The values whose round trip is proved below: objects in property order
    without repeated keys, which is how every object of JavaScript has its
    keys, and whole numbers below [2^53]. *)
Fixpoint storable (v : value) : bool :=
  match v with
  | JNull | JBool _ | JString _ => true
  | JNumber (Integer z) => isSafeInteger z
  | JNumber _ => false
  | JArray vs => forallb storable vs
  | JObject ms =>
      keysOrdered [] (map fst ms)
      && forallb (fun kv => storable (snd kv)) ms
  end.

(** An item whose timestamp is a whole number below [2^53], as every
    reading of [Date.now()] is, and whose notes are storable. *)
Definition storableItem (it : NoteHistoryItem) : bool :=
  match timestamp it with
  | Integer z => isSafeInteger z
  | _ => false
  end && storable (Types.notes it).

(** Fuel that [parseValue] needs on the text of a value. *)
Fixpoint weight (v : value) : nat :=
  match v with
  | JArray vs => S (fold_right (fun x n => S (weight x + n)) O vs)
  | JObject ms => S (fold_right (fun kv n => S (weight (snd kv) + n)) O ms)
  | _ => 1%nat
  end.

(** A number literal ends before this text. *)
Definition endsNumber (rest : jsstring) : bool :=
  match rest with
  | [] => true
  | c :: _ => negb (isDigit c || (c =? 46) || (c =? 101) || (c =? 69))
  end.

(** A character that can open the text of a value: it is no white space and
    closes neither an array nor an object. *)
Definition opens (c : N) : Prop :=
  isJsonSpace c = false /\ (c =? 93) = false /\ (c =? 125) = false.

Definition elementsWeight (vs : list value) : nat :=
  fold_right (fun x n => S (weight x + n)) O vs.

Definition membersWeight (ms : list member) : nat :=
  fold_right (fun kv n => S (weight (snd kv) + n)) O ms.

Definition memberText (kv : member) : jsstring :=
  quote (fst kv) ++ [58] ++ stringify (snd kv).

(** [parseValue] reads the text of [v] back, whatever follows it. *)
Definition reads (v : value) : Prop :=
  storable v = true ->
  forall fuel rest, (weight v <= fuel)%nat -> endsNumber rest = true ->
  parseValue fuel (stringify v ++ rest) = Some (v, rest).

End Storable.
Export Storable.

(** ** The statements of the specification, and sample inputs *)

Module Specification.

(** "Fails with ResponseMalformed": the parse failure is logged and the
    error with the message about shorter content is thrown. *)
Definition failsMalformed (content : jsstring) (r : reply) : Prop :=
  generateStudyNotes content r
  = ([GenerateContent content;
      ConsoleError (lit "Failed to parse Gemini response")],
     inl (ErrorObject malformedMessage)).

(** "The response can be parsed as JSON matching the expected shape". *)
Definition matchesExpectedShape (text : jsstring) : Prop :=
  exists v, JSON_parse text = Some v /\ conforms responseSchema v = true.

(** The failure condition as the specification states it. *)
Definition malformed_when_shape_mismatch (content : jsstring)
    (text : option jsstring) : Prop :=
  failsMalformed content (Responded text) <-> ~ matchesExpectedShape (ToString text).

(** "For every successful generation exactly one new item is placed at the
    front of the history": after the submission the page shows the history
    with the new item first. *)
Definition generation_recorded (w : World) (a : Answers) : Prop :=
  forall calls v,
    truthy (trim (inputText (ui w))) = true ->
    generateStudyNotes (inputText (ui w)) (serviceReply a) = (calls, inr v) ->
    exists w', interact (Submit a) (Mounted w) = Mounted w'
               /\ history (ui w')
                  = newItem a (inputText (ui w)) v :: firstn 9 (history (ui w)).


(** "id values are unique within the list". *)
Definition idsUnique (h : list NoteHistoryItem) : Prop := NoDup (map id h).

(** The readings of [Date.now()] offered for the [id]s along a run. *)
Definition idReadings (evs : list event) : list Z :=
  flat_map (fun ev => match ev with
                      | Submit a => [nowForId a]
                      | Upload _ a => [nowForId a]
                      | _ => []
                      end) evs.

(** The text of a PDF as the specification states it: the fragments of a
    page joined by single spaces, a newline between consecutive pages. *)
Definition pdfText_as_specified (pages : list (list jsstring)) : jsstring :=
  join [10] (map (join [32]) pages).

End Specification.
Export Specification.

Module Samples.

Definition photosynthesis : jsstring :=
  lit "Photosynthesis converts light into chemical energy.".

Definition sampleNotes : StudyNotes :=
  {| topicOverview := lit "Photosynthesis";
     detailedExplanation := lit "Plants turn light into sugar.";
     keyPoints := [lit "Chlorophyll absorbs light"];
     examples := [lit "A leaf in the sun"];
     commonMistakes := [lit "Plants do respire too"];
     examTips := [lit "Name the reactants"];
     studyQuestions :=
       {| mcqs := [{| mcq_question := lit "Where?";
                      options := [lit "Chloroplast"; lit "Nucleus"];
                      mcq_answer := lit "Chloroplast" |}];
          shortAnswers := [{| sa_question := lit "Why?"; sa_answer := lit "Energy" |}];
          examStyle := {| exam_question := lit "Explain.";
                          modelAnswer := lit "Light drives it." |} |} |}.

(** The service answers with the text of [sampleNotes]. *)
Definition goodAnswers (now : Z) : Answers :=
  {| serviceReply := Responded (Some (JSON_stringify (value_of_StudyNotes sampleNotes)));
     nowForId := now;
     nowForTimestamp := now |}.

(** The service answers with the empty object. *)
Definition emptyObjectAnswers (now : Z) : Answers :=
  {| serviceReply := Responded (Some (lit "{}"));
     nowForId := now;
     nowForTimestamp := now |}.

(** The service answers with text that is not JSON. *)
Definition proseAnswers (now : Z) : Answers :=
  {| serviceReply := Responded (Some (lit "Here are your notes!"));
     nowForId := now;
     nowForTimestamp := now |}.

Definition typed (s : jsstring) : World :=
  {| ui := {| inputText := s; loading := false; error := None; notes := None;
              history := []; showUploadMenu := false; currentFileType := None |};
     storage := [];
     trace := [] |}.

Definition picked (t : fileType) : World :=
  {| ui := {| inputText := []; loading := false; error := None; notes := None;
              history := []; showUploadMenu := false; currentFileType := Some t |};
     storage := [];
     trace := [] |}.

(** A PDF of one page reading "a", and a text file of blanks. *)
Definition onePagePdf : File :=
  {| mammothRawText := inl OtherThrown;
     pdfPages := inr [inr [lit "a"]];
     fileText := inr [] |}.

Definition blankTextFile : File :=
  {| mammothRawText := inl OtherThrown;
     pdfPages := inl OtherThrown;
     fileText := inr (lit "   ") |}.

Definition sampleItem : NoteHistoryItem :=
  {| id := lit "1700000000000";
     timestamp := Integer 1700000000000;
     originalText := photosynthesis;
     Types.notes := value_of_StudyNotes sampleNotes |}.

(** Ten earlier generations, the latest first, and a page that shows
    them. *)
Definition earlierItem (n : Z) : NoteHistoryItem :=
  {| id := Z_toString n;
     timestamp := Integer n;
     originalText := photosynthesis;
     Types.notes := value_of_StudyNotes sampleNotes |}.

Definition tenItems : list NoteHistoryItem :=
  map earlierItem [10; 9; 8; 7; 6; 5; 4; 3; 2; 1]%Z.

Definition full : World :=
  {| ui := {| inputText := photosynthesis; loading := false; error := None;
              notes := None; history := tenItems; showUploadMenu := false;
              currentFileType := None |};
     storage := [(historyKey, JSON_stringify (value_of_history tenItems))];
     trace := [] |}.



(** An item whose notes hold an overview and nothing else, and a page
    that lists it. *)
Definition overviewOnlyItem : NoteHistoryItem :=
  {| id := lit "1";
     timestamp := Integer 1;
     originalText := photosynthesis;
     Types.notes := JObject [(lit "topicOverview", JString (lit "Photosynthesis"))] |}.

Definition listing (h : list NoteHistoryItem) : World :=
  {| ui := {| inputText := []; loading := false; error := None; notes := None;
              history := h; showUploadMenu := false; currentFileType := None |};
     storage := [(historyKey, JSON_stringify (value_of_history h))];
     trace := [] |}.


End Samples.

(** ** What the component shows, and the theme *)

Module View.

(** [s.startsWith(prefix)] *)
Fixpoint startsWith (prefix s : jsstring) : bool :=
  match prefix with
  | [] => true
  | c :: p =>
      match s with
      | d :: r => (d =? c) && startsWith p r
      | [] => false
      end
  end.

(** [String.prototype.split] with a string separator, read from left to
    right: at an occurrence of the separator the piece gathered so far is
    closed and the characters of the separator are passed over ([skip]
    counts those still to pass); the last piece is closed at the end. *)
Fixpoint splitFrom (sep : jsstring) (skip : nat) (piece s : jsstring)
  : list jsstring :=
  match s with
  | [] => [rev piece]
  | c :: r =>
      match skip with
      | S k => splitFrom sep k piece r
      | O =>
          if startsWith sep s
          then rev piece :: splitFrom sep (length sep - 1) [] r
          else splitFrom sep 0 (c :: piece) r
      end
  end.

(** [s.split(sep)]; with the empty separator the string falls into its
    code units. *)
Definition split (sep s : jsstring) : list jsstring :=
  match sep with
  | [] => map (fun c => [c]) s
  | _ :: _ => splitFrom sep 0 [] s
  end.

(** The paragraphs of the DETAILED EXPLANATION card:
    [notes.detailedExplanation.split('\n\n')]. *)
Definition paragraphs (explanation : jsstring) : list jsstring :=
  split [10; 10] explanation.

(** [sep] occurs in [s]. *)
Definition occursIn (sep s : jsstring) : Prop :=
  exists before after, s = before ++ sep ++ after.

Definition loadingMessages : list jsstring :=
  [lit "Reading your material...";
   lit "Simplifying complex language...";
   lit "Drafting exam questions...";
   lit "Clarifying cause-and-effect...";
   lit "Structuring your final notes..."].

(** The updater of the interval: [prev => (prev + 1) % loadingMessages.length]. *)
Definition nextLoadingStep (prev : nat) : nat :=
  ((prev + 1) mod length loadingMessages)%nat.

(** The label of the submit button:
    [loading ? loadingMessages[loadingStep] : "Generate Study Pack"];
    [None] stands for [undefined]. *)
Definition submitLabel (isLoading : bool) (loadingStep : nat) : option jsstring :=
  if isLoading then nth_error loadingMessages loadingStep
  else Some (lit "Generate Study Pack").

(** The notes as the cards read them, property by property
    ([notes.topicOverview], [notes.keyPoints.map], [q.options.map], ...):
    defined when every property the [StudyNotes] interface declares is
    there with its type. *)
Definition asString (v : option value) : option jsstring :=
  match v with
  | Some (JString s) => Some s
  | _ => None
  end.

Fixpoint allOf {A : Type} (read : value -> option A) (vs : list value)
  : option (list A) :=
  match vs with
  | [] => Some []
  | v :: r =>
      match read v, allOf read r with
      | Some x, Some xs => Some (x :: xs)
      | _, _ => None
      end
  end.

Definition asArray {A : Type} (read : value -> option A) (v : option value)
  : option (list A) :=
  match v with
  | Some (JArray vs) => allOf read vs
  | _ => None
  end.

Definition string_of_value (v : value) : option jsstring := asString (Some v).

Definition Mcq_of_value (v : value) : option Mcq :=
  match v with
  | JObject ms =>
      match asString (getProperty (lit "question") ms),
            asArray string_of_value (getProperty (lit "options") ms),
            asString (getProperty (lit "answer") ms) with
      | Some q, Some o, Some a =>
          Some {| mcq_question := q; options := o; mcq_answer := a |}
      | _, _, _ => None
      end
  | _ => None
  end.

Definition ShortAnswer_of_value (v : value) : option ShortAnswer :=
  match v with
  | JObject ms =>
      match asString (getProperty (lit "question") ms),
            asString (getProperty (lit "answer") ms) with
      | Some q, Some a => Some {| sa_question := q; sa_answer := a |}
      | _, _ => None
      end
  | _ => None
  end.

Definition ExamStyle_of_value (v : value) : option ExamStyle :=
  match v with
  | JObject ms =>
      match asString (getProperty (lit "question") ms),
            asString (getProperty (lit "modelAnswer") ms) with
      | Some q, Some a => Some {| exam_question := q; modelAnswer := a |}
      | _, _ => None
      end
  | _ => None
  end.

Definition StudyQuestions_of_value (v : value) : option StudyQuestions :=
  match v with
  | JObject ms =>
      match asArray Mcq_of_value (getProperty (lit "mcqs") ms),
            asArray ShortAnswer_of_value (getProperty (lit "shortAnswers") ms),
            getProperty (lit "examStyle") ms with
      | Some m, Some s, Some ev =>
          match ExamStyle_of_value ev with
          | Some e => Some {| mcqs := m; shortAnswers := s; examStyle := e |}
          | None => None
          end
      | _, _, _ => None
      end
  | _ => None
  end.

Definition StudyNotes_of_value (v : value) : option StudyNotes :=
  match v with
  | JObject ms =>
      match asString (getProperty (lit "topicOverview") ms),
            asString (getProperty (lit "detailedExplanation") ms),
            asArray string_of_value (getProperty (lit "keyPoints") ms),
            asArray string_of_value (getProperty (lit "examples") ms) with
      | Some t, Some d, Some k, Some x =>
          match asArray string_of_value (getProperty (lit "commonMistakes") ms),
                asArray string_of_value (getProperty (lit "examTips") ms),
                getProperty (lit "studyQuestions") ms with
          | Some c, Some e, Some qv =>
              match StudyQuestions_of_value qv with
              | Some q =>
                  Some {| topicOverview := t; detailedExplanation := d;
                          keyPoints := k; examples := x; commonMistakes := c;
                          examTips := e; studyQuestions := q |}
              | None => None
              end
          | _, _, _ => None
          end
      | _, _, _, _ => None
      end
  | _ => None
  end.

End View.
Export View.

(** The theme of the page: the initialiser of [isDarkMode], the effect that
    follows it, and the toggle button. *)
Module Theme.

Definition themeKey : jsstring := lit "theme".

Definition themeName (dark : bool) : jsstring :=
  if dark then lit "dark" else lit "light".

(** [isDarkMode], whether the document element carries the class [dark],
    and the storage. *)
Record ThemeWorld := {
  isDarkMode : bool;
  darkClass : bool;
  themeStorage : Storage
}.

(** The initialiser: the saved theme when there is one (and it is not the
    empty string), the preference of the system otherwise. *)
Definition initialDarkMode (stored : Storage) (prefersDark : bool) : bool :=
  match getItem themeKey stored with
  | Some saved =>
      if truthy saved then jsstring_eqb saved (lit "dark") else prefersDark
  | None => prefersDark
  end.

(** The effect on [[isDarkMode]]: the class is added or removed, and the
    name of the theme is saved. *)
Definition themeEffect (t : ThemeWorld) : ThemeWorld :=
  {| isDarkMode := isDarkMode t;
     darkClass := isDarkMode t;
     themeStorage := setItem themeKey (themeName (isDarkMode t)) (themeStorage t) |}.

(** The first render, on a page that has the class or not. *)
Definition startTheme (stored : Storage) (prefersDark hadClass : bool) : ThemeWorld :=
  themeEffect {| isDarkMode := initialDarkMode stored prefersDark;
                 darkClass := hadClass;
                 themeStorage := stored |}.

(** The toggle button: [setIsDarkMode(!isDarkMode)], then the effect. *)
Definition toggleTheme (t : ThemeWorld) : ThemeWorld :=
  themeEffect {| isDarkMode := negb (isDarkMode t);
                 darkClass := darkClass t;
                 themeStorage := themeStorage t |}.

End Theme.
Export Theme.

(** ** The component with its theme *)

Module Whole.

(** What the user does with the component: one of the interactions of
    [event], or a click on the theme button. *)
Inductive interaction : Type :=
| Use (ev : event)
| ToggleTheme.

(** The page, [isDarkMode], and whether the document element carries the
    class [dark]. *)
Record Component := {
  page : Page;
  dark : bool;
  darkClassSet : bool
}.

(** The click on the theme button: [setIsDarkMode(!isDarkMode)], then the
    effect on [[isDarkMode]], which writes the storage of the page.  The
    render reads [isDarkMode] for the icon of the button only. *)
Definition toggleOn (c : Component) (w : World) : Component :=
  let t := toggleTheme {| isDarkMode := dark c;
                          darkClass := darkClassSet c;
                          themeStorage := storage w |} in
  {| page := Mounted {| ui := ui w;
                        storage := themeStorage t;
                        trace := trace w
                                 ++ [SetItem themeKey (themeName (isDarkMode t))] |};
     dark := isDarkMode t;
     darkClassSet := darkClass t |}.

Definition act (i : interaction) (c : Component) : Component :=
  match i, page c with
  | Use ev, p => {| page := interact ev p;
                    dark := dark c;
                    darkClassSet := darkClassSet c |}
  | ToggleTheme, Mounted w => toggleOn c w
  | ToggleTheme, Unmounted _ _ => c
  end.

End Whole.
Export Whole.

(** What can be observed of a run. *)
Module Observations.

(** The generation requests among the things done, by their contents. *)
Fixpoint requests (done : list action) : list jsstring :=
  match done with
  | [] => []
  | GenerateContent contents :: r => contents :: requests r
  | _ :: r => requests r
  end.

(** The storage holds the text of the history on display. *)
Definition inSync (w : World) : Prop :=
  getItem historyKey (storage w)
  = Some (JSON_stringify (value_of_history (history (ui w)))).

(** A page as the app itself builds it: it is on display, and every entry
    of the history holds notes that the page can show. *)
Definition sound (w : World) : bool :=
  renders (ui w)
  && forallb (fun item => displayable (Types.notes item)) (history (ui w)).

(** The outcomes of an interaction, by what became of the history. *)
Inductive outcome (w : World) (ev : event) : Prop :=
| Kept :
    history (ui (dispatch ev w)) = history (ui w) ->
    storage (dispatch ev w) = storage w ->
    requests (trace (dispatch ev w)) = requests (trace w)
    \/ (exists source,
          requests (trace (dispatch ev w)) = requests (trace w) ++ [source]) ->
    outcome w ev
| Recorded (a : Answers) (source : jsstring) (calls : list action) (v : value) :
    ev = Submit a \/ (exists file, ev = Upload (Some file) a) ->
    generateStudyNotes source (serviceReply a) = (calls, inr v) ->
    truthy (trim source) = true ->
    history (ui (dispatch ev w)) = record (newItem a source v) (history (ui w)) ->
    storage (dispatch ev w)
    = setItem historyKey
        (JSON_stringify (value_of_history (history (ui (dispatch ev w)))))
        (storage w) ->
    notes (ui (dispatch ev w)) = Some v ->
    error (ui (dispatch ev w)) = None ->
    outcome w ev.

End Observations.
Export Observations.

(** * Facts *)

(** ** Decimal digits *)

Module DigitFacts.

Lemma codes_uint_codes (u : Decimal.uint) : codes_uint (uint_codes u) = u.
Proof. induction u; simpl; unfold digit_cons; simpl; congruence. Qed.

Lemma digits_value_digits (n : N) : digits_value (digits n) = n.
Proof.
  unfold digits_value, digits. rewrite codes_uint_codes.
  apply DecimalN.Unsigned.of_to.
Qed.

Lemma uint_codes_digits (u : Decimal.uint) : forallb isDigit (uint_codes u) = true.
Proof. induction u; simpl; auto. Qed.

Lemma digits_all (n : N) : forallb isDigit (digits n) = true.
Proof. apply uint_codes_digits. Qed.

Lemma uint_codes_inj (u u' : Decimal.uint) : uint_codes u = uint_codes u' -> u = u'.
Proof.
  intros H. rewrite <- (codes_uint_codes u), <- (codes_uint_codes u'). now rewrite H.
Qed.

Lemma digits_inj (n n' : N) : digits n = digits n' -> n = n'.
Proof.
  intros H. apply DecimalN.Unsigned.to_uint_inj. now apply uint_codes_inj.
Qed.

Lemma digits_zero : digits 0 = [48].
Proof. reflexivity. Qed.

Lemma to_uint_normal (n : N) : Decimal.unorm (N.to_uint n) = N.to_uint n.
Proof.
  rewrite <- (DecimalN.Unsigned.of_to n) at 2.
  symmetry. apply DecimalN.Unsigned.to_of.
Qed.

(** A positive number prints with a non-zero first digit. *)
Lemma digits_head (n : N) :
  n <> 0 -> exists c r, digits n = c :: r /\ isDigit c = true /\ c <> 48.
Proof.
  intros Hn. unfold digits.
  pose proof (to_uint_normal n) as Hnorm.
  destruct (N.to_uint n) as [|d|d|d|d|d|d|d|d|d|d] eqn:E; simpl;
    try (eexists; eexists; split; [reflexivity|split; [reflexivity|discriminate]]).
  - exfalso. destruct n; [congruence|]. simpl in E.
    now apply (DecimalPos.Unsigned.to_uint_nonnil p).
  - exfalso. unfold Decimal.unorm in Hnorm. rewrite DecimalFacts.nzhead_D0 in Hnorm.
    destruct (Decimal.nzhead d) eqn:Ed.
    + injection Hnorm as Hd. subst d. apply Hn.
      rewrite <- (DecimalN.Unsigned.of_to n), E. reflexivity.
    + apply (DecimalFacts.nzhead_nonzero d d). congruence.
    + discriminate. + discriminate. + discriminate. + discriminate.
    + discriminate. + discriminate. + discriminate. + discriminate.
    + discriminate.
Qed.

Lemma digits_nonempty (n : N) : digits n <> [].
Proof.
  destruct (N.eq_dec n 0) as [->|Hn]; [discriminate|].
  destruct (digits_head n Hn) as (c & r & E & _). congruence.
Qed.

Lemma spanDigits_app (ds rest : jsstring) :
  forallb isDigit ds = true ->
  match rest with [] => True | c :: _ => isDigit c = false end ->
  spanDigits (ds ++ rest) = (ds, rest).
Proof.
  intros Hd Hr. induction ds as [|c ds IH]; simpl in *.
  - destruct rest as [|c r]; [reflexivity|]. simpl. now rewrite Hr.
  - apply andb_true_iff in Hd as [Hc Hd]. rewrite Hc, (IH Hd). reflexivity.
Qed.

Lemma Z_toString_inj (a b : Z) : Z_toString a = Z_toString b -> a = b.
Proof.
  unfold Z_toString. intros H.
  assert (Hhead : forall n, exists c r, digits n = c :: r /\ isDigit c = true).
  { intros n. destruct (N.eq_dec n 0) as [->|Hn].
    - exists 48, []. split; reflexivity.
    - destruct (digits_head n Hn) as (c & r & E & Hc & _). eauto. }
  destruct (a <? 0)%Z eqn:Ha, (b <? 0)%Z eqn:Hb; simpl in H.
  - injection H as H. apply digits_inj in H.
    apply Z.ltb_lt in Ha, Hb. lia.
  - exfalso. destruct (Hhead (Z.abs_N b)) as (c & r & E & Hc).
    rewrite E in H. injection H as H _. subst c. discriminate.
  - exfalso. destruct (Hhead (Z.abs_N a)) as (c & r & E & Hc).
    rewrite E in H. injection H as H _. subst c. discriminate.
  - apply digits_inj in H. apply Z.ltb_ge in Ha, Hb. lia.
Qed.

End DigitFacts.

(** ** Number and string literals *)

Module LiteralFacts.
Import DigitFacts.

Lemma endsNumber_head (rest : jsstring) :
  endsNumber rest = true ->
  match rest with
  | [] => True
  | c :: _ => isDigit c = false /\ (c =? 46) = false /\ (c =? 101) = false
              /\ (c =? 69) = false
  end.
Proof.
  destruct rest as [|c r]; simpl; [trivial|].
  rewrite negb_true_iff. intros H.
  repeat (apply orb_false_iff in H as [H ?]). auto.
Qed.

Lemma parseIntPart_digits (n : N) (rest : jsstring) :
  endsNumber rest = true ->
  parseIntPart (digits n ++ rest) = Some (digits n, rest).
Proof.
  intros Hr. apply endsNumber_head in Hr.
  destruct (N.eq_dec n 0) as [->|Hn]; [reflexivity|].
  destruct (digits_head n Hn) as (c & r & E & Hc & Hz).
  pose proof (digits_all n) as Hall.
  unfold parseIntPart. rewrite E in *. cbn [app].
  apply N.eqb_neq in Hz. rewrite Hz, Hc.
  change (c :: r ++ rest) with ((c :: r) ++ rest).
  rewrite spanDigits_app; auto.
  destruct rest; [trivial|tauto].
Qed.

Lemma parseFraction_none (rest : jsstring) :
  endsNumber rest = true -> parseFraction rest = Some ([], rest).
Proof.
  intros Hr. apply endsNumber_head in Hr. destruct rest as [|c r]; [reflexivity|].
  simpl. destruct Hr as (_ & -> & _). reflexivity.
Qed.

Lemma parseExponent_none (rest : jsstring) :
  endsNumber rest = true -> parseExponent rest = Some (0%Z, rest).
Proof.
  intros Hr. apply endsNumber_head in Hr. destruct rest as [|c r]; [reflexivity|].
  simpl. destruct Hr as (_ & _ & -> & ->). reflexivity.
Qed.

Local Open Scope Z_scope.

Lemma oddPart_spec (m : positive) :
  Z.pos m = Z.pos (fst (oddPart m)) * 2 ^ snd (oddPart m)
  /\ 0 <= snd (oddPart m)
  /\ Z.odd (Z.pos (fst (oddPart m))) = true.
Proof.
  induction m as [p IH|p IH|]; cbn [oddPart]; try (cbn; repeat split; lia).
  destruct (oddPart p) as [o k]. cbn [fst snd] in *. destruct IH as (E & Hk & Ho).
  repeat split; try assumption; try lia.
  rewrite Z.pow_add_r by lia. change (Z.pos p~0) with (2 * Z.pos p). rewrite E. ring.
Qed.

Lemma halfEven_whole (x : Z) : halfEven x 1 = x.
Proof.
  unfold halfEven. rewrite Z.div_1_r, Z.mod_1_r. reflexivity.
Qed.

Lemma log2Ratio_whole (z : Z) : 0 < z -> log2Ratio z 1 = Z.log2 z.
Proof.
  intros Hz. unfold log2Ratio. change (Z.log2 1) with 0. rewrite Z.sub_0_r.
  pose proof (Z.log2_nonneg z) as Hl.
  destruct (0 <=? Z.log2 z) eqn:E; [|apply Z.leb_gt in E; lia].
  rewrite Z.mul_1_l.
  destruct (2 ^ Z.log2 z <=? z) eqn:E'; [reflexivity|].
  apply Z.leb_gt in E'. pose proof (Z.log2_spec z Hz). lia.
Qed.

(** A whole number below [2^53] is a double as it stands. *)
Lemma Number_of_ratio_whole (neg : bool) (z : Z) :
  (0 < z < safeBound)%Z -> Number_of_ratio neg z 1 = Integer (negate neg z).
Proof.
  intros [Hz Hb]. unfold Number_of_ratio, roundRatio.
  rewrite (log2Ratio_whole z Hz).
  assert (Hl : 0 <= Z.log2 z <= 52).
  { split; [apply Z.log2_nonneg|].
    assert (Z.log2 z < 53); [|lia]. apply Z.log2_lt_pow2; [assumption|exact Hb]. }
  rewrite Z.max_l by lia. set (e := Z.log2 z - 52).
  assert (He : -52 <= e <= 0) by (unfold e; lia).
  assert (Hm : (if 0 <=? e then halfEven z (1 * 2 ^ e) else halfEven (z * 2 ^ (- e)) 1)
               = z * 2 ^ (- e)).
  { destruct (0 <=? e) eqn:E.
    - apply Z.leb_le in E. assert (e = 0) by lia. subst e. rewrite H.
      cbn. rewrite halfEven_whole. lia.
    - now rewrite halfEven_whole. }
  rewrite Hm.
  assert (Hover : (971 <? e) || (e =? 971) && (z * 2 ^ (- e) =? safeBound) = false).
  { rewrite (proj2 (Z.ltb_ge 971 e)) by lia.
    rewrite (proj2 (Z.eqb_neq e 971)) by lia. reflexivity. }
  rewrite Hover.
  assert (Hpos : 0 < z * 2 ^ (- e)) by (apply Z.mul_pos_pos; [lia|apply Z.pow_pos_nonneg; lia]).
  destruct (z * 2 ^ (- e)) as [|mp|mp] eqn:Emp; try lia.
  unfold canonical. pose proof (oddPart_spec mp) as (E & Hk & Ho).
  destruct (oddPart mp) as [o k]. cbn [fst snd] in *.
  assert (Hke : 0 <= e + k).
  { destruct (Z.le_gt_cases 0 (e + k)) as [H|H]; [assumption|exfalso].
    assert (Ho' : Z.pos o = z * 2 ^ (- e - k)).
    { apply (Z.mul_reg_r _ _ (2 ^ k)); [apply Z.pow_nonzero; lia|].
      rewrite <- E, <- Emp, <- Z.mul_assoc, <- Z.pow_add_r by lia.
      f_equal. f_equal. lia. }
    rewrite Ho' in Ho. replace (- e - k) with (Z.succ (- e - k - 1)) in Ho by lia.
    rewrite Z.pow_succ_r in Ho by lia.
    rewrite Z.mul_assoc, (Z.mul_comm z 2), <- Z.mul_assoc, Z.odd_mul in Ho.
    discriminate Ho. }
  assert (Hval : Z.pos o * 2 ^ (e + k) = z).
  { apply (Z.mul_reg_r _ _ (2 ^ (- e))); [apply Z.pow_nonzero; lia|].
    rewrite Emp, E, <- Z.mul_assoc, <- Z.pow_add_r by lia.
    f_equal. f_equal. lia. }
  rewrite Hval. rewrite (proj2 (Z.leb_le 0 (e + k)) Hke).
  rewrite (proj2 (Z.ltb_lt z safeBound) Hb). reflexivity.
Qed.

Local Close Scope Z_scope.

(** Literals on either side of what a double holds, read and written
    again. *)
Example numbers_read_and_written :
  map (fun text => option_map JSON_stringify (JSON_parse (lit text)))
      ["0.1"; "1.50"; "-0"; "0.0000001"; "1e21"; "123456789012345678901";
       "9007199254740993"; "5e-324"; "1e-400"; "1e400"; "-1e400"]%string
  = map (fun text => Some (lit text))
      ["0.1"; "1.5"; "0"; "1e-7"; "1e+21"; "123456789012345680000";
       "9007199254740992"; "5e-324"; "0"; "null"; "null"]%string.
Proof. vm_compute. reflexivity. Qed.

(** On whole numbers below [2^53] the digits that [Number::toString]
    selects are the decimal form of the number. *)
Example whole_numbers_written :
  map (fun z => let (m, e) := oddPart z in positiveText m e)
      [1; 10; 1000; 1700000000000; 9007199254740991]%positive
  = map Z_toString [1; 10; 1000; 1700000000000; 9007199254740991]%Z.
Proof. vm_compute. reflexivity. Qed.

(** The digits of a whole number below [2^53] denote that number. *)
Lemma Number_of_decimal_integer (m : Z) :
  isSafeInteger m = true ->
  Number_of_decimal (m <? 0)%Z (Z.abs_N m) 0 = Integer m.
Proof.
  unfold isSafeInteger, Number_of_decimal. intros Hsafe. apply Z.ltb_lt in Hsafe.
  destruct (Z.abs_N m =? 0) eqn:E0.
  - apply N.eqb_eq in E0.
    assert (m = 0%Z) by (destruct m; [reflexivity|discriminate E0|discriminate E0]).
    now subst.
  - apply N.eqb_neq in E0. unfold decimalRatio. change (0 <=? 0)%Z with true.
    cbv iota. rewrite Z.pow_0_r, Z.mul_1_r, N2Z.inj_abs_N.
    rewrite Number_of_ratio_whole by lia.
    unfold negate. destruct (m <? 0)%Z eqn:Hm; f_equal.
    + apply Z.ltb_lt in Hm. lia.
    + apply Z.ltb_ge in Hm. lia.
Qed.

Lemma digit_not_minus (c : N) : isDigit c = true -> (c =? 45) = false.
Proof.
  unfold isDigit. rewrite andb_true_iff, !N.leb_le. intros [H1 H2].
  apply N.eqb_neq. lia.
Qed.

(** The text of a whole number below [2^53] reads back as that number. *)
Lemma parseNumber_integer (m : Z) (rest : jsstring) :
  isSafeInteger m = true ->
  endsNumber rest = true ->
  parseNumber (Z_toString m ++ rest) = Some (JNumber (Integer m), rest).
Proof.
  intros Hsafe Hr. pose proof (Number_of_decimal_integer m Hsafe) as Hnum.
  unfold Z_toString, parseNumber.
  destruct (m <? 0)%Z eqn:Hm.
  - cbn [app]. change (45 =? 45) with true. cbv iota.
    rewrite parseIntPart_digits, parseFraction_none, parseExponent_none by assumption.
    rewrite app_nil_r, digits_value_digits. cbn [length Z.of_nat Z.sub Z.opp Z.add].
    now rewrite Hnum.
  - cbn [app].
    assert (Hhead : exists c r, digits (Z.abs_N m) = c :: r /\ isDigit c = true).
    { destruct (N.eq_dec (Z.abs_N m) 0) as [->|Hn].
      - exists 48, []. split; reflexivity.
      - destruct (digits_head _ Hn) as (c & r & E & Hc & _). eauto. }
    destruct Hhead as (c & r & E & Hc).
    rewrite E. cbn [app]. rewrite (digit_not_minus c Hc).
    change (c :: r ++ rest) with ((c :: r) ++ rest). rewrite <- E.
    rewrite parseIntPart_digits, parseFraction_none, parseExponent_none by assumption.
    rewrite app_nil_r, digits_value_digits. cbn [length Z.of_nat Z.sub Z.opp Z.add].
    now rewrite Hnum.
Qed.

(** *** Strings *)

Lemma unhex_hexDigit (n : N) : n < 16 -> unhex (hexDigit n) = Some n.
Proof.
  intros H. unfold hexDigit, unhex, isDigit.
  destruct (n <? 10) eqn:E.
  - apply N.ltb_lt in E.
    replace (48 <=? 48 + n) with true by (symmetry; apply N.leb_le; lia).
    replace (48 + n <=? 57) with true by (symmetry; apply N.leb_le; lia).
    cbn [andb]. f_equal. lia.
  - apply N.ltb_ge in E.
    replace (48 <=? 87 + n) with true by (symmetry; apply N.leb_le; lia).
    replace (87 + n <=? 57) with false by (symmetry; apply N.leb_gt; lia).
    replace (97 <=? 87 + n) with true by (symmetry; apply N.leb_le; lia).
    replace (87 + n <=? 102) with true by (symmetry; apply N.leb_le; lia).
    cbn [andb]. f_equal. lia.
Qed.

Lemma unhex4_escape (c : N) :
  c < 65536 ->
  unhex4 (hexDigit (c / 4096 mod 16)) (hexDigit (c / 256 mod 16))
         (hexDigit (c / 16 mod 16)) (hexDigit (c mod 16)) = Some c.
Proof.
  intros Hc. unfold unhex4.
  rewrite !unhex_hexDigit by (apply N.mod_lt; discriminate).
  f_equal.
  pose proof (N.div_mod c 16 ltac:(discriminate)) as H0.
  pose proof (N.div_mod (c / 16) 16 ltac:(discriminate)) as H1.
  pose proof (N.div_mod (c / 16 / 16) 16 ltac:(discriminate)) as H2.
  rewrite !N.Div0.div_div in H2. rewrite N.Div0.div_div in H1.
  change (16 * 16) with 256 in *. change (256 * 16) with 4096 in *.
  assert (H3 : c / 4096 < 16) by (apply N.Div0.div_lt_upper_bound; lia).
  rewrite (N.mod_small (c / 4096) 16 H3) in *.
  lia.
Qed.

Lemma parseStringBody_raw (c : N) (tail : jsstring) :
  (c =? 34) = false -> (c =? 92) = false -> (c <? 32) = false ->
  parseStringBody (c :: tail) = consResult c (parseStringBody tail).
Proof. intros H1 H2 H3. simpl. now rewrite H1, H2, H3. Qed.

Lemma parseStringBody_escape (c : N) (tail : jsstring) :
  c < 65536 ->
  parseStringBody (unicodeEscape c ++ tail) = consResult c (parseStringBody tail).
Proof.
  intros Hc. unfold unicodeEscape. cbn [app].
  cbn [parseStringBody]. change (92 =? 34) with false. change (92 =? 92) with true.
  change (117 =? 117) with true. cbv iota.
  now rewrite unhex4_escape.
Qed.

Lemma parseStringBody_quoteUnit (c : N) (tail : jsstring) :
  parseStringBody (quoteUnit c ++ tail) = consResult c (parseStringBody tail).
Proof.
  unfold quoteUnit.
  destruct (c =? 8) eqn:E8; [apply N.eqb_eq in E8; subst; reflexivity|].
  destruct (c =? 9) eqn:E9; [apply N.eqb_eq in E9; subst; reflexivity|].
  destruct (c =? 10) eqn:E10; [apply N.eqb_eq in E10; subst; reflexivity|].
  destruct (c =? 12) eqn:E12; [apply N.eqb_eq in E12; subst; reflexivity|].
  destruct (c =? 13) eqn:E13; [apply N.eqb_eq in E13; subst; reflexivity|].
  destruct (c =? 34) eqn:E34; [apply N.eqb_eq in E34; subst; reflexivity|].
  destruct (c =? 92) eqn:E92; [apply N.eqb_eq in E92; subst; reflexivity|].
  destruct (c <? 32) eqn:E32.
  - cbn [orb]. apply parseStringBody_escape. apply N.ltb_lt in E32. lia.
  - cbn [orb]. destruct (isLeadSurrogate c || isTrailSurrogate c) eqn:Es.
    + apply parseStringBody_escape.
      unfold isLeadSurrogate, isTrailSurrogate in Es.
      apply orb_true_iff in Es as [Es|Es]; apply andb_true_iff in Es as [_ Es];
        apply N.leb_le in Es; lia.
    + cbn [app]. now apply parseStringBody_raw.
Qed.

Lemma surrogate_raw (c : N) :
  isLeadSurrogate c || isTrailSurrogate c = true ->
  (c =? 34) = false /\ (c =? 92) = false /\ (c <? 32) = false.
Proof.
  unfold isLeadSurrogate, isTrailSurrogate. intros H.
  assert (55296 <= c).
  { apply orb_true_iff in H as [H|H]; apply andb_true_iff in H as [H _];
      apply N.leb_le in H; lia. }
  repeat split; [apply N.eqb_neq; lia|apply N.eqb_neq; lia|apply N.ltb_ge; lia].
Qed.

Lemma quoteUnits_two (c d : N) (r : jsstring) :
  quoteUnits (c :: d :: r) =
  if isLeadSurrogate c && isTrailSurrogate d
  then c :: d :: quoteUnits r
  else quoteUnit c ++ quoteUnits (d :: r).
Proof. reflexivity. Qed.

Lemma parseStringBody_quoteUnits_bounded (n : nat) :
  forall (s rest : jsstring), (length s <= n)%nat ->
  parseStringBody (quoteUnits s ++ 34 :: rest) = Some (s, rest).
Proof.
  induction n as [|n IH]; intros s rest Hlen.
  - destruct s; [reflexivity|simpl in Hlen; lia].
  - destruct s as [|c r]; [reflexivity|].
    destruct r as [|d r'].
    + cbn [quoteUnits]. rewrite parseStringBody_quoteUnit. reflexivity.
    + rewrite quoteUnits_two. destruct (isLeadSurrogate c && isTrailSurrogate d) eqn:Ep.
      * apply andb_true_iff in Ep as [Hc Hd].
        destruct (surrogate_raw c) as (C1 & C2 & C3); [now rewrite Hc|].
        destruct (surrogate_raw d) as (D1 & D2 & D3); [now rewrite Hd, orb_true_r|].
        cbn [app]. rewrite parseStringBody_raw by assumption.
        rewrite parseStringBody_raw by assumption.
        rewrite IH by (simpl in Hlen |- *; lia). reflexivity.
      * rewrite <- app_assoc, parseStringBody_quoteUnit.
        rewrite IH by (simpl in Hlen |- *; lia). reflexivity.
Qed.

(** A quoted string reads back as the string. *)
Lemma parseStringBody_quoteUnits (s rest : jsstring) :
  parseStringBody (quoteUnits s ++ 34 :: rest) = Some (s, rest).
Proof. now apply (parseStringBody_quoteUnits_bounded (length s)). Qed.

End LiteralFacts.

(** ** [JSON.parse] after [JSON.stringify] *)

Module RoundTrip.
Import DigitFacts LiteralFacts.

(** Induction on values that reaches into arrays and objects. *)
Section ValueInduction.

Variable P : value -> Prop.
Hypothesis Hnull : P JNull.
Hypothesis Hbool : forall b, P (JBool b).
Hypothesis Hnumber : forall n, P (JNumber n).
Hypothesis Hstring : forall s, P (JString s).
Hypothesis Harray : forall vs, Forall P vs -> P (JArray vs).
Hypothesis Hobject : forall ms, Forall (fun kv => P (snd kv)) ms -> P (JObject ms).

Fixpoint value_nested_ind (v : value) : P v :=
  match v with
  | JNull => Hnull
  | JBool b => Hbool b
  | JNumber n => Hnumber n
  | JString s => Hstring s
  | JArray vs =>
      Harray vs
        (list_ind (Forall P) (Forall_nil P)
           (fun x r rec => Forall_cons x (value_nested_ind x) rec) vs)
  | JObject ms =>
      Hobject ms
        (list_ind (Forall (fun kv => P (snd kv))) (Forall_nil _)
           (fun kv r rec =>
              Forall_cons (P := fun kv => P (snd kv)) kv
                (value_nested_ind (snd kv)) rec) ms)
  end.

End ValueInduction.

Lemma join_one (sep x : jsstring) : join sep [x] = x.
Proof. reflexivity. Qed.

Lemma join_more (sep x y : jsstring) (r : list jsstring) :
  join sep (x :: y :: r) = x ++ sep ++ join sep (y :: r).
Proof. reflexivity. Qed.

Lemma skipSpace_keep (c : N) (r : jsstring) :
  isJsonSpace c = false -> skipSpace (c :: r) = c :: r.
Proof. intros H. cbn [skipSpace]. now rewrite H. Qed.

Lemma parseValue_step (fuel : nat) (c : N) (r : jsstring) :
  isJsonSpace c = false ->
  parseValue (S fuel) (c :: r) =
  if c =? 110 then keyword (lit "ull") JNull r
  else if c =? 116 then keyword (lit "rue") (JBool true) r
  else if c =? 102 then keyword (lit "alse") (JBool false) r
  else if c =? 34 then
    match parseStringBody r with
    | Some (str, rest) => Some (JString str, rest)
    | None => None
    end
  else if c =? 91 then
    match skipSpace r with
    | d :: r' => if d =? 93 then Some (JArray [], r') else parseElements fuel r []
    | [] => None
    end
  else if c =? 123 then
    match skipSpace r with
    | d :: r' => if d =? 125 then Some (JObject [], r') else parseMembers fuel r []
    | [] => None
    end
  else parseNumber (c :: r).
Proof. intros H. cbn [parseValue skipSpace]. rewrite H. reflexivity. Qed.

Lemma parseElements_step (fuel : nat) (s : jsstring) (acc : list value) :
  parseElements (S fuel) s acc =
  match parseValue fuel s with
  | None => None
  | Some (v, r) =>
      match skipSpace r with
      | d :: r' =>
          if d =? 44 then parseElements fuel r' (v :: acc)
          else if d =? 93 then Some (JArray (rev (v :: acc)), r')
          else None
      | [] => None
      end
  end.
Proof. reflexivity. Qed.

Lemma parseMembers_step (fuel : nat) (r : jsstring) (acc : list member) :
  parseMembers (S fuel) (34 :: r) acc =
  match parseStringBody r with
  | None => None
  | Some (k, r1) =>
      match skipSpace r1 with
      | c :: r2 =>
          if c =? 58 then
            match parseValue fuel r2 with
            | None => None
            | Some (v, r3) =>
                match skipSpace r3 with
                | d :: r4 =>
                    if d =? 44 then parseMembers fuel r4 (setProperty k v acc)
                    else if d =? 125 then Some (JObject (setProperty k v acc), r4)
                    else None
                | [] => None
                end
            end
          else None
      | [] => None
      end
  end.
Proof. reflexivity. Qed.

Lemma digit_opens (c : N) : isDigit c = true -> opens c.
Proof.
  unfold isDigit, opens, isJsonSpace. rewrite andb_true_iff, !N.leb_le. intros [H1 H2].
  assert (E : forall k, k < 48 \/ 57 < k -> (c =? k) = false)
    by (intros k Hk; apply N.eqb_neq; lia).
  rewrite !E by lia. auto.
Qed.

Lemma Z_toString_head (m : Z) :
  exists c r, Z_toString m = c :: r /\ (c = 45 \/ isDigit c = true).
Proof.
  unfold Z_toString. destruct (m <? 0)%Z.
  - exists 45, (digits (Z.abs_N m)). auto.
  - destruct (N.eq_dec (Z.abs_N m) 0) as [->|Hn].
    + exists 48, []. auto.
    + destruct (digits_head _ Hn) as (c & r & E & Hc & _).
      exists c, r. rewrite E. auto.
Qed.

Lemma digits_first (n : N) :
  exists c r, digits n = c :: r /\ isDigit c = true.
Proof.
  destruct (N.eq_dec n 0) as [->|Hn].
  - exists 48, []. split; reflexivity.
  - destruct (digits_head n Hn) as (c & r & E & Hc & _). eauto.
Qed.

Lemma formatDecimal_head (c : N) (r : jsstring) (n : Z) :
  isDigit c = true ->
  exists c' r', formatDecimal (c :: r) n = c' :: r' /\ isDigit c' = true.
Proof.
  intros Hc. unfold formatDecimal.
  set (k := Z.of_nat (length (c :: r))).
  destruct ((k <=? n)%Z && (n <=? 21)%Z); [cbn [app]; eauto|].
  destruct ((0 <? n)%Z && (n <=? 21)%Z) eqn:En.
  - apply andb_true_iff in En as [En _]. apply Z.ltb_lt in En.
    destruct (Z.to_nat n) as [|j] eqn:Ej; [lia|]. cbn [firstn app]. eauto.
  - destruct ((-6 <? n)%Z && (n <=? 0)%Z).
    + cbn [app]. exists 48. eexists. split; reflexivity.
    + destruct r; cbn [app]; eauto.
Qed.

Lemma positiveText_head (m : positive) (e : Z) :
  exists c r, positiveText m e = c :: r /\ isDigit c = true.
Proof.
  unfold positiveText. destruct (0 <=? e)%Z; destruct (shortest _ _ _ _ _ _) as [s k];
    (destruct (s =? 10 ^ k)%Z;
     [apply formatDecimal_head; reflexivity
     |destruct (digits_first (Z.to_N s)) as (c & r & -> & Hc);
      now apply formatDecimal_head]).
Qed.

(** The text of a Number in [JSON.stringify] opens with a digit, a minus
    sign, or the [n] of [null]. *)
Lemma numberText_head (n : number) :
  exists c r, numberText n = c :: r /\ (c = 45 \/ isDigit c = true \/ c = 110).
Proof.
  destruct n as [z|neg m e| |neg]; cbn [numberText Number_toString].
  - destruct (Z_toString_head z) as (c & r & E & H). exists c, r. tauto.
  - destruct neg; cbn [app]; [eauto|].
    destruct (positiveText_head m e) as (c & r & E & H). exists c, r. tauto.
  - exists 48, []. split; [reflexivity|]. right; left. reflexivity.
  - exists 110, (lit "ull"). split; [reflexivity|]. tauto.
Qed.

Lemma stringify_head (v : value) :
  exists c r, stringify v = c :: r /\ opens c.
Proof.
  destruct v as [|b|n|s|vs|ms]; cbn [stringify].
  - eexists; eexists; split; [reflexivity|repeat split].
  - destruct b; eexists; eexists; split; try reflexivity; repeat split.
  - destruct (numberText_head n) as (c & r & E & [->|[Hc| ->]]).
    + exists 45, r. split; [assumption|repeat split].
    + exists c, r. split; [assumption|now apply digit_opens].
    + exists 110, r. split; [assumption|repeat split].
  - eexists; eexists; split; [reflexivity|repeat split].
  - eexists; eexists; split; [reflexivity|repeat split].
  - eexists; eexists; split; [reflexivity|repeat split].
Qed.

Lemma parseValue_number (fuel : nat) (c : N) (r : jsstring) :
  c = 45 \/ isDigit c = true ->
  parseValue (S fuel) (c :: r) = parseNumber (c :: r).
Proof.
  intros [->|Hc]; [reflexivity|].
  rewrite parseValue_step by (apply digit_opens; assumption).
  unfold isDigit in Hc. rewrite andb_true_iff, !N.leb_le in Hc.
  assert (E : forall k, k < 48 \/ 57 < k -> (c =? k) = false)
    by (intros k Hk; apply N.eqb_neq; lia).
  rewrite !E by lia. reflexivity.
Qed.

(** *** Property order *)

Lemma hasKey_keys (k : jsstring) (o : list member) :
  hasKey k o = existsb (fun k' => jsstring_eqb k' k) (map fst o).
Proof. unfold hasKey. induction o as [|[k' v'] o IH]; simpl; congruence. Qed.

Lemma insertIndex_last (i : N) (k : jsstring) (v : value) (o : list member) :
  forallb (fun k' => match arrayIndex k' with
                     | Some j => j <? i
                     | None => false
                     end) (map fst o) = true ->
  insertIndex i k v o = o ++ [(k, v)].
Proof.
  induction o as [|[k' v'] o IH]; [reflexivity|].
  cbn [map fst forallb insertIndex app]. rewrite andb_true_iff. intros [H1 H2].
  destruct (arrayIndex k') as [j|]; [|discriminate].
  rewrite H1, (IH H2). reflexivity.
Qed.

Lemma setProperty_fits (k : jsstring) (v : value) (o : list member) :
  keyFits (map fst o) k = true -> setProperty k v o = o ++ [(k, v)].
Proof.
  unfold keyFits, setProperty. rewrite andb_true_iff, negb_true_iff.
  intros [Hnew Hord]. rewrite hasKey_keys, Hnew.
  destruct (arrayIndex k) as [i|]; [|reflexivity].
  now apply insertIndex_last.
Qed.

(** *** The round trip *)

Lemma parseElements_stringify (vs : list value) :
  Forall reads vs -> forallb storable vs = true -> vs <> [] ->
  forall acc fuel rest, (elementsWeight vs <= fuel)%nat ->
  parseElements fuel (join [44] (map stringify vs) ++ 93 :: rest) acc
  = Some (JArray (rev acc ++ vs), rest).
Proof.
  induction vs as [|v vs IH]; [congruence|].
  intros Hall Hst _ acc fuel rest Hfuel.
  inversion Hall as [|? ? Hv Hvs]; subst.
  cbn [forallb] in Hst. apply andb_true_iff in Hst as [Sv Svs].
  cbn [elementsWeight fold_right] in Hfuel. fold (elementsWeight vs) in Hfuel.
  destruct fuel as [|fuel]; [lia|].
  rewrite parseElements_step.
  destruct vs as [|v2 vs].
  - cbn [map]. rewrite join_one.
    rewrite (Hv Sv fuel (93 :: rest)) by (reflexivity || lia).
    reflexivity.
  - cbn [map]. rewrite join_more. rewrite <- !app_assoc.
    rewrite (Hv Sv fuel) by (reflexivity || lia).
    cbn [app]. rewrite skipSpace_keep by reflexivity.
    change (44 =? 44) with true. cbv iota.
    change (stringify v2 :: map stringify vs) with (map stringify (v2 :: vs)).
    rewrite IH by (assumption || discriminate || lia).
    cbn [rev]. rewrite <- app_assoc. reflexivity.
Qed.

Lemma parseMembers_stringify (ms : list member) :
  Forall (fun kv => reads (snd kv)) ms ->
  forallb (fun kv => storable (snd kv)) ms = true -> ms <> [] ->
  forall acc fuel rest,
  keysOrdered (map fst acc) (map fst ms) = true ->
  (membersWeight ms <= fuel)%nat ->
  parseMembers fuel (join [44] (map memberText ms) ++ 125 :: rest) acc
  = Some (JObject (acc ++ ms), rest).
Proof.
  induction ms as [|[k v] ms IH]; [congruence|].
  intros Hall Hst _ acc fuel rest Hkeys Hfuel.
  inversion Hall as [|? ? Hv Hvs]; subst. cbn [snd] in Hv.
  cbn [forallb snd] in Hst. apply andb_true_iff in Hst as [Sv Svs].
  cbn [membersWeight fold_right snd] in Hfuel. fold (membersWeight ms) in Hfuel.
  cbn [map fst keysOrdered] in Hkeys. apply andb_true_iff in Hkeys as [Hk Hks].
  destruct fuel as [|fuel]; [lia|].
  destruct ms as [|kv2 ms].
  - cbn [map]. rewrite join_one. unfold memberText, quote. cbn [fst snd].
    cbn [app]. rewrite <- !app_assoc. cbn [app].
    rewrite parseMembers_step, parseStringBody_quoteUnits.
    rewrite skipSpace_keep by reflexivity.
    change (58 =? 58) with true. cbv iota.
    rewrite (Hv Sv fuel (125 :: rest)) by (reflexivity || lia).
    cbn. rewrite (setProperty_fits k v acc Hk). reflexivity.
  - cbn [map]. rewrite join_more. unfold memberText at 1, quote. cbn [fst snd].
    cbn [app]. rewrite <- !app_assoc. cbn [app].
    rewrite parseMembers_step, parseStringBody_quoteUnits.
    rewrite skipSpace_keep by reflexivity.
    change (58 =? 58) with true. cbv iota.
    rewrite (Hv Sv fuel) by (reflexivity || lia).
    cbn [app]. rewrite skipSpace_keep by reflexivity.
    change (44 =? 44) with true. cbv iota.
    change (memberText kv2 :: map memberText ms) with (map memberText (kv2 :: ms)).
    rewrite (setProperty_fits k v acc Hk).
    rewrite IH; try assumption; try discriminate; try lia.
    + rewrite <- app_assoc. reflexivity.
    + rewrite map_app. exact Hks.
Qed.

Lemma parseValue_stringify (v : value) : reads v.
Proof.
  induction v as [|b|n|s|vs IH|ms IH] using value_nested_ind;
    intros Hst fuel rest Hfuel Hrest;
    (destruct fuel as [|fuel]; [cbn in Hfuel; lia|]).
  - reflexivity.
  - destruct b; reflexivity.
  - destruct n as [m|neg m e| |neg]; try discriminate Hst. cbn [storable] in Hst.
    cbn [stringify numberText Number_toString].
    destruct (Z_toString_head m) as (c & r & E & Hc).
    rewrite E. cbn [app]. rewrite parseValue_number by assumption.
    change (c :: r ++ rest) with ((c :: r) ++ rest). rewrite <- E.
    now apply parseNumber_integer.
  - cbn [stringify]. unfold quote. cbn [app]. rewrite <- app_assoc. cbn [app].
    rewrite parseValue_step by reflexivity. cbn.
    now rewrite parseStringBody_quoteUnits.
  - cbn [stringify]. cbn [app]. rewrite <- app_assoc. cbn [app].
    rewrite parseValue_step by reflexivity.
    change (91 =? 110) with false. change (91 =? 116) with false.
    change (91 =? 102) with false. change (91 =? 34) with false.
    change (91 =? 91) with true. cbv iota.
    destruct vs as [|v vs]; [reflexivity|].
    destruct (stringify_head v) as (c & r & E & Hsp & H93 & _).
    assert (Hskip : skipSpace (join [44] (map stringify (v :: vs)) ++ 93 :: rest)
                    = join [44] (map stringify (v :: vs)) ++ 93 :: rest
                    /\ exists t, join [44] (map stringify (v :: vs)) ++ 93 :: rest = c :: t).
    { destruct vs; cbn [map]; [rewrite join_one|rewrite join_more];
        rewrite E; cbn [app skipSpace]; rewrite Hsp; eauto. }
    destruct Hskip as [Hskip (t & Et)]. rewrite Hskip, Et, H93, <- Et.
    cbn [weight] in Hfuel. fold (elementsWeight (v :: vs)) in Hfuel.
    rewrite parseElements_stringify; try assumption; try discriminate; try lia.
    reflexivity.
  - change (stringify (JObject ms))
      with ([123] ++ join [44] (map memberText ms) ++ [125]).
    cbn [app]. rewrite <- app_assoc. cbn [app].
    rewrite parseValue_step by reflexivity.
    change (123 =? 110) with false. change (123 =? 116) with false.
    change (123 =? 102) with false. change (123 =? 34) with false.
    change (123 =? 91) with false. change (123 =? 123) with true. cbv iota.
    destruct ms as [|kv ms]; [reflexivity|].
    cbn [storable] in Hst. apply andb_true_iff in Hst as [Hkeys Hst].
    assert (Et : exists t, join [44] (map memberText (kv :: ms)) ++ 125 :: rest = 34 :: t).
    { destruct ms; cbn [map]; [rewrite join_one|rewrite join_more];
        unfold memberText at 1, quote; cbn [app]; eauto. }
    destruct Et as (t & Et). rewrite Et. rewrite skipSpace_keep by reflexivity.
    change (34 =? 125) with false. cbv iota. rewrite <- Et.
    cbn [weight] in Hfuel. fold (membersWeight (kv :: ms)) in Hfuel.
    rewrite parseMembers_stringify; try assumption; try discriminate; try lia.
    reflexivity.
Qed.

End RoundTrip.

(** ** Stored histories *)

Module StoredFacts.
Import DigitFacts LiteralFacts RoundTrip.

Lemma elementsWeight_length (vs : list value) :
  Forall (fun v => (weight v <= length (stringify v))%nat) vs ->
  (elementsWeight vs <= length (join [44%N] (map stringify vs)) + 1)%nat.
Proof.
  induction vs as [|v vs IH]; intros H; [cbn; lia|].
  inversion H as [|? ? Hv Hvs]; subst. specialize (IH Hvs).
  cbn [elementsWeight fold_right]. fold (elementsWeight vs).
  destruct vs as [|v2 vs]; cbn [map].
  - rewrite join_one. cbn [elementsWeight membersWeight fold_right] in *. lia.
  - rewrite join_more. rewrite !length_app. cbn [map length] in *. lia.
Qed.

Lemma membersWeight_length (ms : list member) :
  Forall (fun kv => (weight (snd kv) <= length (stringify (snd kv)))%nat) ms ->
  (membersWeight ms <= length (join [44%N] (map memberText ms)) + 1)%nat.
Proof.
  induction ms as [|kv ms IH]; intros H; [cbn; lia|].
  inversion H as [|? ? Hv Hvs]; subst. specialize (IH Hvs).
  cbn [membersWeight fold_right]. fold (membersWeight ms).
  assert (Hm : (length (stringify (snd kv)) <= length (memberText kv))%nat).
  { unfold memberText. rewrite !length_app. lia. }
  destruct ms as [|kv2 ms]; cbn [map].
  - rewrite join_one. cbn [elementsWeight membersWeight fold_right] in *. lia.
  - rewrite join_more. rewrite !length_app. cbn [map length] in *. lia.
Qed.

(** The length of a text is fuel enough to read it back. *)
Lemma weight_length (v : value) : (weight v <= length (stringify v))%nat.
Proof.
  induction v as [|b|n|s|vs IH|ms IH] using value_nested_ind; cbn [weight].
  - cbn. lia.
  - destruct b; cbn; lia.
  - destruct (stringify_head (JNumber n)) as (c & r & E & _). rewrite E. cbn. lia.
  - cbn [stringify]. unfold quote. cbn [length]. lia.
  - cbn [stringify]. rewrite !length_app. cbn [length].
    pose proof (elementsWeight_length vs IH). fold (elementsWeight vs). lia.
  - change (stringify (JObject ms))
      with ([123] ++ join [44] (map memberText ms) ++ [125]).
    rewrite !length_app. cbn [length].
    pose proof (membersWeight_length ms IH). fold (membersWeight ms). lia.
Qed.

(** [JSON.parse(JSON.stringify(v))] is [v] again. *)
Lemma JSON_parse_stringify (v : value) :
  storable v = true -> JSON_parse (JSON_stringify v) = Some v.
Proof.
  intros Hst. unfold JSON_parse, JSON_stringify.
  pose proof (parseValue_stringify v Hst (S (length (stringify v))) []) as H.
  rewrite List.app_nil_r in H. rewrite H.
  - reflexivity.
  - pose proof (weight_length v). lia.
  - reflexivity.
Qed.

Lemma storable_strings (l : list jsstring) : storable (strings l) = true.
Proof. unfold strings. cbn [storable]. induction l; cbn; auto. Qed.

Lemma storable_Mcq (q : Mcq) : storable (value_of_Mcq q) = true.
Proof.
  unfold value_of_Mcq. cbn [storable map fst snd forallb].
  rewrite storable_strings. reflexivity.
Qed.

Lemma storable_ShortAnswer (q : ShortAnswer) : storable (value_of_ShortAnswer q) = true.
Proof. reflexivity. Qed.

Lemma storable_ExamStyle (q : ExamStyle) : storable (value_of_ExamStyle q) = true.
Proof. reflexivity. Qed.

Lemma storable_StudyQuestions (q : StudyQuestions) :
  storable (value_of_StudyQuestions q) = true.
Proof.
  unfold value_of_StudyQuestions. cbn [storable map fst snd forallb].
  rewrite storable_ExamStyle.
  assert (H1 : forallb storable (map value_of_Mcq (mcqs q)) = true).
  { induction (mcqs q) as [|x l IH]; [reflexivity|].
    cbn [map forallb]. now rewrite storable_Mcq, IH. }
  assert (H2 : forallb storable (map value_of_ShortAnswer (shortAnswers q)) = true).
  { induction (shortAnswers q) as [|x l IH]; [reflexivity|].
    cbn [map forallb]. now rewrite storable_ShortAnswer, IH. }
  rewrite H1, H2. reflexivity.
Qed.

(** The object of a typed [StudyNotes] is storable. *)
Lemma storable_StudyNotes (n : StudyNotes) : storable (value_of_StudyNotes n) = true.
Proof.
  unfold value_of_StudyNotes. cbn [storable map fst snd forallb].
  rewrite !storable_strings, storable_StudyQuestions. reflexivity.
Qed.

Lemma storable_item (it : NoteHistoryItem) :
  storableItem it = true -> storable (value_of_item it) = true.
Proof.
  unfold storableItem. intros H. apply andb_true_iff in H as [Ht Hn].
  unfold value_of_item. cbn [storable map fst snd forallb].
  rewrite Hn. destruct (timestamp it); try discriminate Ht. rewrite Ht. reflexivity.
Qed.

Lemma storable_history (h : list NoteHistoryItem) :
  Forall (fun it => storableItem it = true) h ->
  storable (value_of_history h) = true.
Proof.
  unfold value_of_history. cbn [storable].
  induction 1 as [|it h Hit _ IH]; [reflexivity|].
  cbn [map forallb]. now rewrite storable_item, IH.
Qed.

Lemma item_of_value_of_item (it : NoteHistoryItem) :
  item_of_value (value_of_item it) = Some it.
Proof. destruct it. reflexivity. Qed.

Lemma history_of_value_of_history (h : list NoteHistoryItem) :
  history_of_value (value_of_history h) = Some h.
Proof.
  unfold value_of_history. cbn [history_of_value].
  induction h as [|it h IH]; [reflexivity|].
  cbn [map items_of_values]. now rewrite item_of_value_of_item, IH.
Qed.

Lemma conforms_object (props : list (jsstring * Schema)) (req : list jsstring)
    (ms : list member) :
  conforms (OBJECT props req) (JObject ms)
  = forallb (fun k => hasKey k ms) req
    && forallb (fun kp => match getProperty (fst kp) ms with
                          | Some x => conforms (snd kp) x
                          | None => true
                          end) props.
Proof. reflexivity. Qed.

Lemma conforms_array (it : Schema) (vs : list value) :
  conforms (ARRAY it) (JArray vs) = forallb (conforms it) vs.
Proof. reflexivity. Qed.

Lemma jsstring_eqb_refl (k : jsstring) : jsstring_eqb k k = true.
Proof. unfold jsstring_eqb. now destruct (list_eq_dec N.eq_dec k k). Qed.

Lemma hasKey_here (k : jsstring) (v : value) (r : list member) :
  hasKey k ((k, v) :: r) = true.
Proof. unfold hasKey. cbn [existsb fst]. now rewrite jsstring_eqb_refl. Qed.

Lemma hasKey_there (k k' : jsstring) (v : value) (r : list member) :
  jsstring_eqb k' k = false -> hasKey k ((k', v) :: r) = hasKey k r.
Proof. intros H. unfold hasKey. cbn [existsb fst]. now rewrite H. Qed.

Lemma getProperty_here (k : jsstring) (v : value) (r : list member) :
  getProperty k ((k, v) :: r) = Some v.
Proof. cbn [getProperty]. now rewrite jsstring_eqb_refl. Qed.

Lemma getProperty_there (k k' : jsstring) (v : value) (r : list member) :
  jsstring_eqb k' k = false -> getProperty k ((k', v) :: r) = getProperty k r.
Proof. intros H. cbn [getProperty]. now rewrite H. Qed.

Ltac find_property :=
  repeat first
    [ rewrite hasKey_here
    | rewrite getProperty_here
    | rewrite hasKey_there by reflexivity
    | rewrite getProperty_there by reflexivity ].

Lemma hasKey_getProperty (k : jsstring) (ms : list member) :
  hasKey k ms = true -> exists x, getProperty k ms = Some x.
Proof.
  unfold hasKey. induction ms as [|[k' v] ms IH]; cbn [existsb getProperty fst];
    [discriminate|].
  destruct (jsstring_eqb k' k); [eauto|exact IH].
Qed.

Lemma required_property (props : list (jsstring * Schema)) (req : list jsstring)
    (ms : list member) (k : jsstring) (sc : Schema) :
  conforms (OBJECT props req) (JObject ms) = true ->
  In k req -> In (k, sc) props ->
  exists x, getProperty k ms = Some x /\ conforms sc x = true.
Proof.
  rewrite conforms_object, andb_true_iff, !forallb_forall. intros [Hreq Hprops] Hk Hsc.
  destruct (hasKey_getProperty k ms (Hreq k Hk)) as (x & Hx).
  exists x. split; [exact Hx|].
  specialize (Hprops (k, sc) Hsc). cbn [fst snd] in Hprops. now rewrite Hx in Hprops.
Qed.

Lemma conforming_object (props : list (jsstring * Schema)) (req : list jsstring)
    (x : value) :
  conforms (OBJECT props req) x = true -> exists ms, x = JObject ms.
Proof. destruct x; try discriminate. eauto. Qed.

Ltac required H k :=
  let x := fresh "x" in
  let Hx := fresh "Hx" in
  let Hc := fresh "Hc" in
  destruct (required_property _ _ _ k _ H ltac:(cbn [In]; tauto) ltac:(cbn [In]; tauto))
    as (x & Hx & Hc);
  rewrite Hx.

Lemma conforms_strings (l : list jsstring) : conforms (ARRAY STRING) (strings l) = true.
Proof. unfold strings. rewrite conforms_array. induction l; cbn; auto. Qed.

Lemma conforms_all {A} (sc : Schema) (f : A -> value) (l : list A) :
  (forall x, conforms sc (f x) = true) ->
  conforms (ARRAY sc) (JArray (map f l)) = true.
Proof.
  intros H. rewrite conforms_array.
  induction l as [|x l IH]; [reflexivity|]. cbn [map forallb]. now rewrite H, IH.
Qed.

(** The object of a typed [StudyNotes] has the shape of [responseSchema]. *)
Lemma conforms_StudyNotes (n : StudyNotes) :
  conforms responseSchema (value_of_StudyNotes n) = true.
Proof.
  unfold responseSchema, value_of_StudyNotes, value_of_StudyQuestions.
  rewrite conforms_object. cbn [forallb fst snd]. find_property.
  rewrite !conforms_strings.
  rewrite conforms_object. cbn [forallb fst snd]. find_property.
  rewrite !conforms_all; [reflexivity| |].
  - intros q. unfold value_of_ShortAnswer.
    rewrite conforms_object. cbn [forallb fst snd]. find_property. reflexivity.
  - intros q. unfold value_of_Mcq.
    rewrite conforms_object. cbn [forallb fst snd]. find_property.
    rewrite conforms_strings. reflexivity.
Qed.

End StoredFacts.

(** ** The fuel of [parseValue] *)

Module FuelFacts.
Import RoundTrip.

Lemma skipSpace_length (s : jsstring) : (length (skipSpace s) <= length s)%nat.
Proof.
  induction s as [|c s IH]; cbn [skipSpace]; [lia|].
  destruct (isJsonSpace c); cbn [length]; lia.
Qed.

Lemma expect_length (w s rest : jsstring) :
  expect w s = Some rest -> (length rest <= length s)%nat.
Proof.
  revert s. induction w as [|c w IH]; intros s H; cbn [expect] in H.
  - injection H as <-. lia.
  - destruct s as [|d s]; [discriminate|]. destruct (d =? c); [|discriminate].
    apply IH in H. cbn [length]. lia.
Qed.

Lemma keyword_length (w : jsstring) (v v' : value) (s rest : jsstring) :
  keyword w v s = Some (v', rest) -> (length rest <= length s)%nat.
Proof.
  unfold keyword. destruct (expect w s) eqn:E; [|discriminate].
  intros H. injection H as _ <-. now apply expect_length in E.
Qed.

Lemma consResult_some (c : N) (x : option (jsstring * jsstring))
    (str rest : jsstring) :
  consResult c x = Some (str, rest) -> exists str', x = Some (str', rest).
Proof.
  destruct x as [[str' rest']|]; cbn; [|discriminate].
  intros H. injection H as _ <-. eauto.
Qed.

Lemma parseStringBody_length_bounded (n : nat) :
  forall s str rest, (length s <= n)%nat ->
  parseStringBody s = Some (str, rest) -> (length rest < length s)%nat.
Proof.
  induction n as [|n IH]; intros s str rest Hn H.
  - destruct s; [discriminate|cbn in Hn; lia].
  - destruct s as [|c r]; [discriminate|]. cbn [parseStringBody] in H.
    cbn [length] in *.
    destruct (c =? 34); [injection H as _ <-; lia|].
    destruct (c =? 92).
    + destruct r as [|x r1]; [discriminate|]. cbn [length] in *.
      destruct (x =? 117).
      * destruct r1 as [|a [|b [|c' [|d r2]]]]; try discriminate.
        destruct (unhex4 a b c' d); [|discriminate].
        apply consResult_some in H as (str' & H).
        apply IH in H; cbn [length] in *; lia.
      * destruct (unescape x); [|discriminate].
        apply consResult_some in H as (str' & H).
        apply IH in H; lia.
    + destruct (c <? 32); [discriminate|].
      apply consResult_some in H as (str' & H).
      apply IH in H; lia.
Qed.

Lemma parseStringBody_length (s str rest : jsstring) :
  parseStringBody s = Some (str, rest) -> (length rest < length s)%nat.
Proof. now apply (parseStringBody_length_bounded (length s)). Qed.

Lemma spanDigits_length (s : jsstring) :
  (length (snd (spanDigits s)) <= length s)%nat.
Proof.
  induction s as [|c s IH]; cbn [spanDigits]; [cbn; lia|].
  destruct (isDigit c); [|cbn; lia].
  destruct (spanDigits s) as [d rest]. cbn [snd length] in *. lia.
Qed.

Lemma parseNumber_length (s : jsstring) (v : value) (rest : jsstring) :
  parseNumber s = Some (v, rest) -> (length rest < length s)%nat.
Proof.
  unfold parseNumber.
  set (p := match s with
            | [] => (false, [])
            | c :: r => if c =? 45 then (true, r) else (false, s)
            end).
  assert (Hp : (length (snd p) <= length s)%nat).
  { subst p. destruct s as [|c r]; [cbn; lia|]. destruct (c =? 45); cbn; lia. }
  destruct p as [neg s1]. cbn [snd] in Hp.
  destruct (parseIntPart s1) as [[i s2]|] eqn:Ei; [|discriminate].
  assert (H2 : (length s2 < length s1)%nat).
  { unfold parseIntPart in Ei. destruct s1 as [|c r]; [discriminate|].
    destruct (c =? 48); [injection Ei as _ <-; cbn; lia|].
    destruct (isDigit c) eqn:Ec; [|discriminate].
    injection Ei as Ei. pose proof (spanDigits_length (c :: r)) as Hs.
    cbn [spanDigits] in Ei, Hs. rewrite Ec in Ei, Hs.
    pose proof (spanDigits_length r) as Hr.
    destruct (spanDigits r) as [d rest']. cbn [snd] in *.
    injection Ei as _ <-. cbn [length]. lia. }
  destruct (parseFraction s2) as [[f s3]|] eqn:Ef; [|discriminate].
  assert (H3 : (length s3 <= length s2)%nat).
  { unfold parseFraction in Ef. destruct s2 as [|c r]; [injection Ef as _ <-; lia|].
    destruct (c =? 46).
    - pose proof (spanDigits_length r) as Hr.
      destruct (spanDigits r) as [[|d0 d] rest']; [discriminate|].
      injection Ef as _ <-. cbn [snd length] in *. lia.
    - injection Ef as _ <-. lia. }
  destruct (parseExponent s3) as [[x s4]|] eqn:Ex; [|discriminate].
  assert (H4 : (length s4 <= length s3)%nat).
  { unfold parseExponent in Ex. destruct s3 as [|c r]; [injection Ex as _ <-; lia|].
    destruct ((c =? 101) || (c =? 69)).
    - assert (Hs : (length (snd (parseSign r)) <= length r)%nat).
      { unfold parseSign. destruct r as [|y r']; [cbn; lia|].
        destruct (y =? 45); [cbn; lia|]. destruct (y =? 43); cbn; lia. }
      destruct (parseSign r) as [sg r1]. cbn [snd] in Hs.
      pose proof (spanDigits_length r1) as Hr.
      destruct (spanDigits r1) as [[|d0 d] rest']; [discriminate|].
      injection Ex as _ <-. cbn [snd length] in *. lia.
    - injection Ex as _ <-. lia. }
  intros H. injection H as _ <-. lia.
Qed.

Lemma parseValue_unfold (fuel : nat) (s : jsstring) :
  parseValue (S fuel) s =
  match skipSpace s with
  | [] => None
  | c :: r =>
      if c =? 110 then keyword (lit "ull") JNull r
      else if c =? 116 then keyword (lit "rue") (JBool true) r
      else if c =? 102 then keyword (lit "alse") (JBool false) r
      else if c =? 34 then
        match parseStringBody r with
        | Some (str, rest) => Some (JString str, rest)
        | None => None
        end
      else if c =? 91 then
        match skipSpace r with
        | d :: r' => if d =? 93 then Some (JArray [], r') else parseElements fuel r []
        | [] => None
        end
      else if c =? 123 then
        match skipSpace r with
        | d :: r' => if d =? 125 then Some (JObject [], r') else parseMembers fuel r []
        | [] => None
        end
      else parseNumber (c :: r)
  end.
Proof. reflexivity. Qed.

Lemma parseMembers_unfold (fuel : nat) (s : jsstring) (acc : list member) :
  parseMembers (S fuel) s acc =
  match skipSpace s with
  | q :: r =>
      if q =? 34 then
        match parseStringBody r with
        | None => None
        | Some (k, r1) =>
            match skipSpace r1 with
            | c :: r2 =>
                if c =? 58 then
                  match parseValue fuel r2 with
                  | None => None
                  | Some (v, r3) =>
                      match skipSpace r3 with
                      | d :: r4 =>
                          if d =? 44 then parseMembers fuel r4 (setProperty k v acc)
                          else if d =? 125 then Some (JObject (setProperty k v acc), r4)
                          else None
                      | [] => None
                      end
                  end
                else None
            | [] => None
            end
        end
      else None
  | [] => None
  end.
Proof. reflexivity. Qed.

(** A parse that succeeds with some fuel consumes text, and succeeds with
    any fuel that is at least the number of characters consumed. *)
Definition enough {A} (parse : nat -> jsstring -> A -> option (value * jsstring))
    (n : nat) : Prop :=
  forall s acc v rest,
    parse n s acc = Some (v, rest) ->
    (length rest < length s)%nat
    /\ forall m, (length s - length rest <= m)%nat -> parse m s acc = Some (v, rest).

Lemma fuel_enough (n : nat) :
  enough (fun n s (_ : unit) => parseValue n s) n
  /\ enough parseElements n
  /\ enough parseMembers n.
Proof.
  induction n as [|n (IHv & IHe & IHm)]; [repeat split; discriminate|].
  assert (Hv : enough (fun n s (_ : unit) => parseValue n s) (S n)).
  { intros s [] v rest. rewrite parseValue_unfold.
    pose proof (skipSpace_length s) as Hs.
    destruct (skipSpace s) as [|c r] eqn:Es; [discriminate|]. cbn [length] in Hs.
    intros H.
    assert (Hm : forall m, (length s - length rest <= m)%nat ->
                 (length rest < length s)%nat -> exists k, m = S k).
    { intros m Hle Hlt. destruct m; [lia|eauto]. }
    destruct (c =? 110) eqn:E1.
    { pose proof (keyword_length _ _ _ _ _ H). split; [lia|].
      intros m Hle. destruct (Hm m Hle ltac:(lia)) as [k ->].
      rewrite parseValue_unfold, Es, E1. exact H. }
    destruct (c =? 116) eqn:E2.
    { pose proof (keyword_length _ _ _ _ _ H). split; [lia|].
      intros m Hle. destruct (Hm m Hle ltac:(lia)) as [k ->].
      rewrite parseValue_unfold, Es, E1, E2. exact H. }
    destruct (c =? 102) eqn:E3.
    { pose proof (keyword_length _ _ _ _ _ H). split; [lia|].
      intros m Hle. destruct (Hm m Hle ltac:(lia)) as [k ->].
      rewrite parseValue_unfold, Es, E1, E2, E3. exact H. }
    destruct (c =? 34) eqn:E4.
    { destruct (parseStringBody r) as [[str r']|] eqn:Ep; [|discriminate].
      pose proof (parseStringBody_length _ _ _ Ep). injection H as <- <-.
      split; [lia|].
      intros m Hle. destruct (Hm m Hle ltac:(lia)) as [k ->].
      rewrite parseValue_unfold, Es, E1, E2, E3, E4, Ep. reflexivity. }
    destruct (c =? 91) eqn:E5.
    { pose proof (skipSpace_length r) as Hr.
      destruct (skipSpace r) as [|d r'] eqn:Er; [discriminate|]. cbn [length] in Hr.
      destruct (d =? 93) eqn:Ed.
      - injection H as <- <-. split; [lia|].
        intros m Hle. destruct (Hm m Hle ltac:(lia)) as [k ->].
        rewrite parseValue_unfold, Es, E1, E2, E3, E4, E5, Er, Ed. reflexivity.
      - destruct (IHe _ _ _ _ H) as [Hlt Hall]. split; [lia|].
        intros m Hle. destruct (Hm m Hle ltac:(lia)) as [k ->].
        rewrite parseValue_unfold, Es, E1, E2, E3, E4, E5, Er, Ed.
        apply Hall. lia. }
    destruct (c =? 123) eqn:E6.
    { pose proof (skipSpace_length r) as Hr.
      destruct (skipSpace r) as [|d r'] eqn:Er; [discriminate|]. cbn [length] in Hr.
      destruct (d =? 125) eqn:Ed.
      - injection H as <- <-. split; [lia|].
        intros m Hle. destruct (Hm m Hle ltac:(lia)) as [k ->].
        rewrite parseValue_unfold, Es, E1, E2, E3, E4, E5, E6, Er, Ed. reflexivity.
      - destruct (IHm _ _ _ _ H) as [Hlt Hall]. split; [lia|].
        intros m Hle. destruct (Hm m Hle ltac:(lia)) as [k ->].
        rewrite parseValue_unfold, Es, E1, E2, E3, E4, E5, E6, Er, Ed.
        apply Hall. lia. }
    pose proof (parseNumber_length _ _ _ H) as Hn. cbn [length] in Hn.
    split; [lia|].
    intros m Hle. destruct (Hm m Hle ltac:(lia)) as [k ->].
    rewrite parseValue_unfold, Es, E1, E2, E3, E4, E5, E6. exact H. }
  split; [exact Hv|]. split.
  - intros s acc v rest. rewrite parseElements_step.
    destruct (parseValue n s) as [[v1 r1]|] eqn:E1; [|discriminate].
    destruct (IHv s tt v1 r1 E1) as [Hlt1 Hall1].
    pose proof (skipSpace_length r1) as Hr.
    destruct (skipSpace r1) as [|d r2] eqn:Er; [discriminate|]. cbn [length] in Hr.
    destruct (d =? 44) eqn:Ed.
    + intros H. destruct (IHe _ _ _ _ H) as [Hlt2 Hall2]. split; [lia|].
      intros m Hle. destruct m as [|k]; [lia|].
      rewrite parseElements_step, (Hall1 k) by lia. rewrite Er, Ed.
      apply Hall2. lia.
    + destruct (d =? 93) eqn:Ed'; [|discriminate].
      intros H. injection H as <- <-. split; [lia|].
      intros m Hle. destruct m as [|k]; [lia|].
      rewrite parseElements_step, (Hall1 k) by lia. rewrite Er, Ed, Ed'. reflexivity.
  - intros s acc v rest. rewrite parseMembers_unfold.
    pose proof (skipSpace_length s) as Hs.
    destruct (skipSpace s) as [|q r] eqn:Es; [discriminate|]. cbn [length] in Hs.
    destruct (q =? 34) eqn:Eq; [|discriminate].
    destruct (parseStringBody r) as [[k r1]|] eqn:Ek; [|discriminate].
    pose proof (parseStringBody_length _ _ _ Ek) as Hk.
    pose proof (skipSpace_length r1) as Hr1.
    destruct (skipSpace r1) as [|c r2] eqn:Er1; [discriminate|]. cbn [length] in Hr1.
    destruct (c =? 58) eqn:Ec; [|discriminate].
    destruct (parseValue n r2) as [[v1 r3]|] eqn:E1; [|discriminate].
    destruct (IHv r2 tt v1 r3 E1) as [Hlt1 Hall1].
    pose proof (skipSpace_length r3) as Hr3.
    destruct (skipSpace r3) as [|d r4] eqn:Er3; [discriminate|]. cbn [length] in Hr3.
    destruct (d =? 44) eqn:Ed.
    + intros H. destruct (IHm _ _ _ _ H) as [Hlt2 Hall2]. split; [lia|].
      intros m Hle. destruct m as [|j]; [lia|].
      rewrite parseMembers_unfold, Es, Eq, Ek, Er1, Ec, (Hall1 j) by lia.
      rewrite Er3, Ed. apply Hall2. lia.
    + destruct (d =? 125) eqn:Ed'; [|discriminate].
      intros H. injection H as <- <-. split; [lia|].
      intros m Hle. destruct m as [|j]; [lia|].
      rewrite parseMembers_unfold, Es, Eq, Ek, Er1, Ec, (Hall1 j) by lia.
      rewrite Er3, Ed, Ed'. reflexivity.
Qed.

(** The fuel [JSON_parse] takes is as good as any: a text that some fuel
    parses is parsed by [JSON_parse], to the same value. *)
Lemma JSON_parse_any_fuel (n : nat) (text : jsstring) (v : value) (rest : jsstring) :
  parseValue n text = Some (v, rest) -> skipSpace rest = [] ->
  JSON_parse text = Some v.
Proof.
  intros H Hrest. destruct (fuel_enough n) as (Hv & _ & _).
  destruct (Hv text tt v rest H) as [_ Hall].
  unfold JSON_parse. rewrite (Hall (S (length text))) by lia.
  now rewrite Hrest.
Qed.

End FuelFacts.

(** ** The handlers *)

Module AppFacts.
Import DigitFacts LiteralFacts RoundTrip StoredFacts.

Lemma trimStart_blank (s : jsstring) :
  trimStart s = [] <-> forallb isWhiteSpace s = true.
Proof.
  induction s as [|c s IH]; cbn [trimStart forallb]; [tauto|].
  destruct (isWhiteSpace c); cbn [andb]; [exact IH|].
  split; discriminate.
Qed.

(** [s.trim()] is empty exactly when [s] holds white space only. *)
Lemma trim_blank (s : jsstring) :
  trim s = [] <-> forallb isWhiteSpace s = true.
Proof.
  unfold trim, trimEnd. split.
  - intros H. apply trimStart_blank.
    destruct (trimStart s) as [|c r] eqn:E; [reflexivity|].
    exfalso. cbn [rev] in H.
    assert (Hall : forallb isWhiteSpace (rev r ++ [c]) = true).
    { apply trimStart_blank. apply (f_equal (@rev N)) in H.
      rewrite rev_involutive in H. exact H. }
    rewrite forallb_app in Hall. apply andb_true_iff in Hall as [_ Hc].
    cbn in Hc. rewrite andb_true_r in Hc.
    destruct s as [|c' s']; [discriminate|].
    cbn [trimStart] in E. destruct (isWhiteSpace c') eqn:E'.
    + clear -E Hc. induction s' as [|x s' IH]; [discriminate|].
      cbn [trimStart] in E. destruct (isWhiteSpace x) eqn:Ex; [auto|].
      injection E as -> _. congruence.
    + injection E as -> _. congruence.
  - intros H. apply trimStart_blank in H. now rewrite H.
Qed.

Lemma skipn_trace (t l : list action) : skipn (length t) (t ++ l) = l.
Proof. induction t; [reflexivity|assumption]. Qed.

Lemma getItem_setItem (key data : jsstring) (st : Storage) :
  getItem key (setItem key data st) = Some data.
Proof.
  induction st as [|[k d] st IH]; cbn [setItem getItem].
  - now rewrite jsstring_eqb_refl.
  - destruct (jsstring_eqb k key) eqn:E; cbn [getItem]; rewrite E; auto.
Qed.

Lemma emitAll_trace (l : list action) (w : World) :
  emitAll l w = (tt, {| ui := ui w; storage := storage w; trace := trace w ++ l |}).
Proof.
  revert w. induction l as [|x l IH]; intros w.
  - cbn. rewrite List.app_nil_r. now destruct w.
  - cbn [emitAll]. unfold bind, emit. rewrite IH. cbn [ui storage trace].
    now rewrite <- app_assoc.
Qed.

Lemma generate_calls (content : jsstring) (r : reply) :
  existsb isSetHistory (fst (generateStudyNotes content r)) = false.
Proof.
  unfold generateStudyNotes. destruct r as [e|txt]; [reflexivity|].
  now destruct (JSON_parse (ToString txt)).
Qed.

Ltac run_handler :=
  unfold dispatch, handle, handleSubmit, handleFileUpload, uploadTry, submitTry,
    callGenerate, selectItem, triggerFilePicker, persist, writeStorage,
    setInputText, setLoading, setError, setNotes, setShowUploadMenu,
    setCurrentFileType, setHistory, modify, render, emit, exec, bind, ret.

Ltac step :=
  cbn -[historyReplaced generateStudyNotes extractText trim truthy record
        JSON_stringify value_of_history lit].

Ltac effects_due :=
  unfold historyReplaced; cbn [trace];
  rewrite <- ?app_assoc; rewrite skipn_trace;
  rewrite ?existsb_app; cbn [existsb isSetHistory orb app].

(** *** [handleSubmit] *)

Lemma submit_blank (w : World) (a : Answers) :
  trim (inputText (ui w)) = [] ->
  dispatch (Submit a) w =
  {| ui := ui w; storage := storage w; trace := trace w ++ [PreventDefault] |}.
Proof.
  intros H. run_handler. step. rewrite H. cbn [truthy negb]. step.
  effects_due. reflexivity.
Qed.

Lemma submit_failed (w : World) (a : Answers) (calls : list action) (e : thrown) :
  truthy (trim (inputText (ui w))) = true ->
  generateStudyNotes (inputText (ui w)) (serviceReply a) = (calls, inl e) ->
  dispatch (Submit a) w =
  {| ui := {| inputText := inputText (ui w);
              loading := false;
              error := Some (messageOr (lit "Analysis failed. Please try again.") e);
              notes := notes (ui w);
              history := history (ui w);
              showUploadMenu := showUploadMenu (ui w);
              currentFileType := currentFileType (ui w) |};
     storage := storage w;
     trace := trace w ++ [PreventDefault; SetLoading true; SetError None] ++ calls
              ++ [SetError (Some (messageOr (lit "Analysis failed. Please try again.") e));
                  SetLoading false] |}.
Proof.
  intros Hin Hgen. pose proof (generate_calls (inputText (ui w)) (serviceReply a)) as Hc.
  rewrite Hgen in Hc. cbn [fst] in Hc.
  run_handler. step.
  rewrite Hin. step.
  rewrite Hgen. rewrite emitAll_trace.
  step.
  effects_due. rewrite Hc. reflexivity.
Qed.

Lemma submit_generated (w : World) (a : Answers) (calls : list action) (v : value) :
  truthy (trim (inputText (ui w))) = true ->
  generateStudyNotes (inputText (ui w)) (serviceReply a) = (calls, inr v) ->
  let h := record (newItem a (inputText (ui w)) v) (history (ui w)) in
  dispatch (Submit a) w =
  {| ui := {| inputText := inputText (ui w);
              loading := false;
              error := None;
              notes := Some v;
              history := h;
              showUploadMenu := showUploadMenu (ui w);
              currentFileType := currentFileType (ui w) |};
     storage := setItem historyKey (JSON_stringify (value_of_history h)) (storage w);
     trace := trace w ++ [PreventDefault; SetLoading true; SetError None] ++ calls
              ++ [SetNotes (Some v); SetHistory h; SetLoading false;
                  SetItem historyKey (JSON_stringify (value_of_history h))] |}.
Proof.
  intros Hin Hgen h. subst h.
  run_handler. step.
  rewrite Hin. step.
  rewrite Hgen. rewrite emitAll_trace.
  step.
  effects_due. rewrite orb_true_r. reflexivity.
Qed.

(** *** [handleFileUpload] *)

Lemma upload_nothing (w : World) (a : Answers) : dispatch (Upload None a) w = w.
Proof.
  run_handler. step. unfold historyReplaced.
  rewrite <- (List.app_nil_r (trace w)) at 2. rewrite skipn_trace. reflexivity.
Qed.

Lemma upload_unreadable (w : World) (file : File) (a : Answers) (e : thrown) :
  extractText (currentFileType (ui w)) file = inl e ->
  let message := messageOr (lit "Error processing file.") e in
  dispatch (Upload (Some file) a) w =
  {| ui := {| inputText := inputText (ui w);
              loading := false;
              error := Some message;
              notes := notes (ui w);
              history := history (ui w);
              showUploadMenu := false;
              currentFileType := currentFileType (ui w) |};
     storage := storage w;
     trace := trace w ++ [SetLoading true; SetError None; SetShowUploadMenu false;
                          SetError (Some message); SetLoading false;
                          ResetFileInput] |}.
Proof.
  intros Hex message. subst message. run_handler. step. rewrite Hex. step.
  effects_due. reflexivity.
Qed.

Lemma upload_blank (w : World) (file : File) (a : Answers) (extracted : jsstring) :
  extractText (currentFileType (ui w)) file = inr extracted ->
  trim extracted = [] ->
  let message := lit "Document appears to be empty." in
  dispatch (Upload (Some file) a) w =
  {| ui := {| inputText := inputText (ui w);
              loading := false;
              error := Some message;
              notes := notes (ui w);
              history := history (ui w);
              showUploadMenu := false;
              currentFileType := currentFileType (ui w) |};
     storage := storage w;
     trace := trace w ++ [SetLoading true; SetError None; SetShowUploadMenu false;
                          SetError (Some message); SetLoading false;
                          ResetFileInput] |}.
Proof.
  intros Hex Hblank message. subst message. run_handler. step. rewrite Hex. step.
  rewrite Hblank. cbn [truthy negb]. step.
  effects_due. reflexivity.
Qed.

Lemma upload_failed (w : World) (file : File) (a : Answers) (extracted : jsstring)
    (calls : list action) (e : thrown) :
  extractText (currentFileType (ui w)) file = inr extracted ->
  truthy (trim extracted) = true ->
  generateStudyNotes extracted (serviceReply a) = (calls, inl e) ->
  let message := messageOr (lit "Error processing file.") e in
  dispatch (Upload (Some file) a) w =
  {| ui := {| inputText := extracted;
              loading := false;
              error := Some message;
              notes := notes (ui w);
              history := history (ui w);
              showUploadMenu := false;
              currentFileType := currentFileType (ui w) |};
     storage := storage w;
     trace := trace w ++ [SetLoading true; SetError None; SetShowUploadMenu false;
                          SetInputText extracted] ++ calls
              ++ [SetError (Some message); SetLoading false; ResetFileInput] |}.
Proof.
  intros Hex Hin Hgen message. subst message.
  pose proof (generate_calls extracted (serviceReply a)) as Hc.
  rewrite Hgen in Hc. cbn [fst] in Hc.
  run_handler. step. rewrite Hex. step. rewrite Hin. step.
  rewrite Hgen. rewrite emitAll_trace. step.
  effects_due. rewrite Hc. reflexivity.
Qed.

Lemma upload_generated (w : World) (file : File) (a : Answers) (extracted : jsstring)
    (calls : list action) (v : value) :
  extractText (currentFileType (ui w)) file = inr extracted ->
  truthy (trim extracted) = true ->
  generateStudyNotes extracted (serviceReply a) = (calls, inr v) ->
  let h := record (newItem a extracted v) (history (ui w)) in
  dispatch (Upload (Some file) a) w =
  {| ui := {| inputText := extracted;
              loading := false;
              error := None;
              notes := Some v;
              history := h;
              showUploadMenu := false;
              currentFileType := currentFileType (ui w) |};
     storage := setItem historyKey (JSON_stringify (value_of_history h)) (storage w);
     trace := trace w ++ [SetLoading true; SetError None; SetShowUploadMenu false;
                          SetInputText extracted] ++ calls
              ++ [SetNotes (Some v); SetHistory h; SetLoading false; ResetFileInput;
                  SetItem historyKey (JSON_stringify (value_of_history h))] |}.
Proof.
  intros Hex Hin Hgen h. subst h.
  run_handler. step. rewrite Hex. step. rewrite Hin. step.
  rewrite Hgen. rewrite emitAll_trace. step.
  effects_due. rewrite orb_true_r. reflexivity.
Qed.

(** *** The other handlers *)

Lemma select_entry (w : World) (i : nat) (item : NoteHistoryItem) :
  nth_error (history (ui w)) i = Some item ->
  dispatch (Select i) w =
  {| ui := {| inputText := originalText item;
              loading := loading (ui w);
              error := error (ui w);
              notes := Some (Types.notes item);
              history := history (ui w);
              showUploadMenu := showUploadMenu (ui w);
              currentFileType := currentFileType (ui w) |};
     storage := storage w;
     trace := trace w ++ [SetNotes (Some (Types.notes item));
                          SetInputText (originalText item); ScrollToTop] |}.
Proof.
  intros H. run_handler. step. rewrite H. step. effects_due. reflexivity.
Qed.

Lemma select_nothing (w : World) (i : nat) :
  nth_error (history (ui w)) i = None -> dispatch (Select i) w = w.
Proof.
  intros H. run_handler. step. rewrite H. step. unfold historyReplaced.
  rewrite <- (List.app_nil_r (trace w)) at 2. rewrite skipn_trace. now destruct w.
Qed.

(** What [generateStudyNotes] returns, by the service's reply. *)
Lemma generate_cases (content : jsstring) (r : reply) :
  (exists e, generateStudyNotes content r = ([GenerateContent content], inl e)
             /\ r = Rejected e)
  \/ (exists txt, generateStudyNotes content r
                  = ([GenerateContent content;
                      ConsoleError (lit "Failed to parse Gemini response")],
                     inl (ErrorObject malformedMessage))
                  /\ r = Responded txt /\ JSON_parse (ToString txt) = None)
  \/ (exists txt v, generateStudyNotes content r = ([GenerateContent content], inr v)
                    /\ r = Responded txt /\ JSON_parse (ToString txt) = Some v).
Proof.
  unfold generateStudyNotes. destruct r as [e|txt]; [left; eauto|].
  destruct (JSON_parse (ToString txt)) as [v|] eqn:P.
  - right; right. eauto.
  - right; left. eauto.
Qed.

(** Every interaction leaves the history as it was or records one item. *)
Lemma dispatch_history (ev : event) (w : World) :
  history (ui (dispatch ev w)) = history (ui w)
  \/ exists item, history (ui (dispatch ev w)) = record item (history (ui w)).
Proof.
  destruct ev as [s| | |t|file a|a|i].
  - left. run_handler. step. effects_due. reflexivity.
  - left. run_handler. step. effects_due. reflexivity.
  - left. run_handler. step. effects_due. reflexivity.
  - left. run_handler. step. effects_due. reflexivity.
  - destruct file as [file|]; [|left; now rewrite upload_nothing].
    destruct (extractText (currentFileType (ui w)) file) as [e|extracted] eqn:Hex.
    { left. now rewrite (upload_unreadable w file a e Hex). }
    destruct (trim extracted) as [|c r] eqn:Ht.
    { left. now rewrite (upload_blank w file a extracted Hex Ht). }
    assert (Hin : truthy (trim extracted) = true) by now rewrite Ht.
    destruct (generateStudyNotes extracted (serviceReply a)) as [calls [e|v]] eqn:Hg.
    + left. now rewrite (upload_failed w file a extracted calls e Hex Hin Hg).
    + right. eexists. now rewrite (upload_generated w file a extracted calls v Hex Hin Hg).
  - destruct (trim (inputText (ui w))) as [|c r] eqn:Ht.
    { left. now rewrite (submit_blank w a Ht). }
    assert (Hin : truthy (trim (inputText (ui w))) = true) by now rewrite Ht.
    destruct (generateStudyNotes (inputText (ui w)) (serviceReply a))
      as [calls [e|v]] eqn:Hg.
    + left. now rewrite (submit_failed w a calls e Hin Hg).
    + right. eexists. now rewrite (submit_generated w a calls v Hin Hg).
  - destruct (nth_error (history (ui w)) i) as [item|] eqn:Hi.
    + left. now rewrite (select_entry w i item Hi).
    + left. now rewrite (select_nothing w i Hi).
Qed.

End AppFacts.

(** ** The render and the page *)

Module PageFacts.
Import DigitFacts LiteralFacts RoundTrip StoredFacts AppFacts.

Lemma firstn_app_firstn {A} (n m : nat) (l1 l2 : list A) :
  (n <= m)%nat -> firstn n (l1 ++ firstn m l2) = firstn n (l1 ++ l2).
Proof.
  revert n. induction l1 as [|x l1 IH]; intros n Hn.
  - cbn [app]. rewrite firstn_firstn. f_equal. lia.
  - destruct n as [|n]; [reflexivity|]. cbn [app firstn]. f_equal.
    apply IH. lia.
Qed.

Lemma forallb_firstn {A} (f : A -> bool) (n : nat) (l : list A) :
  forallb f l = true -> forallb f (firstn n l) = true.
Proof.
  revert n. induction l as [|x l IH]; intros n H; destruct n; try reflexivity.
  cbn [forallb firstn] in *. apply andb_true_iff in H as [Hx Hl].
  now rewrite Hx, IH.
Qed.

(** *** The handlers leave the storage to the effects *)

Lemma handle_storage (ev : event) (w : World) :
  storage (exec (handle ev) w) = storage w.
Proof.
  destruct ev as [s| | |t|file a|a|i]; try reflexivity.
  - destruct file as [file|]; [|reflexivity].
    run_handler. step.
    destruct (extractText (currentFileType (ui w)) file) as [e|extracted]; [reflexivity|].
    step. destruct (truthy (trim extracted)); [|reflexivity]. step.
    destruct (generateStudyNotes extracted (serviceReply a)) as [calls [e|v]];
      rewrite emitAll_trace; reflexivity.
  - run_handler. step.
    destruct (truthy (trim (inputText (ui w)))); [|reflexivity]. step.
    destruct (generateStudyNotes (inputText (ui w)) (serviceReply a)) as [calls [e|v]];
      rewrite emitAll_trace; reflexivity.
  - run_handler. step.
    destruct (nth_error (history (ui w)) i); reflexivity.
Qed.

Lemma dispatch_ui (ev : event) (w : World) :
  ui (dispatch ev w) = ui (exec (handle ev) w).
Proof.
  unfold dispatch. destruct (historyReplaced w (exec (handle ev) w)); reflexivity.
Qed.

Lemma interact_mounted (ev : event) (w : World) :
  renders (ui (dispatch ev w)) = true ->
  interact ev (Mounted w) = Mounted (dispatch ev w).
Proof.
  intros H. unfold interact. rewrite <- dispatch_ui. now rewrite H.
Qed.

Lemma interact_unmounted (ev : event) (w : World) :
  renders (ui (dispatch ev w)) = false ->
  interact ev (Mounted w) = Unmounted (storage w) (trace (exec (handle ev) w)).
Proof.
  intros H. unfold interact. rewrite <- dispatch_ui, H. now rewrite handle_storage.
Qed.

Lemma session_cons (ev : event) (evs : list event) (p : Page) :
  session (ev :: evs) p = session evs (interact ev p).
Proof. reflexivity. Qed.

Lemma session_unmounted (evs : list event) (stored : Storage) (done : list action) :
  session evs (Unmounted stored done) = Unmounted stored done.
Proof. induction evs as [|ev evs IH]; [reflexivity|]. now rewrite session_cons. Qed.

(** A session that leaves the component on the page is the run of its
    handlers and effects, and every render on the way went through. *)
Lemma session_run (evs : list event) (w w' : World) :
  session evs (Mounted w) = Mounted w' -> w' = run evs w.
Proof.
  revert w. induction evs as [|ev evs IH]; intros w H.
  - now injection H as <-.
  - rewrite session_cons in H. unfold interact in H.
    destruct (renders (ui (exec (handle ev) w))).
    + now apply IH in H.
    + rewrite session_unmounted in H. discriminate H.
Qed.

Lemma session_renders (evs : list event) (w w' : World) :
  renders (ui w) = true ->
  session evs (Mounted w) = Mounted w' -> renders (ui w') = true.
Proof.
  revert w. induction evs as [|ev evs IH]; intros w Hw H.
  - now injection H as <-.
  - rewrite session_cons in H. unfold interact in H.
    destruct (renders (ui (exec (handle ev) w))) eqn:E.
    + apply (IH (dispatch ev w)); [|assumption]. now rewrite dispatch_ui.
    + rewrite session_unmounted in H. discriminate H.
Qed.

(** *** What an interaction records *)

Lemma generatedItem_none (source : jsstring) (a : Answers) :
  trim source = [] -> generatedItem source a = None.
Proof. unfold generatedItem. now intros ->. Qed.

Lemma generatedItem_failed (source : jsstring) (a : Answers)
    (calls : list action) (e : thrown) :
  generateStudyNotes source (serviceReply a) = (calls, inl e) ->
  generatedItem source a = None.
Proof. unfold generatedItem. intros ->. now destruct (truthy (trim source)). Qed.

Lemma generatedItem_some (source : jsstring) (a : Answers)
    (calls : list action) (v : value) :
  truthy (trim source) = true ->
  generateStudyNotes source (serviceReply a) = (calls, inr v) ->
  generatedItem source a = Some (newItem a source v).
Proof. unfold generatedItem. now intros -> ->. Qed.

(** An interaction records the item it generated, and nothing else changes
    the history; the storage is written exactly then, with the text of the
    new history. *)
Lemma dispatch_generated (ev : event) (w : World) :
  match generated ev w with
  | Some item =>
      history (ui (dispatch ev w)) = record item (history (ui w))
      /\ storage (dispatch ev w)
         = setItem historyKey
             (JSON_stringify (value_of_history (record item (history (ui w)))))
             (storage w)
      /\ notes (ui (dispatch ev w)) = Some (Types.notes item)
  | None =>
      history (ui (dispatch ev w)) = history (ui w)
      /\ storage (dispatch ev w) = storage w
      /\ notes (ui (dispatch ev w)) = notesKept ev w
  end.
Proof.
  destruct ev as [s| | |t|file a|a|i]; cbn [generated notesKept];
    try (repeat split; run_handler; step; effects_due; reflexivity).
  - destruct file as [file|]; [|now rewrite upload_nothing].
    destruct (extractText (currentFileType (ui w)) file) as [e|extracted] eqn:Hex.
    { now rewrite (upload_unreadable w file a e Hex). }
    destruct (trim extracted) as [|c r] eqn:Ht.
    { rewrite (generatedItem_none _ _ Ht).
      now rewrite (upload_blank w file a extracted Hex Ht). }
    assert (Hin : truthy (trim extracted) = true) by now rewrite Ht.
    destruct (generateStudyNotes extracted (serviceReply a)) as [calls [e|v]] eqn:Hg.
    + rewrite (generatedItem_failed _ _ _ _ Hg).
      now rewrite (upload_failed w file a extracted calls e Hex Hin Hg).
    + rewrite (generatedItem_some _ _ _ _ Hin Hg).
      now rewrite (upload_generated w file a extracted calls v Hex Hin Hg).
  - destruct (trim (inputText (ui w))) as [|c r] eqn:Ht.
    { rewrite (generatedItem_none _ _ Ht). now rewrite (submit_blank w a Ht). }
    assert (Hin : truthy (trim (inputText (ui w))) = true) by now rewrite Ht.
    destruct (generateStudyNotes (inputText (ui w)) (serviceReply a))
      as [calls [e|v]] eqn:Hg.
    + rewrite (generatedItem_failed _ _ _ _ Hg).
      now rewrite (submit_failed w a calls e Hin Hg).
    + rewrite (generatedItem_some _ _ _ _ Hin Hg).
      now rewrite (submit_generated w a calls v Hin Hg).
  - destruct (nth_error (history (ui w)) i) as [item|] eqn:Hi.
    + now rewrite (select_entry w i item Hi).
    + now rewrite (select_nothing w i Hi).
Qed.

(** The render after an interaction that records nothing goes through when
    the page was on display, unless an entry was chosen whose notes the page
    cannot show. *)
Lemma renders_kept (w : World) (ev : event) :
  renders (ui w) = true ->
  generated ev w = None ->
  renders (ui (dispatch ev w))
  = match notesKept ev w with
    | Some n => rendersNotes n
    | None => true
    end.
Proof.
  intros Hw Hg. pose proof (dispatch_generated ev w) as Hd. rewrite Hg in Hd.
  destruct Hd as (Hh & _ & Hn). unfold renders in *. rewrite Hh, Hn.
  apply andb_true_iff in Hw as [_ Hold]. now rewrite Hold, andb_true_r.
Qed.

Lemma record_bound (item : NoteHistoryItem) (prev : list NoteHistoryItem) :
  (length (record item prev) <= 10)%nat.
Proof. unfold record. apply firstn_le_length. Qed.

(** Along a run the history is the items recorded, the latest first,
    followed by the items that were there, cut after the tenth. *)
Lemma run_recorded (evs : list event) (w : World) :
  (length (history (ui w)) <= 10)%nat ->
  history (ui (run evs w)) = firstn 10 (recorded evs w ++ history (ui w)).
Proof.
  revert w. induction evs as [|ev evs IH]; intros w Hlen.
  - cbn [run fold_left recorded app]. symmetry. now apply firstn_all2.
  - change (run (ev :: evs) w) with (run evs (dispatch ev w)). cbn [recorded].
    pose proof (dispatch_generated ev w) as Hd.
    destruct (generated ev w) as [item|].
    + destruct Hd as (Hh & _ & _). rewrite IH by (rewrite Hh; apply record_bound).
      rewrite Hh. unfold record. rewrite firstn_app_firstn by lia.
      now rewrite <- app_assoc.
    + destruct Hd as (Hh & _ & _). rewrite IH by now rewrite Hh.
      now rewrite Hh, List.app_nil_r.
Qed.

(** *** Notes that the page renders *)

Lemma renders_state (st : AppState) :
  renders st = true <->
  match notes st with Some n => rendersNotes n = true | None => True end
  /\ forallb rendersEntry (history st) = true.
Proof.
  unfold renders. rewrite andb_true_iff. destruct (notes st); intuition.
Qed.

(** The state after a recorded generation renders when the page was on
    display and the notes are displayable, and only then. *)
Lemma renders_recorded (w : World) (ev : event) (item : NoteHistoryItem) :
  renders (ui w) = true ->
  generated ev w = Some item ->
  renders (ui (dispatch ev w)) = displayable (Types.notes item).
Proof.
  intros Hw Hg. pose proof (dispatch_generated ev w) as Hd. rewrite Hg in Hd.
  destruct Hd as (Hh & _ & Hn).
  apply renders_state in Hw as [_ Hold].
  unfold renders. rewrite Hn, Hh. unfold displayable.
  change (record item (history (ui w))) with (item :: firstn 9 (history (ui w))).
  cbn [forallb]. rewrite (forallb_firstn _ 9 _ Hold), andb_true_r.
  reflexivity.
Qed.

Lemma conforming_child (x : value) :
  conforms STRING x = true -> child (Some x) = true.
Proof. destruct x; cbn; try discriminate; reflexivity. Qed.

Lemma conforming_text (x : value) :
  conforms STRING x = true -> isText (Some x) = true.
Proof. destruct x; cbn; try discriminate; reflexivity. Qed.

Lemma conforming_mapped (sc : Schema) (f : value -> bool) (x : value) :
  (forall y, conforms sc y = true -> f y = true) ->
  conforms (ARRAY sc) x = true -> mapped f (Some x) = true.
Proof.
  intros Hf. destruct x as [| | | |vs|]; try discriminate.
  rewrite conforms_array. cbn [mapped].
  induction vs as [|y vs IH]; cbn [forallb]; [reflexivity|].
  rewrite andb_true_iff. intros [Hy Hvs]. now rewrite (Hf y Hy), IH.
Qed.

Lemma conforming_validChild (y : value) :
  conforms STRING y = true -> validChild y = true.
Proof. destruct y; cbn; try discriminate; reflexivity. Qed.

Lemma conforming_rendersMcq (y : value) :
  conforms (OBJECT [(lit "question", STRING); (lit "options", ARRAY STRING);
                    (lit "answer", STRING)]
                   [lit "question"; lit "options"; lit "answer"]) y = true ->
  rendersMcq y = true.
Proof.
  intros H. destruct (conforming_object _ _ _ H) as (ms & ->).
  unfold rendersMcq, property.
  required H (lit "question"). rewrite (conforming_child _ Hc).
  required H (lit "options").
  rewrite (conforming_mapped STRING validChild _ conforming_validChild Hc0).
  required H (lit "answer"). now rewrite (conforming_child _ Hc1).
Qed.

Lemma conforming_rendersShortAnswer (y : value) :
  conforms (OBJECT [(lit "question", STRING); (lit "answer", STRING)]
                   [lit "question"; lit "answer"]) y = true ->
  rendersShortAnswer y = true.
Proof.
  intros H. destruct (conforming_object _ _ _ H) as (ms & ->).
  unfold rendersShortAnswer, property.
  required H (lit "question"). rewrite (conforming_child _ Hc).
  required H (lit "answer"). now rewrite (conforming_child _ Hc0).
Qed.

(** A response of the shape the schema describes can be shown and listed. *)
Lemma conforms_displayable (v : value) :
  conforms responseSchema v = true -> displayable v = true.
Proof.
  unfold responseSchema. intros H.
  destruct (conforming_object _ _ _ H) as (ms & ->).
  unfold displayable, rendersNotes, rendersTitle, rendersQuestions, property.
  cbn [valueTruthy].
  required H (lit "topicOverview"). rewrite (conforming_child _ Hc).
  required H (lit "detailedExplanation"). rewrite (conforming_text _ Hc0).
  required H (lit "keyPoints").
  rewrite (conforming_mapped STRING validChild _ conforming_validChild Hc1).
  required H (lit "commonMistakes").
  rewrite (conforming_mapped STRING validChild _ conforming_validChild Hc2).
  required H (lit "examTips").
  rewrite (conforming_mapped STRING validChild _ conforming_validChild Hc3).
  required H (lit "studyQuestions").
  destruct (conforming_object _ _ _ Hc4) as (qs & ->).
  required Hc4 (lit "mcqs").
  rewrite (conforming_mapped _ rendersMcq _ conforming_rendersMcq Hc5).
  required Hc4 (lit "shortAnswers").
  rewrite (conforming_mapped _ rendersShortAnswer _ conforming_rendersShortAnswer Hc6).
  required Hc4 (lit "examStyle").
  destruct (conforming_object _ _ _ Hc7) as (ex & ->).
  required Hc7 (lit "question"). rewrite (conforming_child _ Hc8).
  required Hc7 (lit "modelAnswer"). now rewrite (conforming_child _ Hc9).
Qed.

End PageFacts.

(** * The claims *)

Module Claims.
Import DigitFacts LiteralFacts RoundTrip StoredFacts AppFacts PageFacts Samples.

Lemma record_front (item : NoteHistoryItem) (prev : list NoteHistoryItem) :
  record item prev = item :: firstn 9 prev.
Proof. reflexivity. Qed.

Lemma record_length (item : NoteHistoryItem) (prev : list NoteHistoryItem) :
  (length (record item prev) <= 10)%nat.
Proof. unfold record. apply firstn_le_length. Qed.

Lemma run_cons (ev : event) (evs : list event) (w : World) :
  run (ev :: evs) w = run evs (dispatch ev w).
Proof. reflexivity. Qed.

(** The scenario of the specification: the text about photosynthesis is
    submitted and the service answers with well-formed notes whose overview
    is "Photosynthesis"; the notes are on display and the history has one
    new entry, at the front, holding the text and the notes. *)
Example photosynthesis_scenario :
  let w := dispatch (Submit (goodAnswers 1700000000000)) (typed photosynthesis) in
  interact (Submit (goodAnswers 1700000000000)) (Mounted (typed photosynthesis))
  = Mounted w
  /\ notes (ui w) = Some (value_of_StudyNotes sampleNotes)
  /\ history (ui w) = [sampleItem]
  /\ getItem historyKey (storage w)
     = Some (JSON_stringify (value_of_history [sampleItem])).
Proof. vm_compute. repeat split. Qed.

(** One generation on a page that is on display: the notes are of the kind
    the page can show and list, and the item is recorded and written; or
    they are not, and the component goes off the page with nothing
    recorded. *)
Lemma generation_outcome (w : World) (ev : event) (item : NoteHistoryItem) :
  renders (ui w) = true ->
  generated ev w = Some item ->
  if displayable (Types.notes item)
  then exists w', interact ev (Mounted w) = Mounted w'
         /\ history (ui w') = item :: firstn 9 (history (ui w))
         /\ notes (ui w') = Some (Types.notes item)
         /\ storage w'
            = setItem historyKey (JSON_stringify (value_of_history (history (ui w'))))
                (storage w)
  else exists done, interact ev (Mounted w) = Unmounted (storage w) done.
Proof.
  intros Hw Hg. pose proof (renders_recorded w ev item Hw Hg) as Hr.
  pose proof (dispatch_generated ev w) as Hd. rewrite Hg in Hd.
  destruct Hd as (Hh & Hs & Hn).
  destruct (displayable (Types.notes item)).
  - exists (dispatch ev w). rewrite (interact_mounted ev w Hr).
    rewrite Hh, Hs, Hn. repeat split.
  - eexists. now rewrite (interact_unmounted ev w Hr).
Qed.

(** Claim C1, amended.  A successful generation, from typed text or from an
    uploaded file, whose notes the page can show and list (notes of the
    shape of the schema are such) puts exactly one new item at the front of
    the history, keeps the first nine of the items that were there, in
    their order, and writes the new history to the storage; a successful
    generation whose notes the page cannot render takes the component off
    the page and records nothing.  A recorded history has at most ten items;
    and after any session that leaves the component on the page, a history
    of at most ten items is the items recorded, the latest first, followed
    by the items that were there, in their order, cut after the tenth. *)
Theorem history_insertion_front_capped
    (w w' : World) (a : Answers) (file : File) (txt : option jsstring)
    (generatedNotes : value) (extracted : jsstring) (evs : list event) :
  renders (ui w) = true ->
  serviceReply a = Responded txt ->
  JSON_parse (ToString txt) = Some generatedNotes ->
  (truthy (trim (inputText (ui w))) = true ->
   if displayable generatedNotes
   then exists w1,
          interact (Submit a) (Mounted w) = Mounted w1
          /\ history (ui w1)
             = newItem a (inputText (ui w)) generatedNotes
               :: firstn 9 (history (ui w))
          /\ getItem historyKey (storage w1)
             = Some (JSON_stringify (value_of_history (history (ui w1))))
   else exists done,
          interact (Submit a) (Mounted w) = Unmounted (storage w) done)
  /\ (extractText (currentFileType (ui w)) file = inr extracted ->
      truthy (trim extracted) = true ->
      if displayable generatedNotes
      then exists w1,
             interact (Upload (Some file) a) (Mounted w) = Mounted w1
             /\ history (ui w1)
                = newItem a extracted generatedNotes :: firstn 9 (history (ui w))
             /\ getItem historyKey (storage w1)
                = Some (JSON_stringify (value_of_history (history (ui w1))))
      else exists done,
             interact (Upload (Some file) a) (Mounted w) = Unmounted (storage w) done)
  /\ (conforms responseSchema generatedNotes = true ->
      displayable generatedNotes = true)
  /\ (forall item prev,
        record item prev = item :: firstn 9 prev
        /\ (length (record item prev) <= 10)%nat)
  /\ ((length (history (ui w)) <= 10)%nat ->
      session evs (Mounted w) = Mounted w' ->
      history (ui w') = firstn 10 (recorded evs w ++ history (ui w))
      /\ (length (history (ui w')) <= 10)%nat).
Proof.
  intros Hw Hreply Hparse.
  assert (Hgen : forall content,
             generateStudyNotes content (serviceReply a)
             = ([GenerateContent content], inr generatedNotes)).
  { intros content. unfold generateStudyNotes. now rewrite Hreply, Hparse. }
  assert (Hout : forall ev source,
             generated ev w = Some (newItem a source generatedNotes) ->
             if displayable generatedNotes
             then exists w1,
                    interact ev (Mounted w) = Mounted w1
                    /\ history (ui w1)
                       = newItem a source generatedNotes :: firstn 9 (history (ui w))
                    /\ getItem historyKey (storage w1)
                       = Some (JSON_stringify (value_of_history (history (ui w1))))
             else exists done, interact ev (Mounted w) = Unmounted (storage w) done).
  { intros ev source Hg. pose proof (generation_outcome w ev _ Hw Hg) as H.
    cbn [newItem Types.notes] in H. destruct (displayable generatedNotes); [|exact H].
    destruct H as (w1 & H1 & H2 & _ & H4). exists w1. repeat split; try assumption.
    rewrite H4. apply getItem_setItem. }
  split; [|split; [|split; [|split]]].
  - intros Hin. apply Hout. cbn [generated].
    exact (generatedItem_some _ _ _ _ Hin (Hgen _)).
  - intros Hex Hin. apply Hout. cbn [generated]. rewrite Hex.
    exact (generatedItem_some _ _ _ _ Hin (Hgen _)).
  - apply conforms_displayable.
  - intros item prev. split; [reflexivity|apply record_length].
  - intros Hlen Hsession. apply session_run in Hsession. subst w'.
    rewrite (run_recorded evs w Hlen). split; [reflexivity|apply firstn_le_length].
Qed.

Lemma history_insertion_front_capped_witness :
  map id (history (ui (run [Submit (goodAnswers 11); Change (lit "more");
                            Submit (goodAnswers 12)] full)))
  = map Z_toString [12; 11; 10; 9; 8; 7; 6; 5; 4; 3]%Z.
Proof.
  destruct (history_insertion_front_capped
              full
              (run [Submit (goodAnswers 11); Change (lit "more");
                    Submit (goodAnswers 12)] full)
              (goodAnswers 11) onePagePdf
              (Some (JSON_stringify (value_of_StudyNotes sampleNotes)))
              (value_of_StudyNotes sampleNotes) []
              [Submit (goodAnswers 11); Change (lit "more"); Submit (goodAnswers 12)]
              eq_refl eq_refl ltac:(vm_compute; reflexivity))
    as (_ & _ & _ & _ & H).
  destruct (H ltac:(vm_compute; lia) ltac:(vm_compute; reflexivity)) as [E _].
  rewrite E. vm_compute. reflexivity.
Defined.

(** Claim C1 as stated fails on a generation that succeeds with the
    response [{}]: the component is taken off the page, and neither the
    history on display nor the storage receives an item. *)
Lemma unrenderable_generation_counterexample :
  generateStudyNotes photosynthesis (serviceReply (emptyObjectAnswers 5))
  = ([GenerateContent photosynthesis], inr (JObject []))
  /\ (exists done,
        interact (Submit (emptyObjectAnswers 5)) (Mounted (typed photosynthesis))
        = Unmounted [] done)
  /\ ~ generation_recorded (typed photosynthesis) (emptyObjectAnswers 5).
Proof.
  split; [reflexivity|]. split; [eexists; vm_compute; reflexivity|].
  intros H. destruct (H _ (JObject []) eq_refl eq_refl) as (w' & Hm & _).
  vm_compute in Hm. discriminate Hm.
Qed.

(** Claim C3.  When the text extracted from an uploaded file is empty after
    trimming, that is, holds white space only, the upload fails with the empty-document error before the
    generation client is called: the handler only switches the loading flag,
    closes the upload menu and sets the error; no request is made, no item
    is created, and notes, input text, history and storage are as before. *)
Theorem upload_blank_document
    (w : World) (file : File) (a : Answers) (extracted : jsstring) :
  extractText (currentFileType (ui w)) file = inr extracted ->
  trim extracted = [] ->
  let w' := dispatch (Upload (Some file) a) w in
  error (ui w') = Some (lit "Document appears to be empty.")
  /\ history (ui w') = history (ui w)
  /\ notes (ui w') = notes (ui w)
  /\ inputText (ui w') = inputText (ui w)
  /\ storage w' = storage w
  /\ trace w' = trace w ++ [SetLoading true; SetError None; SetShowUploadMenu false;
                            SetError (Some (lit "Document appears to be empty."));
                            SetLoading false; ResetFileInput]
  /\ (forall content, In (GenerateContent content) (trace w') ->
                      In (GenerateContent content) (trace w))
  /\ forallb isWhiteSpace extracted = true.
Proof.
  intros Hex Hblank w'. subst w'. rewrite (upload_blank w file a extracted Hex Hblank).
  cbn [ui storage trace error history notes inputText].
  repeat split; [|now apply trim_blank].
  intros content Hin. apply in_app_or in Hin as [Hin|Hin]; [assumption|].
  cbn [In] in Hin. repeat (destruct Hin as [Hin|Hin]; [discriminate|]). contradiction.
Qed.

Lemma upload_blank_document_witness :
  error (ui (dispatch (Upload (Some blankTextFile) (goodAnswers 1)) (picked text)))
  = Some (lit "Document appears to be empty.").
Proof.
  exact (proj1 (upload_blank_document (picked text) blankTextFile (goodAnswers 1)
                  (lit "   ") eq_refl eq_refl)).
Defined.



(** Claim C9.  On the upload path the extracted text is put into the input
    text before the generation request is issued, and a failing generation
    does not take it back: after the failure the input text is the extracted
    text, the error is set, and notes and history are as before. *)
Theorem upload_keeps_extracted_text
    (w : World) (file : File) (a : Answers) (extracted : jsstring)
    (calls : list action) (e : thrown) :
  extractText (currentFileType (ui w)) file = inr extracted ->
  truthy (trim extracted) = true ->
  generateStudyNotes extracted (serviceReply a) = (calls, inl e) ->
  let w' := dispatch (Upload (Some file) a) w in
  inputText (ui w') = extracted
  /\ error (ui w') = Some (messageOr (lit "Error processing file.") e)
  /\ notes (ui w') = notes (ui w)
  /\ history (ui w') = history (ui w)
  /\ storage w' = storage w
  /\ exists later,
       trace w' = trace w ++ [SetLoading true; SetError None; SetShowUploadMenu false]
                  ++ SetInputText extracted :: GenerateContent extracted :: later.
Proof.
  intros Hex Hin Hgen w'. subst w'.
  rewrite (upload_failed w file a extracted calls e Hex Hin Hgen).
  cbn [ui storage trace error history notes inputText]. repeat split.
  destruct (generate_cases extracted (serviceReply a))
    as [(e' & E & _)|[(txt & E & _)|(txt & v & E & _)]];
    rewrite E in Hgen; injection Hgen as <- ?; eexists; reflexivity.
Qed.

Lemma upload_keeps_extracted_text_witness :
  inputText (ui (dispatch (Upload (Some onePagePdf) (proseAnswers 1)) (picked pdf)))
  = [97; 10].
Proof.
  exact (proj1 (upload_keeps_extracted_text (picked pdf) onePagePdf (proseAnswers 1)
                  [97; 10] _ (ErrorObject malformedMessage)
                  eq_refl eq_refl eq_refl)).
Defined.

(** Claim C10.  Submitting an input text that is empty after trimming does
    nothing: the handler returns before it sets the loading flag, calls the
    generation client not at all, and leaves the component (notes, error
    and history among the rest) and the storage as they were; through the
    form, the only thing done is the [preventDefault] of the event. *)
Theorem submit_blank_is_noop (w : World) (a : Answers) :
  trim (inputText (ui w)) = [] ->
  exec (handleSubmit None a) w = w
  /\ ui (dispatch (Submit a) w) = ui w
  /\ storage (dispatch (Submit a) w) = storage w
  /\ trace (dispatch (Submit a) w) = trace w ++ [PreventDefault].
Proof.
  intros H. rewrite (submit_blank w a H). cbn [ui storage trace]. repeat split.
  run_handler. step. rewrite H. reflexivity.
Qed.

Lemma submit_blank_is_noop_witness :
  exec (handleSubmit None (goodAnswers 1)) (typed [32; 9; 10; 160])
  = typed [32; 9; 10; 160].
Proof.
  exact (proj1 (submit_blank_is_noop (typed [32; 9; 10; 160]) (goodAnswers 1) eq_refl)).
Defined.

(** Claim C7.  When the storage holds no history, or holds text that
    [JSON.parse] rejects, the page comes up with the empty history and no
    error on display.  Text that is not empty is parsed, and the failure is
    written to the console and to nothing else; an absent or empty text is
    not parsed and nothing is logged.  The storage then receives the empty
    list. *)
Theorem mount_without_readable_history (stored : Storage) :
  (getItem historyKey stored = None
   \/ exists saved, getItem historyKey stored = Some saved
                    /\ JSON_parse saved = None) ->
  exists w,
    mount stored = Some w
    /\ start stored = Some (Mounted w)
    /\ history (ui w) = []
    /\ error (ui w) = None
    /\ ui w = initialState
    /\ trace w
       = [GetItem historyKey]
         ++ match getItem historyKey stored with
            | Some (_ :: _) => [ConsoleError (lit "History parse failed")]
            | _ => []
            end
         ++ [SetItem historyKey (lit "[]")]
    /\ storage w = setItem historyKey (lit "[]") stored.
Proof.
  intros [Habsent|(saved & Hsaved & Hparse)]; unfold start, mount.
  - rewrite Habsent. eexists. split; [reflexivity|]. repeat split.
  - rewrite Hsaved. destruct saved as [|c saved]; cbn [truthy].
    + eexists. split; [reflexivity|]. repeat split.
    + rewrite Hparse. eexists. split; [reflexivity|]. repeat split.
Qed.

Lemma mount_without_readable_history_witness :
  exists w, mount [(historyKey, lit "[{oops")] = Some w
            /\ history (ui w) = []
            /\ trace w = [GetItem historyKey;
                          ConsoleError (lit "History parse failed");
                          SetItem historyKey (lit "[]")].
Proof.
  destruct (mount_without_readable_history [(historyKey, lit "[{oops")]
              (or_intror (ex_intro _ (lit "[{oops") (conj eq_refl eq_refl))))
    as (w & Hm & _ & Hh & _ & _ & Ht & _).
  exists w. repeat split; assumption.
Defined.





Lemma pdfText_pages (pages : list (list jsstring)) (fullText : jsstring) :
  pdfText (map inr pages) fullText
  = inr (fullText ++ concat (map (fun items => join [32] items ++ [10]) pages)).
Proof.
  revert fullText. induction pages as [|p pages IH]; intros fullText.
  - cbn. now rewrite List.app_nil_r.
  - cbn [map pdfText concat]. rewrite IH. now rewrite <- !app_assoc.
Qed.

Lemma pages_terminated (pages : list (list jsstring)) :
  pages <> [] ->
  concat (map (fun items => join [32] items ++ [10]) pages)
  = pdfText_as_specified pages ++ [10].
Proof.
  unfold pdfText_as_specified.
  induction pages as [|p pages IH]; [congruence|]. intros _.
  destruct pages as [|q pages].
  - cbn [map concat]. rewrite join_one. now rewrite List.app_nil_r.
  - cbn [map] in *. rewrite join_more. cbn [concat] in *.
    rewrite IH by discriminate. now rewrite <- !app_assoc.
Qed.

(** Claim C8, amended.  The text of a PDF is its pages in page order, the
    fragments of a page joined by single spaces, and a newline after every
    page, the last one included: for a document with at least one page it is
    the text with newlines between the pages, followed by one more newline. *)
Theorem pdf_pages_newline_terminated (file : File) (pages : list (list jsstring)) :
  pdfPages file = inr (map inr pages) ->
  extractText (Some pdf) file
  = inr (concat (map (fun items => join [32] items ++ [10]) pages))
  /\ (pages <> [] ->
      extractText (Some pdf) file = inr (pdfText_as_specified pages ++ [10])).
Proof.
  intros Hpages. unfold extractText. rewrite Hpages, pdfText_pages. cbn [app].
  split; [reflexivity|]. intros Hne. now rewrite pages_terminated.
Qed.

Lemma pdf_pages_newline_terminated_witness :
  extractText (Some pdf) onePagePdf = inr [97; 10].
Proof.
  exact (proj1 (pdf_pages_newline_terminated onePagePdf [[lit "a"]] eq_refl)).
Defined.

(** Claim C8 as stated fails on a PDF of one page reading "a": the
    extracted text ends with a newline that separates no two pages. *)
Lemma pdf_single_page_counterexample :
  extractText (Some pdf) onePagePdf = inr (lit "a" ++ [10])
  /\ pdfText_as_specified [[lit "a"]] = lit "a"
  /\ extractText (Some pdf) onePagePdf <> inr (pdfText_as_specified [[lit "a"]]).
Proof. repeat split. discriminate. Qed.

Lemma failed_generation_keeps_history_submit
    (w : World) (a : Answers) (calls : list action) (e : thrown) :
  generateStudyNotes (inputText (ui w)) (serviceReply a) = (calls, inl e) ->
  history (ui (dispatch (Submit a) w)) = history (ui w).
Proof.
  intros Hgen. destruct (trim (inputText (ui w))) as [|c r] eqn:Ht.
  - now rewrite (submit_blank w a Ht).
  - assert (Hin : truthy (trim (inputText (ui w))) = true) by now rewrite Ht.
    now rewrite (submit_failed w a calls e Hin Hgen).
Qed.

Lemma failed_generation_keeps_history_upload
    (w : World) (file : File) (a : Answers) :
  (forall content, exists calls e,
      generateStudyNotes content (serviceReply a) = (calls, inl e)) ->
  history (ui (dispatch (Upload (Some file) a) w)) = history (ui w).
Proof.
  intros Hgen.
  destruct (extractText (currentFileType (ui w)) file) as [e|extracted] eqn:Hex.
  { now rewrite (upload_unreadable w file a e Hex). }
  destruct (trim extracted) as [|c r] eqn:Ht.
  { now rewrite (upload_blank w file a extracted Hex Ht). }
  assert (Hin : truthy (trim extracted) = true) by now rewrite Ht.
  destruct (Hgen extracted) as (calls & e & Hg).
  now rewrite (upload_failed w file a extracted calls e Hex Hin Hg).
Qed.

(** Claim C2, amended.  [generateStudyNotes] fails with the message about
    shorter or cleaner content exactly when the text of the response is not
    valid JSON; a response that is valid JSON is returned as the notes
    without a check of its shape; a rejected request fails with the error of
    the transport instead; and on the failure to parse neither handler adds
    an item to the history, the typed-text handler showing the message. *)
Theorem malformed_exactly_when_not_json
    (w : World) (a : Answers) (file : File) (content : jsstring)
    (txt : option jsstring) :
  (failsMalformed content (Responded txt) <-> JSON_parse (ToString txt) = None)
  /\ (forall v, JSON_parse (ToString txt) = Some v ->
                generateStudyNotes content (Responded txt)
                = ([GenerateContent content], inr v))
  /\ (forall e, ~ failsMalformed content (Rejected e))
  /\ (serviceReply a = Responded txt -> JSON_parse (ToString txt) = None ->
      history (ui (dispatch (Submit a) w)) = history (ui w)
      /\ history (ui (dispatch (Upload (Some file) a) w)) = history (ui w)
      /\ (truthy (trim (inputText (ui w))) = true ->
          error (ui (dispatch (Submit a) w)) = Some malformedMessage)).
Proof.
  assert (Hfail : JSON_parse (ToString txt) = None ->
                  forall c, generateStudyNotes c (Responded txt)
                  = ([GenerateContent c;
                      ConsoleError (lit "Failed to parse Gemini response")],
                     inl (ErrorObject malformedMessage))).
  { intros H c. unfold generateStudyNotes. now rewrite H. }
  unfold failsMalformed. split; [|split; [|split]].
  - split; [|intros H; now apply Hfail].
    unfold generateStudyNotes.
    destruct (JSON_parse (ToString txt)); [discriminate|reflexivity].
  - intros v H. unfold generateStudyNotes. now rewrite H.
  - intros e. discriminate.
  - intros Hreply Hparse. split; [|split].
    + eapply failed_generation_keeps_history_submit.
      rewrite Hreply. now apply Hfail.
    + apply failed_generation_keeps_history_upload. intros c.
      rewrite Hreply. eexists. eexists. now apply Hfail.
    + intros Hin.
      assert (Hgen : generateStudyNotes (inputText (ui w)) (serviceReply a)
                     = ([GenerateContent (inputText (ui w));
                         ConsoleError (lit "Failed to parse Gemini response")],
                        inl (ErrorObject malformedMessage)))
        by (rewrite Hreply; now apply Hfail).
      now rewrite (submit_failed w a _ _ Hin Hgen).
Qed.

Lemma malformed_exactly_when_not_json_witness :
  history (ui (dispatch (Submit (proseAnswers 1)) (typed photosynthesis))) = []
  /\ error (ui (dispatch (Submit (proseAnswers 1)) (typed photosynthesis)))
     = Some malformedMessage.
Proof.
  destruct (malformed_exactly_when_not_json (typed photosynthesis) (proseAnswers 1)
              onePagePdf photosynthesis (Some (lit "Here are your notes!")))
    as (_ & _ & _ & H).
  destruct (H eq_refl eq_refl) as (Hh & _ & He).
  split; [exact Hh|exact (He eq_refl)].
Defined.

(** Claim C2 as stated fails on the response [{}]: it is valid JSON without
    any of the required fields, and it is returned as the notes. *)
Lemma empty_object_counterexample :
  ~ malformed_when_shape_mismatch photosynthesis (Some (lit "{}")).
Proof.
  unfold malformed_when_shape_mismatch, failsMalformed. intros [_ H].
  assert (Hno : ~ matchesExpectedShape (ToString (Some (lit "{}")))).
  { intros (v & Hv & Hc). vm_compute in Hv. injection Hv as <-. discriminate Hc. }
  specialize (H Hno). vm_compute in H. discriminate H.
Qed.

(** *** Identifiers *)

Lemma firstn_In {A} (n : nat) (l : list A) (x : A) :
  In x (firstn n l) -> In x l.
Proof.
  revert n. induction l as [|y l IH]; intros n H; destruct n; cbn in *; try tauto.
  destruct H as [H|H]; [now left|right; eauto].
Qed.

Lemma NoDup_firstn {A} (n : nat) (l : list A) : NoDup l -> NoDup (firstn n l).
Proof.
  revert n. induction l as [|x l IH]; intros n H; destruct n; cbn; try constructor.
  - inversion H; subst. intros Hin. apply H2. now apply firstn_In in Hin.
  - inversion H; subst. auto.
Qed.

Lemma idReadings_cons (ev : event) (evs : list event) :
  idReadings (ev :: evs) = idReadings [ev] ++ idReadings evs.
Proof. unfold idReadings. cbn [flat_map]. now rewrite List.app_nil_r. Qed.

(** The reading taken for the id of a generated item is one of those
    offered to the interaction. *)
Lemma generated_reading (ev : event) (w : World) (item : NoteHistoryItem) :
  generated ev w = Some item ->
  exists t, In t (idReadings [ev]) /\ id item = Z_toString t.
Proof.
  assert (Hitem : forall source a,
             generatedItem source a = Some item -> id item = Z_toString (nowForId a)).
  { intros source a. unfold generatedItem.
    destruct (truthy (trim source)); [|discriminate].
    destruct (snd (generateStudyNotes source (serviceReply a))); [discriminate|].
    now intros [= <-]. }
  destruct ev as [s| | |t|file a|a|i]; cbn [generated]; try discriminate.
  - destruct file as [file|]; [|discriminate].
    destruct (extractText (currentFileType (ui w)) file); [discriminate|].
    intros H. exists (nowForId a). split; [now left|eauto].
  - intros H. exists (nowForId a). split; [now left|eauto].
Qed.

(** Along a run whose readings for the ids are pairwise distinct and differ
    from the readings behind the ids already in the history, the ids in the
    history stay pairwise distinct. *)
Lemma run_ids (evs : list event) :
  forall (w : World),
  NoDup (map id (history (ui w))) ->
  NoDup (idReadings evs) ->
  (forall t, In t (idReadings evs) -> ~ In (Z_toString t) (map id (history (ui w)))) ->
  NoDup (map id (history (ui (run evs w)))).
Proof.
  induction evs as [|ev evs IH]; intros w Hids Hnd Hfresh; [assumption|].
  rewrite run_cons. rewrite idReadings_cons in Hnd, Hfresh.
  assert (Hnd' : NoDup (idReadings evs)) by now apply NoDup_app_remove_l in Hnd.
  pose proof (dispatch_generated ev w) as Hd.
  destruct (generated ev w) as [item|] eqn:Hg.
  - destruct Hd as (Hh & _ & _).
    destruct (generated_reading ev w item Hg) as (t & Ht & Hid).
    assert (Hnew : ~ In (id item) (map id (history (ui w)))).
    { rewrite Hid. apply Hfresh. apply in_or_app. now left. }
    apply IH; [| assumption |].
    + rewrite Hh, record_front. cbn [map]. constructor.
      * rewrite <- firstn_map. intros Hin. apply firstn_In in Hin. contradiction.
      * rewrite <- firstn_map. now apply NoDup_firstn.
    + intros t' Ht' Hin. rewrite Hh, record_front in Hin. cbn [map] in Hin.
      destruct Hin as [Hin|Hin].
      * rewrite Hid in Hin. apply Z_toString_inj in Hin. subst t'.
        clear -Hnd Ht Ht'. induction (idReadings [ev]) as [|x l IHl]; [contradiction|].
        inversion Hnd; subst. destruct Ht as [->|Ht].
        -- apply H1. apply in_or_app. now right.
        -- auto.
      * rewrite <- firstn_map in Hin. apply firstn_In in Hin.
        apply (Hfresh t'); [apply in_or_app; now right|assumption].
  - destruct Hd as (Hh & _ & _). apply IH; [now rewrite Hh|assumption|].
    intros t' Ht'. rewrite Hh. apply Hfresh. apply in_or_app. now right.
Qed.

(** Claim C4, amended.  The id of an item is the decimal form of the clock
    reading taken for it, so two items have the same id exactly when their
    readings are the same.  Along any run, from a history (loaded or empty)
    whose ids are pairwise distinct, in which the readings offered for the
    ids are pairwise distinct and none of them has the decimal form of an id
    already in the history, the ids in the history are pairwise distinct;
    this holds in particular for the history on display after a session. *)
Theorem ids_unique_for_distinct_readings
    (w w' : World) (evs : list event) (a1 a2 : Answers) (s1 s2 : jsstring)
    (v1 v2 : value) :
  (id (newItem a1 s1 v1) = id (newItem a2 s2 v2) <-> nowForId a1 = nowForId a2)
  /\ (idsUnique (history (ui w)) ->
      NoDup (idReadings evs) ->
      (forall t, In t (idReadings evs) ->
                 ~ In (Z_toString t) (map id (history (ui w)))) ->
      idsUnique (history (ui (run evs w)))
      /\ (session evs (Mounted w) = Mounted w' -> idsUnique (history (ui w')))).
Proof.
  split.
  - cbn [newItem id]. split; [apply Z_toString_inj|congruence].
  - intros Hids Hnd Hfresh. unfold idsUnique in *.
    pose proof (run_ids evs w Hids Hnd Hfresh) as H. split; [exact H|].
    intros Hs. apply session_run in Hs. now subst w'.
Qed.

Lemma ids_unique_for_distinct_readings_witness :
  idsUnique (history (ui (run [Submit (goodAnswers 11); Submit (goodAnswers 12)] full)))
  /\ session [Submit (goodAnswers 11); Submit (goodAnswers 12)] (Mounted full)
     = Mounted (run [Submit (goodAnswers 11); Submit (goodAnswers 12)] full).
Proof.
  split; [|vm_compute; reflexivity].
  refine (proj1 (proj2 (ids_unique_for_distinct_readings full full
                   [Submit (goodAnswers 11); Submit (goodAnswers 12)]
                   (goodAnswers 11) (goodAnswers 12) [] [] JNull JNull) _ _ _)).
  - unfold idsUnique. vm_compute.
    repeat (constructor; [cbn [In]; intuition discriminate|]). constructor.
  - vm_compute. repeat (constructor; [cbn [In]; intuition discriminate|]). constructor.
  - intros t Ht. vm_compute in Ht. vm_compute.
    destruct Ht as [<-|[<-|[]]]; intuition discriminate.
Defined.

(** Claim C4 as stated fails when the clock reads the same at two
    generations: the service answers both with well-formed notes, the
    component stays on the page, and the two items, which differ in their
    text, carry the same id.  It fails as well when the reading, though the
    only one of the session, is the one behind an id of the loaded
    history. *)
Lemma same_reading_counterexample :
  (exists w', session [Submit (goodAnswers 7); Change (lit "b"); Submit (goodAnswers 7)]
                      (Mounted (typed (lit "a"))) = Mounted w'
              /\ map id (history (ui w')) = [lit "7"; lit "7"]
              /\ map originalText (history (ui w')) = [lit "b"; lit "a"]
              /\ ~ idsUnique (history (ui w')))
  /\ (exists w', session [Submit (goodAnswers 7)] (Mounted full) = Mounted w'
                 /\ NoDup (idReadings [Submit (goodAnswers 7)])
                 /\ idsUnique (history (ui full))
                 /\ ~ idsUnique (history (ui w'))).
Proof.
  split.
  - eexists. split; [vm_compute; reflexivity|]. split; [reflexivity|].
    split; [reflexivity|].
    unfold idsUnique. intros H. vm_compute in H.
    inversion H as [|x l Hnotin _]; subst. apply Hnotin. now left.
  - eexists. split; [vm_compute; reflexivity|]. split; [|split].
    + cbn. constructor; [intros []|constructor].
    + unfold idsUnique. vm_compute.
      repeat (constructor; [cbn [In]; intuition discriminate|]). constructor.
    + unfold idsUnique. intros H. vm_compute in H.
      inversion H as [|x l Hnotin _]; subst. apply Hnotin.
      cbn [In]. tauto.
Qed.

End Claims.

(** * Further properties of the code *)

Module Extras.
Import DigitFacts LiteralFacts RoundTrip StoredFacts AppFacts PageFacts Samples.

(** ** One interaction at a time *)

Lemma requests_app (l l' : list action) :
  requests (l ++ l') = requests l ++ requests l'.
Proof.
  induction l as [|x l IH]; [reflexivity|].
  destruct x; cbn [app requests]; rewrite IH; reflexivity.
Qed.

Lemma generate_requests (content : jsstring) (r : reply) :
  requests (fst (generateStudyNotes content r)) = [content].
Proof.
  unfold generateStudyNotes. destruct r as [e|txt]; [reflexivity|].
  now destruct (JSON_parse (ToString txt)).
Qed.

Ltac tally :=
  rewrite ?requests_app; cbn [requests app]; rewrite ?List.app_nil_r; reflexivity.

Lemma changed_text (w : World) (s : jsstring) :
  dispatch (Change s) w =
  {| ui := {| inputText := s; loading := loading (ui w); error := error (ui w);
              notes := notes (ui w); history := history (ui w);
              showUploadMenu := showUploadMenu (ui w);
              currentFileType := currentFileType (ui w) |};
     storage := storage w;
     trace := trace w ++ [SetInputText s] |}.
Proof. run_handler. step. effects_due. reflexivity. Qed.

Lemma cleared_text (w : World) :
  dispatch Clear w =
  {| ui := {| inputText := []; loading := loading (ui w); error := error (ui w);
              notes := notes (ui w); history := history (ui w);
              showUploadMenu := showUploadMenu (ui w);
              currentFileType := currentFileType (ui w) |};
     storage := storage w;
     trace := trace w ++ [SetInputText []] |}.
Proof. run_handler. step. effects_due. reflexivity. Qed.

Lemma toggled_menu (w : World) :
  dispatch ToggleUploadMenu w =
  {| ui := {| inputText := inputText (ui w); loading := loading (ui w);
              error := error (ui w);
              notes := notes (ui w); history := history (ui w);
              showUploadMenu := negb (showUploadMenu (ui w));
              currentFileType := currentFileType (ui w) |};
     storage := storage w;
     trace := trace w ++ [SetShowUploadMenu (negb (showUploadMenu (ui w)))] |}.
Proof. run_handler. step. effects_due. reflexivity. Qed.

Lemma picked_type (w : World) (t : fileType) :
  dispatch (PickFileType t) w =
  {| ui := {| inputText := inputText (ui w); loading := loading (ui w);
              error := error (ui w);
              notes := notes (ui w); history := history (ui w);
              showUploadMenu := showUploadMenu (ui w);
              currentFileType := Some t |};
     storage := storage w;
     trace := trace w ++ [SetCurrentFileType (fileTypeName t);
                          OpenFilePicker (match t with
                                          | pdf => lit ".pdf"
                                          | docx => lit ".docx"
                                          | text => lit ".txt,.md"
                                          end)] |}.
Proof. run_handler. step. effects_due. reflexivity. Qed.

Lemma dispatch_outcome (ev : event) (w : World) : outcome w ev.
Proof.
  destruct ev as [s| | |t|file a|a|i].
  - apply Kept; rewrite changed_text; cbn [ui storage trace history];
      [reflexivity|reflexivity|left].
    tally.
  - apply Kept; rewrite cleared_text; cbn [ui storage trace history];
      [reflexivity|reflexivity|left].
    tally.
  - apply Kept; rewrite toggled_menu; cbn [ui storage trace history];
      [reflexivity|reflexivity|left].
    tally.
  - apply Kept; rewrite picked_type; cbn [ui storage trace history];
      [reflexivity|reflexivity|left].
    tally.
  - destruct file as [file|].
    { destruct (extractText (currentFileType (ui w)) file) as [e|extracted] eqn:Hex.
      { apply Kept; rewrite (upload_unreadable w file a e Hex);
          cbn [ui storage trace history]; [reflexivity|reflexivity|left].
        tally. }
      destruct (trim extracted) as [|c r] eqn:Ht.
      { apply Kept; rewrite (upload_blank w file a extracted Hex Ht);
          cbn [ui storage trace history]; [reflexivity|reflexivity|left].
        tally. }
      assert (Hin : truthy (trim extracted) = true) by now rewrite Ht.
      pose proof (generate_requests extracted (serviceReply a)) as Hreq.
      destruct (generateStudyNotes extracted (serviceReply a))
        as [calls [e|v]] eqn:Hg; cbn [fst] in Hreq.
      - apply Kept; rewrite (upload_failed w file a extracted calls e Hex Hin Hg);
          cbn [ui storage trace history]; [reflexivity|reflexivity|right].
        exists extracted. rewrite !requests_app, Hreq. tally.
      - apply (Recorded w _ a extracted calls v); try assumption;
          try (rewrite (upload_generated w file a extracted calls v Hex Hin Hg);
               reflexivity).
        right. eauto. }
    apply Kept; rewrite upload_nothing; auto.
  - destruct (trim (inputText (ui w))) as [|c r] eqn:Ht.
    { apply Kept; rewrite (submit_blank w a Ht); cbn [ui storage trace];
        [reflexivity|reflexivity|left].
      tally. }
    assert (Hin : truthy (trim (inputText (ui w))) = true) by now rewrite Ht.
    pose proof (generate_requests (inputText (ui w)) (serviceReply a)) as Hreq.
    destruct (generateStudyNotes (inputText (ui w)) (serviceReply a))
      as [calls [e|v]] eqn:Hg; cbn [fst] in Hreq.
    + apply Kept; rewrite (submit_failed w a calls e Hin Hg);
        cbn [ui storage trace history]; [reflexivity|reflexivity|right].
      exists (inputText (ui w)). rewrite !requests_app, Hreq. tally.
    + apply (Recorded w _ a (inputText (ui w)) calls v); try assumption;
        try (rewrite (submit_generated w a calls v Hin Hg); reflexivity).
      now left.
  - destruct (nth_error (history (ui w)) i) as [item|] eqn:Hi.
    + apply Kept; rewrite (select_entry w i item Hi);
        cbn [ui storage trace history]; [reflexivity|reflexivity|left].
      tally.
    + apply Kept; rewrite (select_nothing w i Hi); auto.
Qed.


(** Extra X1.  A submission through the form sends one generation request
    when the input text is not blank, none when it is; the request carries
    the input text as it stands, white space at its ends included; and
    whatever the service answers, no second request follows. *)
Theorem submit_requests (w : World) (a : Answers) :
  requests (trace (dispatch (Submit a) w))
  = requests (trace w)
    ++ (if truthy (trim (inputText (ui w))) then [inputText (ui w)] else []).
Proof.
  destruct (trim (inputText (ui w))) as [|c r] eqn:Ht.
  - rewrite (submit_blank w a Ht). cbn [trace truthy]. tally.
  - assert (Hin : truthy (trim (inputText (ui w))) = true) by now rewrite Ht.
    rewrite <- Ht, Hin.
    pose proof (generate_requests (inputText (ui w)) (serviceReply a)) as Hreq.
    destruct (generateStudyNotes (inputText (ui w)) (serviceReply a))
      as [calls [e|v]] eqn:Hg; cbn [fst] in Hreq.
    + rewrite (submit_failed w a calls e Hin Hg). cbn [trace].
      rewrite !requests_app, Hreq. tally.
    + rewrite (submit_generated w a calls v Hin Hg). cbn [trace].
      rewrite !requests_app, Hreq. tally.
Qed.

(** Extra X2.  An upload sends one generation request, carrying the
    extracted text as it stands, when a file was chosen, its text could be
    extracted and the text is not blank; in every other case it sends
    none. *)
Theorem upload_requests (w : World) (file : option File) (a : Answers) :
  requests (trace (dispatch (Upload file a) w))
  = requests (trace w)
    ++ match file with
       | Some f =>
           match extractText (currentFileType (ui w)) f with
           | inr extracted => if truthy (trim extracted) then [extracted] else []
           | inl _ => []
           end
       | None => []
       end.
Proof.
  destruct file as [file|]; [|rewrite upload_nothing; now rewrite List.app_nil_r].
  destruct (extractText (currentFileType (ui w)) file) as [e|extracted] eqn:Hex.
  { rewrite (upload_unreadable w file a e Hex). cbn [trace]. tally. }
  destruct (trim extracted) as [|c r] eqn:Ht.
  { rewrite (upload_blank w file a extracted Hex Ht). cbn [trace truthy]. tally. }
  assert (Hin : truthy (trim extracted) = true) by now rewrite Ht.
  rewrite <- Ht, Hin.
  pose proof (generate_requests extracted (serviceReply a)) as Hreq.
  destruct (generateStudyNotes extracted (serviceReply a))
    as [calls [e|v]] eqn:Hg; cbn [fst] in Hreq.
  - rewrite (upload_failed w file a extracted calls e Hex Hin Hg). cbn [trace].
    rewrite !requests_app, Hreq. tally.
  - rewrite (upload_generated w file a extracted calls v Hex Hin Hg). cbn [trace].
    rewrite !requests_app, Hreq. tally.
Qed.

Lemma dispatch_loading (ev : event) (w : World) :
  loading (ui (dispatch ev w)) = false
  \/ loading (ui (dispatch ev w)) = loading (ui w).
Proof.
  destruct ev as [s| | |t|file a|a|i].
  - right. now rewrite changed_text.
  - right. now rewrite cleared_text.
  - right. now rewrite toggled_menu.
  - right. now rewrite picked_type.
  - destruct file as [file|]; [|right; now rewrite upload_nothing].
    left.
    destruct (extractText (currentFileType (ui w)) file) as [e|extracted] eqn:Hex.
    { now rewrite (upload_unreadable w file a e Hex). }
    destruct (trim extracted) as [|c r] eqn:Ht.
    { now rewrite (upload_blank w file a extracted Hex Ht). }
    assert (Hin : truthy (trim extracted) = true) by now rewrite Ht.
    destruct (generateStudyNotes extracted (serviceReply a))
      as [calls [e|v]] eqn:Hg.
    + now rewrite (upload_failed w file a extracted calls e Hex Hin Hg).
    + now rewrite (upload_generated w file a extracted calls v Hex Hin Hg).
  - destruct (trim (inputText (ui w))) as [|c r] eqn:Ht.
    { right. now rewrite (submit_blank w a Ht). }
    left. assert (Hin : truthy (trim (inputText (ui w))) = true) by now rewrite Ht.
    destruct (generateStudyNotes (inputText (ui w)) (serviceReply a))
      as [calls [e|v]] eqn:Hg.
    + now rewrite (submit_failed w a calls e Hin Hg).
    + now rewrite (submit_generated w a calls v Hin Hg).
  - destruct (nth_error (history (ui w)) i) as [item|] eqn:Hi.
    + right. now rewrite (select_entry w i item Hi).
    + right. now rewrite (select_nothing w i Hi).
Qed.

(** Extra X3.  The loading flag is never left set: every handler that sets
    it clears it again in its [finally] block, whether the generation
    succeeded, failed, or was never reached; so from a component that is not
    loading, no sequence of interactions ends in one that is. *)
Theorem never_left_loading (w : World) (evs : list event) :
  loading (ui w) = false -> loading (ui (run evs w)) = false.
Proof.
  revert w. induction evs as [|ev evs IH]; intros w H; [exact H|].
  change (run (ev :: evs) w) with (run evs (dispatch ev w)). apply IH.
  destruct (dispatch_loading ev w) as [E|E]; congruence.
Qed.

Lemma never_left_loading_witness :
  loading (ui (run [Submit (proseAnswers 1); Upload (Some onePagePdf) (goodAnswers 2)]
                   (typed photosynthesis))) = false.
Proof.
  exact (never_left_loading (typed photosynthesis)
           [Submit (proseAnswers 1); Upload (Some onePagePdf) (goodAnswers 2)]
           eq_refl).
Defined.

(** Extra X4.  When the generation request of a submission is rejected, the
    error on display is the message of the rejection if it is an [Error],
    and "Analysis failed. Please try again." otherwise; the notes on
    display, the input text, the history and the storage stay as they were,
    and one request was made. *)
Theorem submit_rejected (w : World) (a : Answers) (e : thrown) :
  truthy (trim (inputText (ui w))) = true ->
  serviceReply a = Rejected e ->
  let w' := dispatch (Submit a) w in
  error (ui w')
  = Some (match e with
          | ErrorObject message => message
          | OtherThrown => lit "Analysis failed. Please try again."
          end)
  /\ notes (ui w') = notes (ui w)
  /\ inputText (ui w') = inputText (ui w)
  /\ history (ui w') = history (ui w)
  /\ storage w' = storage w
  /\ loading (ui w') = false
  /\ trace w' = trace w ++ [PreventDefault; SetLoading true; SetError None;
                            GenerateContent (inputText (ui w));
                            SetError (error (ui w')); SetLoading false].
Proof.
  intros Hin Hreply w'. subst w'.
  assert (Hg : generateStudyNotes (inputText (ui w)) (serviceReply a)
               = ([GenerateContent (inputText (ui w))], inl e))
    by now rewrite Hreply.
  rewrite (submit_failed w a _ e Hin Hg).
  cbn [ui storage trace error notes inputText history loading].
  destruct e; repeat split.
Qed.

Lemma submit_rejected_witness :
  error (ui (dispatch (Submit {| serviceReply := Rejected (ErrorObject (lit "429 quota"));
                                 nowForId := 1; nowForTimestamp := 1 |})
                      (typed photosynthesis)))
  = Some (lit "429 quota").
Proof.
  exact (proj1 (submit_rejected (typed photosynthesis)
                  {| serviceReply := Rejected (ErrorObject (lit "429 quota"));
                     nowForId := 1; nowForTimestamp := 1 |}
                  (ErrorObject (lit "429 quota")) eq_refl eq_refl)).
Defined.

(** Extra X5.  When the text of an uploaded file cannot be extracted, the
    upload ends with the message of the failure, or with "Error processing
    file." when the failure is not an [Error]; no generation request is
    made, the input text, the notes, the history and the storage stay as
    they were, the upload menu is closed and the file input is reset. *)
Theorem upload_unreadable_file (w : World) (file : File) (a : Answers) (e : thrown) :
  extractText (currentFileType (ui w)) file = inl e ->
  let w' := dispatch (Upload (Some file) a) w in
  error (ui w')
  = Some (match e with
          | ErrorObject message => message
          | OtherThrown => lit "Error processing file."
          end)
  /\ requests (trace w') = requests (trace w)
  /\ inputText (ui w') = inputText (ui w)
  /\ notes (ui w') = notes (ui w)
  /\ history (ui w') = history (ui w)
  /\ storage w' = storage w
  /\ loading (ui w') = false
  /\ showUploadMenu (ui w') = false
  /\ In ResetFileInput (trace w').
Proof.
  intros Hex w'. subst w'. rewrite (upload_unreadable w file a e Hex).
  cbn [ui storage trace error notes inputText history loading showUploadMenu].
  destruct e; repeat split; try tally;
    apply in_or_app; right; cbn; tauto.
Qed.

Lemma upload_unreadable_file_witness :
  error (ui (dispatch (Upload (Some onePagePdf) (goodAnswers 1)) (picked docx)))
  = Some (lit "Error processing file.").
Proof.
  exact (proj1 (upload_unreadable_file (picked docx) onePagePdf (goodAnswers 1)
                  OtherThrown eq_refl)).
Defined.

(** ** Extraction *)

Lemma pdfText_failure (before : list (list jsstring)) (e : thrown)
    (after : list (thrown + list jsstring)) (fullText : jsstring) :
  pdfText (map inr before ++ inl e :: after) fullText = inl e.
Proof.
  revert fullText. induction before as [|p before IH]; intros fullText;
    [reflexivity|].
  cbn [map app pdfText]. apply IH.
Qed.

(** Extra X6.  When a page of a PDF cannot be read, the extraction fails
    with the failure of the first such page: the text of the pages before
    it is dropped and the pages after it are not looked at; the upload then
    ends with that failure and sends no generation request. *)
Theorem pdf_page_failure (w : World) (file : File) (a : Answers)
    (before : list (list jsstring)) (e : thrown)
    (after : list (thrown + list jsstring)) :
  currentFileType (ui w) = Some pdf ->
  pdfPages file = inr (map inr before ++ inl e :: after) ->
  let w' := dispatch (Upload (Some file) a) w in
  extractText (Some pdf) file = inl e
  /\ error (ui w') = Some (messageOr (lit "Error processing file.") e)
  /\ inputText (ui w') = inputText (ui w)
  /\ requests (trace w') = requests (trace w).
Proof.
  intros Ht Hpages w'. subst w'.
  assert (Hex : extractText (Some pdf) file = inl e).
  { unfold extractText. rewrite Hpages. apply pdfText_failure. }
  split; [exact Hex|]. rewrite <- Ht in Hex.
  rewrite (upload_unreadable w file a e Hex). cbn [ui trace error inputText].
  repeat split. tally.
Qed.

Lemma pdf_page_failure_witness :
  extractText (Some pdf)
    {| mammothRawText := inr (lit "text");
       pdfPages := inr [inr [lit "page"; lit "one"];
                        inl (ErrorObject (lit "bad page"));
                        inr [lit "page three"]];
       fileText := inr (lit "text") |}
  = inl (ErrorObject (lit "bad page")).
Proof.
  exact (proj1 (pdf_page_failure (picked pdf)
                  {| mammothRawText := inr (lit "text");
                     pdfPages := inr [inr [lit "page"; lit "one"];
                                      inl (ErrorObject (lit "bad page"));
                                      inr [lit "page three"]];
                     fileText := inr (lit "text") |}
                  (goodAnswers 1) [[lit "page"; lit "one"]]
                  (ErrorObject (lit "bad page")) [inr [lit "page three"]]
                  eq_refl eq_refl)).
Defined.

Lemma join_blank (items : list jsstring) :
  Forall (fun item => forallb isWhiteSpace item = true) items ->
  forallb isWhiteSpace (join [32] items) = true.
Proof.
  induction 1 as [|x items Hx _ IH]; [reflexivity|].
  destruct items as [|y items]; [exact Hx|].
  rewrite join_more, !forallb_app, Hx.
  cbn [andb]. apply andb_true_iff. split; [reflexivity|exact IH].
Qed.

Lemma pages_blank (pages : list (list jsstring)) :
  Forall (Forall (fun item => forallb isWhiteSpace item = true)) pages ->
  forallb isWhiteSpace
    (concat (map (fun items => join [32] items ++ [10]) pages)) = true.
Proof.
  induction 1 as [|p pages Hp _ IH]; [reflexivity|].
  cbn [map concat]. rewrite !forallb_app, (join_blank p Hp).
  cbn [andb]. apply andb_true_iff. split; [reflexivity|exact IH].
Qed.

Lemma pdfText_all (pages : list (list jsstring)) (fullText : jsstring) :
  pdfText (map inr pages) fullText
  = inr (fullText ++ concat (map (fun items => join [32] items ++ [10]) pages)).
Proof.
  revert fullText. induction pages as [|p pages IH]; intros fullText.
  - cbn. now rewrite List.app_nil_r.
  - cbn [map pdfText concat]. rewrite IH. now rewrite <- !app_assoc.
Qed.

(** Extra X7.  A PDF whose pages hold no text, or white space only (a
    scanned document, a PDF without pages), is turned away as an empty
    document: the spaces and newlines that the extraction itself puts
    between fragments and after pages do not count as content, and no
    generation request is sent. *)
Theorem pdf_without_text_is_empty (w : World) (file : File) (a : Answers)
    (pages : list (list jsstring)) :
  currentFileType (ui w) = Some pdf ->
  pdfPages file = inr (map inr pages) ->
  Forall (Forall (fun item => forallb isWhiteSpace item = true)) pages ->
  let w' := dispatch (Upload (Some file) a) w in
  error (ui w') = Some (lit "Document appears to be empty.")
  /\ requests (trace w') = requests (trace w)
  /\ inputText (ui w') = inputText (ui w)
  /\ history (ui w') = history (ui w).
Proof.
  intros Ht Hpages Hblank w'. subst w'.
  assert (Hex : extractText (currentFileType (ui w)) file
                = inr (concat (map (fun items => join [32] items ++ [10]) pages))).
  { rewrite Ht. unfold extractText. rewrite Hpages. apply pdfText_all. }
  assert (Htrim : trim (concat (map (fun items => join [32] items ++ [10]) pages)) = []).
  { apply trim_blank. now apply pages_blank. }
  rewrite (upload_blank w file a _ Hex Htrim). cbn [ui trace error inputText history].
  repeat split. tally.
Qed.

Lemma pdf_without_text_is_empty_witness :
  error (ui (dispatch (Upload (Some {| mammothRawText := inl OtherThrown;
                                       pdfPages := inr [inr []; inr [[32]; []]; inr []];
                                       fileText := inl OtherThrown |})
                              (goodAnswers 1))
                      (picked pdf)))
  = Some (lit "Document appears to be empty.").
Proof.
  refine (proj1 (pdf_without_text_is_empty (picked pdf)
                   {| mammothRawText := inl OtherThrown;
                      pdfPages := inr [inr []; inr [[32]; []]; inr []];
                      fileText := inl OtherThrown |}
                   (goodAnswers 1) [[]; [[32]; []]; []] eq_refl eq_refl _)).
  repeat constructor.
Defined.

(** ** The history and the storage *)

Lemma getItem_setItem_other (key key' data : jsstring) (st : Storage) :
  jsstring_eqb key' key = false ->
  getItem key (setItem key' data st) = getItem key st.
Proof.
  intros Hk.
  assert (Hsym : forall k, jsstring_eqb k key' = true -> jsstring_eqb k key = false).
  { intros k Hkk. unfold jsstring_eqb in *.
    destruct (list_eq_dec N.eq_dec k key'); [subst|discriminate].
    exact Hk. }
  induction st as [|[k d] st IH]; cbn [setItem getItem].
  - now rewrite Hk.
  - destruct (jsstring_eqb k key') eqn:E; cbn [getItem].
    + now rewrite (Hsym k E).
    + now rewrite IH.
Qed.

Lemma setItem_setItem (key d1 d2 : jsstring) (st : Storage) :
  setItem key d2 (setItem key d1 st) = setItem key d2 st.
Proof.
  induction st as [|[k d] st IH]; cbn [setItem].
  - now rewrite jsstring_eqb_refl.
  - destruct (jsstring_eqb k key) eqn:E; cbn [setItem]; rewrite E; [reflexivity|].
    now rewrite IH.
Qed.

Lemma setItem_same (key data : jsstring) (st : Storage) :
  getItem key st = Some data -> setItem key data st = st.
Proof.
  induction st as [|[k d] st IH]; cbn [setItem getItem]; [discriminate|].
  destruct (jsstring_eqb k key); intros H.
  - now injection H as ->.
  - now rewrite IH.
Qed.

(** Extra X8.  On a page that is on display, the history and what is stored
    under the history key change only through a generation that succeeds
    with notes the page can show: every other interaction (the click on the
    theme button and the failed generations among them) leaves both as they
    were; such a generation records one item and writes the text of the
    whole new history under the key; and an interaction after which the
    render throws takes the component off the page and leaves the storage
    as it was. *)
Theorem history_changes_by_generation (c : Component) (i : interaction) (w : World) :
  page c = Mounted w ->
  renders (ui w) = true ->
  match page (act i c) with
  | Mounted w' =>
      (history (ui w') = history (ui w)
       /\ getItem historyKey (storage w') = getItem historyKey (storage w))
      \/ (exists ev item,
            i = Use ev
            /\ generated ev w = Some item
            /\ displayable (Types.notes item) = true
            /\ history (ui w') = record item (history (ui w))
            /\ storage w'
               = setItem historyKey
                   (JSON_stringify (value_of_history (history (ui w'))))
                   (storage w))
  | Unmounted stored _ =>
      stored = storage w
      /\ ((exists ev item, i = Use ev /\ generated ev w = Some item
                           /\ displayable (Types.notes item) = false)
          \/ (exists index item, i = Use (Select index)
                                 /\ nth_error (history (ui w)) index = Some item
                                 /\ rendersNotes (Types.notes item) = false))
  end.
Proof.
  intros Hp Hw. destruct i as [ev|]; unfold act; rewrite Hp; cbn [page].
  - pose proof (dispatch_generated ev w) as Hd.
    destruct (renders (ui (dispatch ev w))) eqn:Hr.
    + rewrite (interact_mounted ev w Hr).
      destruct (generated ev w) as [item|] eqn:Hg.
      * destruct Hd as (Hh & Hs & _). right. exists ev, item.
        rewrite <- (renders_recorded w ev item Hw Hg), Hh, Hs. auto.
      * destruct Hd as (Hh & Hs & _). left. now rewrite Hh, Hs.
    + rewrite (interact_unmounted ev w Hr). split; [reflexivity|].
      destruct (generated ev w) as [item|] eqn:Hg.
      * left. exists ev, item. rewrite <- (renders_recorded w ev item Hw Hg). auto.
      * right. rewrite (renders_kept w ev Hw Hg) in Hr.
        apply renders_state in Hw as [Hn _].
        destruct ev as [s| | |t|file a|a|index]; cbn [notesKept] in Hr;
          try (destruct (notes (ui w)); congruence).
        destruct (nth_error (history (ui w)) index) as [item|] eqn:Hi;
          [|destruct (notes (ui w)); congruence].
        exists index, item. auto.
  - unfold toggleOn. cbn [page ui storage]. left. split; [reflexivity|].
    unfold toggleTheme, themeEffect. cbn [themeStorage isDarkMode].
    now apply getItem_setItem_other.
Qed.

Lemma history_changes_by_generation_witness :
  getItem historyKey
    (match page (act ToggleTheme {| page := Mounted full; dark := false;
                                    darkClassSet := false |}) with
     | Mounted w' => storage w'
     | Unmounted stored _ => stored
     end)
  = getItem historyKey (storage full)
  /\ getItem themeKey
       (match page (act ToggleTheme {| page := Mounted full; dark := false;
                                       darkClassSet := false |}) with
        | Mounted w' => storage w'
        | Unmounted stored _ => stored
        end)
     = Some (lit "dark").
Proof.
  pose proof (history_changes_by_generation
                {| page := Mounted full; dark := false; darkClassSet := false |}
                ToggleTheme full eq_refl eq_refl) as H.
  cbn [act page toggleOn] in H. cbn [act page toggleOn].
  destruct H as [[_ H]|(ev & item & Hev & _)]; [|discriminate Hev].
  split; [exact H|reflexivity].
Defined.

Lemma dispatch_inSync (ev : event) (w : World) : inSync w -> inSync (dispatch ev w).
Proof.
  unfold inSync. intros H.
  destruct (dispatch_outcome ev w) as [Hh Hs _|a source calls v _ _ _ _ Hs _ _].
  - now rewrite Hh, Hs.
  - rewrite Hs at 1. apply getItem_setItem.
Qed.

Lemma mount_inSync (stored : Storage) (w : World) : mount stored = Some w -> inSync w.
Proof.
  unfold mount, inSync.
  destruct (getItem historyKey stored) as [saved|].
  - destruct (truthy saved).
    + destruct (JSON_parse saved) as [v|].
      * destruct (history_of_value v) as [h|]; [|discriminate].
        intros H. injection H as <-. apply getItem_setItem.
      * intros H. injection H as <-. apply getItem_setItem.
    + intros H. injection H as <-. apply getItem_setItem.
  - intros H. injection H as <-. apply getItem_setItem.
Qed.

Lemma run_inSync (evs : list event) (w : World) : inSync w -> inSync (run evs w).
Proof.
  revert w. induction evs as [|ev evs IH]; intros w Hw; [exact Hw|].
  change (run (ev :: evs) w) with (run evs (dispatch ev w)).
  apply IH. now apply dispatch_inSync.
Qed.

(** Extra X9.  From the first render on, after whatever sequence of
    interactions, the storage holds under the history key the JSON text of
    exactly the history on display: the persisting effect never lags behind
    and text that could not be parsed at the start has been replaced. *)
Theorem storage_follows_history (stored : Storage) (w : World) (evs : list event) :
  mount stored = Some w ->
  getItem historyKey (storage (run evs w))
  = Some (JSON_stringify (value_of_history (history (ui (run evs w))))).
Proof. intros Hm. now apply run_inSync, mount_inSync with (stored := stored). Qed.

Lemma storage_follows_history_witness :
  getItem historyKey
    (storage (run [Change photosynthesis; Submit (goodAnswers 7)]
                  {| ui := initialState;
                     storage := [(historyKey, lit "[]")];
                     trace := [GetItem historyKey; ConsoleError (lit "History parse failed");
                               SetItem historyKey (lit "[]")] |}))
  = Some (JSON_stringify (value_of_history (history (ui
      (run [Change photosynthesis; Submit (goodAnswers 7)]
           {| ui := initialState;
              storage := [(historyKey, lit "[]")];
              trace := [GetItem historyKey; ConsoleError (lit "History parse failed");
                        SetItem historyKey (lit "[]")] |}))))).
Proof.
  exact (storage_follows_history [(historyKey, lit "not json")] _
           [Change photosynthesis; Submit (goodAnswers 7)] eq_refl).
Defined.

Lemma mount_synced (st : Storage) (h : list NoteHistoryItem) :
  getItem historyKey st = Some (JSON_stringify (value_of_history h)) ->
  Forall (fun it => storableItem it = true) h ->
  exists w, mount st = Some w /\ history (ui w) = h /\ storage w = st
            /\ notes (ui w) = None
            /\ trace w = [GetItem historyKey; SetHistory h;
                          SetItem historyKey (lit "[]");
                          SetItem historyKey (JSON_stringify (value_of_history h))].
Proof.
  intros Hget Hst. unfold mount. rewrite Hget.
  assert (Htruthy : truthy (JSON_stringify (value_of_history h)) = true) by reflexivity.
  rewrite Htruthy, (JSON_parse_stringify _ (storable_history h Hst)).
  rewrite history_of_value_of_history.
  eexists. split; [reflexivity|].
  unfold initialWorld. run_handler. step.
  repeat split.
  rewrite setItem_setItem. now apply setItem_same.
Qed.

Lemma start_mounted (stored : Storage) (w : World) :
  start stored = Some (Mounted w) -> mount stored = Some w /\ renders (ui w) = true.
Proof.
  unfold start. destruct (mount stored) as [w0|]; [|discriminate].
  destruct (renders (ui w0)) eqn:Hr; [|discriminate].
  intros H. injection H as <-. auto.
Qed.

(** Extra X10.  Closing the page after a session that left the component on
    it and opening it again brings back the history that was on display,
    item for item, and shows it, when the timestamps in it are whole numbers
    below [2^53], as the readings of [Date.now()] are, and the notes are
    objects of JavaScript holding no other numbers (notes of the shape of
    the schema are such); the storage is left as it was found, though on
    the way the persisting effect writes the empty list over it before the
    loaded history is written back. *)
Theorem reload_restores_history (stored : Storage) (p : Page) (w : World)
    (evs : list event) :
  start stored = Some p ->
  session evs p = Mounted w ->
  Forall (fun it => storableItem it = true) (history (ui w)) ->
  exists w',
    start (storage w) = Some (Mounted w')
    /\ history (ui w') = history (ui w)
    /\ storage w' = storage w
    /\ trace w' = [GetItem historyKey;
                   SetHistory (history (ui w));
                   SetItem historyKey (lit "[]");
                   SetItem historyKey
                     (JSON_stringify (value_of_history (history (ui w))))].
Proof.
  intros Hstart Hsession Hst.
  destruct p as [w0|st done]; [|now rewrite session_unmounted in Hsession].
  apply start_mounted in Hstart as [Hm Hr0].
  pose proof (session_renders evs w0 w Hr0 Hsession) as Hr.
  apply session_run in Hsession. subst w.
  assert (Hsync : inSync (run evs w0))
    by now apply run_inSync, mount_inSync with (stored := stored).
  destruct (mount_synced _ _ Hsync Hst) as (w' & Hm' & Hh & Hs & Hn & Ht).
  exists w'. unfold start. rewrite Hm'.
  assert (Hr' : renders (ui w') = true).
  { apply renders_state in Hr as [_ Hold]. unfold renders. now rewrite Hn, Hh, Hold. }
  rewrite Hr'. auto.
Qed.

Lemma reload_restores_history_witness :
  exists w',
    start (storage (run [Change photosynthesis; Submit (goodAnswers 1700000000000)]
                        {| ui := initialState;
                           storage := [(historyKey, lit "[]")];
                           trace := [GetItem historyKey;
                                     SetItem historyKey (lit "[]")] |}))
    = Some (Mounted w')
    /\ history (ui w') = [sampleItem].
Proof.
  assert (Hh : history (ui (run [Change photosynthesis;
                                 Submit (goodAnswers 1700000000000)]
                                {| ui := initialState;
                                   storage := [(historyKey, lit "[]")];
                                   trace := [GetItem historyKey;
                                             SetItem historyKey (lit "[]")] |}))
               = [sampleItem]) by (vm_compute; reflexivity).
  destruct (reload_restores_history []
              (Mounted {| ui := initialState;
                          storage := [(historyKey, lit "[]")];
                          trace := [GetItem historyKey;
                                    SetItem historyKey (lit "[]")] |})
              (run [Change photosynthesis; Submit (goodAnswers 1700000000000)]
                   {| ui := initialState;
                      storage := [(historyKey, lit "[]")];
                      trace := [GetItem historyKey;
                                SetItem historyKey (lit "[]")] |})
              [Change photosynthesis; Submit (goodAnswers 1700000000000)]
              eq_refl ltac:(vm_compute; reflexivity))
    as (w' & Hm & Hh' & _).
  - rewrite Hh. constructor; [vm_compute; reflexivity|constructor].
  - exists w'. split; [exact Hm|]. now rewrite Hh', Hh.
Defined.

(** The keys of the storage other than the history key. *)
Lemma mount_other_keys (stored : Storage) (w : World) (key : jsstring) :
  mount stored = Some w ->
  jsstring_eqb historyKey key = false ->
  getItem key (storage w) = getItem key stored.
Proof.
  unfold mount. intros Hm Hk.
  assert (H1 : forall d, getItem key (setItem historyKey d stored) = getItem key stored)
    by (intros d; now apply getItem_setItem_other).
  assert (H2 : forall d d', getItem key (setItem historyKey d (setItem historyKey d' stored))
                            = getItem key stored).
  { intros d d'. rewrite getItem_setItem_other by assumption. apply H1. }
  destruct (getItem historyKey stored) as [saved|].
  - destruct (truthy saved).
    + destruct (JSON_parse saved) as [v|].
      * destruct (history_of_value v) as [h|]; [|discriminate].
        injection Hm as <-. apply H2.
      * injection Hm as <-. apply H1.
    + injection Hm as <-. apply H1.
  - injection Hm as <-. apply H1.
Qed.

(** Extra X11.  The effects on the history and the handlers write the
    storage under the history key only: whatever is stored under any other
    key is the same after they ran, at the first render and in every
    interaction, as it was before.  (The key of the theme is written by the
    effect on the theme, see [Theme].) *)
Theorem other_keys_untouched (stored : Storage) (w : World) (evs : list event)
    (key : jsstring) :
  mount stored = Some w ->
  jsstring_eqb historyKey key = false ->
  getItem key (storage (run evs w)) = getItem key stored.
Proof.
  intros Hm Hk. rewrite <- (mount_other_keys stored w key Hm Hk).
  clear Hm. revert w. induction evs as [|ev evs IH]; intros w; [reflexivity|].
  change (run (ev :: evs) w) with (run evs (dispatch ev w)). rewrite IH.
  destruct (dispatch_outcome ev w) as [_ Hs _|a source calls v _ _ _ _ Hs _ _].
  - now rewrite Hs.
  - rewrite Hs. now apply getItem_setItem_other.
Qed.

Lemma other_keys_untouched_witness :
  getItem themeKey
    (storage (run [Change photosynthesis; Submit (goodAnswers 3)]
                  {| ui := initialState;
                     storage := [(themeKey, lit "dark"); (historyKey, lit "[]")];
                     trace := [GetItem historyKey; SetItem historyKey (lit "[]")] |}))
  = Some (lit "dark").
Proof.
  exact (other_keys_untouched [(themeKey, lit "dark")] _
           [Change photosynthesis; Submit (goodAnswers 3)] themeKey
           eq_refl eq_refl).
Defined.

Lemma firstn_record (item : NoteHistoryItem) (l : list NoteHistoryItem) :
  record item (firstn 10 l) = firstn 10 (item :: l).
Proof.
  unfold record. rewrite !firstn_cons. f_equal.
  rewrite firstn_firstn. reflexivity.
Qed.

(** Extra X12.  Recording items one after another into a history of at most
    ten leaves the ten most recent of all, the newest first: the items
    recorded, latest first, followed by the old ones, cut after the tenth. *)
Theorem recorded_are_most_recent (items h : list NoteHistoryItem) :
  (length h <= 10)%nat ->
  fold_left (fun prev item => record item prev) items h
  = firstn 10 (rev items ++ h).
Proof.
  intros Hlen. induction items as [|item items IH] using rev_ind.
  - cbn [fold_left rev app]. symmetry. now apply firstn_all2.
  - rewrite fold_left_app. cbn [fold_left]. rewrite IH.
    rewrite rev_app_distr. cbn [rev app]. apply firstn_record.
Qed.

Lemma recorded_are_most_recent_witness :
  fold_left (fun prev item => record item prev)
    (map (fun n => {| id := Z_toString n; timestamp := Integer n;
                      originalText := []; Types.notes := JNull |})
         [1; 2; 3; 4; 5; 6; 7; 8; 9; 10; 11; 12]%Z)
    []
  = map (fun n => {| id := Z_toString n; timestamp := Integer n;
                     originalText := []; Types.notes := JNull |})
        [12; 11; 10; 9; 8; 7; 6; 5; 4; 3]%Z.
Proof.
  exact (recorded_are_most_recent
           (map (fun n => {| id := Z_toString n; timestamp := Integer n;
                             originalText := []; Types.notes := JNull |})
                [1; 2; 3; 4; 5; 6; 7; 8; 9; 10; 11; 12]%Z)
           [] (Nat.le_0_l 10)).
Defined.

(** Extra X13.  After a generation that succeeds with notes the page can
    show, on a page that is on display, the component stays on the page, the
    notes are on display, an earlier error is gone, and the newest history
    entry holds what is on display: the text as it was sent and the notes
    as they came; choosing that entry changes nothing on the page. *)
Theorem newest_entry_is_on_display (w : World) (a : Answers)
    (calls : list action) (v : value) :
  renders (ui w) = true ->
  truthy (trim (inputText (ui w))) = true ->
  generateStudyNotes (inputText (ui w)) (serviceReply a) = (calls, inr v) ->
  displayable v = true ->
  exists w',
    interact (Submit a) (Mounted w) = Mounted w'
    /\ notes (ui w') = Some v
    /\ error (ui w') = None
    /\ inputText (ui w') = inputText (ui w)
    /\ (exists item, nth_error (history (ui w')) 0 = Some item
                     /\ originalText item = inputText (ui w)
                     /\ Types.notes item = v)
    /\ exists w'', interact (Select 0) (Mounted w') = Mounted w''
                   /\ ui w'' = ui w'
                   /\ storage w'' = storage w'.
Proof.
  intros Hw Hin Hg Hv.
  assert (Hgen : generated (Submit a) w = Some (newItem a (inputText (ui w)) v))
    by exact (generatedItem_some _ _ _ _ Hin Hg).
  assert (Hr : renders (ui (dispatch (Submit a) w)) = true)
    by now rewrite (renders_recorded w _ _ Hw Hgen).
  exists (dispatch (Submit a) w). rewrite (interact_mounted _ _ Hr).
  split; [reflexivity|].
  assert (Hsel : ui (dispatch (Select 0) (dispatch (Submit a) w))
                 = ui (dispatch (Submit a) w)
                 /\ storage (dispatch (Select 0) (dispatch (Submit a) w))
                    = storage (dispatch (Submit a) w)).
  { rewrite (submit_generated w a calls v Hin Hg).
    erewrite select_entry by reflexivity. split; reflexivity. }
  destruct Hsel as [Hu Hs].
  assert (Hr' : renders (ui (dispatch (Select 0) (dispatch (Submit a) w))) = true)
    by now rewrite Hu.
  rewrite (interact_mounted _ _ Hr').
  rewrite (submit_generated w a calls v Hin Hg) in *.
  cbn [ui storage notes error inputText history].
  split; [reflexivity|]. split; [reflexivity|]. split; [reflexivity|].
  split; [eexists; repeat split|].
  eexists. split; [reflexivity|]. split; assumption.
Qed.

Lemma newest_entry_is_on_display_witness :
  exists w',
    interact (Submit (goodAnswers 1)) (Mounted (typed photosynthesis)) = Mounted w'
    /\ exists w'', interact (Select 0) (Mounted w') = Mounted w'' /\ ui w'' = ui w'.
Proof.
  destruct (newest_entry_is_on_display (typed photosynthesis) (goodAnswers 1)
              [GenerateContent photosynthesis] (value_of_StudyNotes sampleNotes)
              eq_refl eq_refl eq_refl eq_refl)
    as (w' & H1 & _ & _ & _ & _ & w'' & H2 & H3 & _).
  exists w'. split; [exact H1|]. exists w''. split; assumption.
Defined.

(** ** What is shown *)

Lemma startsWith_prefix (sep s : jsstring) :
  startsWith sep s = true <-> exists rest, s = sep ++ rest.
Proof.
  revert s. induction sep as [|c sep IH]; intros s; cbn [startsWith].
  - split; [intros _; exists s; reflexivity|reflexivity].
  - destruct s as [|d r].
    + split; [discriminate|]. intros (rest & H). discriminate.
    + rewrite andb_true_iff, N.eqb_eq, IH. split.
      * intros (-> & rest & ->). exists rest. reflexivity.
      * intros (rest & H). injection H as -> ->. split; [reflexivity|].
        exists rest. reflexivity.
Qed.

Lemma splitFrom_skip (sep : jsstring) (k : nat) :
  forall s piece, (k <= length s)%nat ->
  splitFrom sep k piece s = splitFrom sep 0 piece (skipn k s).
Proof.
  induction k as [|k IH]; intros s piece Hk; [reflexivity|].
  destruct s as [|c r]; [cbn in Hk; lia|].
  cbn [splitFrom skipn]. apply IH. cbn in Hk. lia.
Qed.

Lemma splitFrom_nonempty (sep : jsstring) (s : jsstring) :
  forall k piece, splitFrom sep k piece s <> [].
Proof.
  induction s as [|c r IH]; intros k piece; cbn [splitFrom]; [discriminate|].
  destruct k; [|apply IH]. destruct (startsWith sep (c :: r)); [discriminate|apply IH].
Qed.

Lemma join_cons (sep x : jsstring) (l : list jsstring) :
  l <> [] -> join sep (x :: l) = x ++ sep ++ join sep l.
Proof. destruct l; [congruence|reflexivity]. Qed.

(** At an occurrence of the separator, what [splitFrom] does. *)
Lemma splitFrom_match (c : N) (sep piece rest : jsstring) :
  splitFrom (c :: sep) 0 piece ((c :: sep) ++ rest)
  = rev piece :: splitFrom (c :: sep) 0 [] rest.
Proof.
  cbn [app]. cbn [splitFrom].
  assert (H : startsWith (c :: sep) (c :: sep ++ rest) = true)
    by (apply startsWith_prefix; exists rest; reflexivity).
  rewrite H. cbn [length].
  replace (S (length sep) - 1)%nat with (length sep) by lia.
  rewrite splitFrom_skip by (rewrite length_app; lia).
  now rewrite skipn_app, skipn_all, Nat.sub_diag.
Qed.

Lemma splitFrom_pass (sep piece : jsstring) (c : N) (r : jsstring) :
  startsWith sep (c :: r) = false ->
  splitFrom sep 0 piece (c :: r) = splitFrom sep 0 (c :: piece) r.
Proof. intros H. cbn [splitFrom]. now rewrite H. Qed.

Lemma join_splitFrom (sep : jsstring) (n : nat) :
  sep <> [] ->
  forall s piece, (length s <= n)%nat ->
  join sep (splitFrom sep 0 piece s) = rev piece ++ s.
Proof.
  intros Hsep. induction n as [|n IH]; intros s piece Hn.
  - destruct s; [|cbn in Hn; lia]. cbn. now rewrite List.app_nil_r.
  - destruct s as [|c r]; [cbn; now rewrite List.app_nil_r|].
    destruct (startsWith sep (c :: r)) eqn:E.
    + apply startsWith_prefix in E as (rest & E). rewrite E.
      destruct sep as [|c0 sep]; [congruence|].
      rewrite splitFrom_match, join_cons by apply splitFrom_nonempty.
      rewrite IH; [reflexivity|].
      apply (f_equal (@length N)) in E. rewrite length_app in E.
      cbn [length] in E, Hn. lia.
    + rewrite splitFrom_pass by assumption.
      rewrite IH by (cbn [length] in Hn; lia).
      cbn [rev]. now rewrite <- app_assoc.
Qed.

Lemma app_same_length {A} (a b x y : list A) :
  length a = length b -> a ++ x = b ++ y -> x = y.
Proof.
  revert b. induction a as [|u a IH]; intros [|v b] Hlen H; cbn in *;
    try discriminate; [assumption|].
  injection H as _ H. injection Hlen as Hlen. eauto.
Qed.

Lemma pieces_without_separator (sep : jsstring) (n : nat) :
  sep <> [] ->
  forall s piece, (length s <= n)%nat ->
  (forall before after, rev piece ++ s = before ++ sep ++ after ->
                        (length piece <= length before)%nat) ->
  Forall (fun p => ~ occursIn sep p) (splitFrom sep 0 piece s).
Proof.
  intros Hsep.
  assert (Hclosed : forall piece s,
            (forall before after, rev piece ++ s = before ++ sep ++ after ->
                                  (length piece <= length before)%nat) ->
            ~ occursIn sep (rev piece)).
  { intros piece s Hinv (before & after & E).
    specialize (Hinv before (after ++ s)).
    rewrite E, <- !app_assoc in Hinv. specialize (Hinv eq_refl).
    apply (f_equal (@length N)) in E.
    rewrite length_rev, !length_app in E.
    destruct sep; [congruence|]. cbn [length] in E. lia. }
  induction n as [|n IH]; intros s piece Hn Hinv.
  - destruct s; [|cbn in Hn; lia]. cbn [splitFrom].
    constructor; [|constructor]. now apply (Hclosed piece []).
  - destruct s as [|c r].
    { cbn [splitFrom]. constructor; [|constructor]. now apply (Hclosed piece []). }
    destruct (startsWith sep (c :: r)) eqn:E.
    + pose proof E as E'. apply startsWith_prefix in E' as (rest & E').
      destruct sep as [|c0 sep]; [congruence|].
      rewrite E', splitFrom_match. constructor.
      * apply (Hclosed piece (c :: r)). exact Hinv.
      * apply IH.
        -- apply (f_equal (@length N)) in E'. rewrite length_app in E'.
           cbn [length] in E', Hn. lia.
        -- intros; cbn [length]; lia.
    + rewrite splitFrom_pass by assumption. apply IH.
      * cbn [length] in Hn. lia.
      * intros before after Hocc. cbn [rev] in Hocc. rewrite <- app_assoc in Hocc.
        cbn [app] in Hocc. pose proof (Hinv before after Hocc) as Hle.
        cbn [length].
        destruct (Nat.eq_dec (length piece) (length before)) as [Heq|]; [|lia].
        exfalso. rewrite <- length_rev in Heq.
        apply (app_same_length _ _ _ _ Heq) in Hocc.
        assert (Hs : startsWith sep (c :: r) = true)
          by (apply startsWith_prefix; exists after; exact Hocc).
        congruence.
Qed.

(** Extra X14.  The paragraphs of the detailed explanation lose nothing of
    it: put together again with blank lines between them they are the
    explanation; there is always at least one paragraph, the empty one for
    an empty explanation; and no paragraph holds a blank line. *)
Theorem paragraphs_partition (explanation : jsstring) :
  join [10; 10] (paragraphs explanation) = explanation
  /\ paragraphs explanation <> []
  /\ Forall (fun p => ~ occursIn [10; 10] p) (paragraphs explanation)
  /\ paragraphs [] = [[]].
Proof.
  unfold paragraphs, split. repeat split.
  - now apply (join_splitFrom [10; 10] (length explanation)).
  - apply splitFrom_nonempty.
  - apply (pieces_without_separator [10; 10] (length explanation));
      [discriminate|lia|]. intros; cbn [length]; lia.
Qed.

Lemma nextLoadingStep_iter (n : nat) :
  Nat.iter n nextLoadingStep 0%nat = (n mod 5)%nat.
Proof.
  induction n as [|n IH]; [reflexivity|].
  change (Nat.iter (S n) nextLoadingStep 0%nat)
    with (nextLoadingStep (Nat.iter n nextLoadingStep 0%nat)).
  rewrite IH. unfold nextLoadingStep.
  change (length loadingMessages) with 5%nat.
  rewrite Nat.Div0.add_mod_idemp_l. f_equal. lia.
Qed.

(** Extra X15.  The label of the submit button is always defined: the step
    of the rotation starts at zero and is only ever advanced by the updater
    of the interval, so after any number of ticks it is the number of ticks
    modulo five and points at one of the five loading messages. *)
Theorem loading_label_rotates (ticks : nat) (isLoading : bool) :
  let loadingStep := Nat.iter ticks nextLoadingStep 0%nat in
  loadingStep = (ticks mod 5)%nat
  /\ (loadingStep < length loadingMessages)%nat
  /\ (exists label, submitLabel isLoading loadingStep = Some label)
  /\ Nat.iter 5 nextLoadingStep loadingStep = loadingStep.
Proof.
  cbv zeta. rewrite nextLoadingStep_iter.
  assert (Hlt : (ticks mod 5 < 5)%nat) by (apply Nat.mod_upper_bound; discriminate).
  split; [reflexivity|]. split; [exact Hlt|]. split.
  - unfold submitLabel. destruct isLoading; [|eauto].
    destruct (nth_error loadingMessages (ticks mod 5)) as [label|] eqn:E; [eauto|].
    apply nth_error_None in E. change (length loadingMessages) with 5%nat in E. lia.
  - rewrite <- (nextLoadingStep_iter ticks) at 1.
    rewrite <- Nat.iter_add, nextLoadingStep_iter.
    rewrite <- Nat.Div0.add_mod_idemp_l, Nat.Div0.mod_same. reflexivity.
Qed.

(** ** The schema and the interface *)

Lemma conforming_string (x : value) :
  conforms STRING x = true -> exists s, asString (Some x) = Some s.
Proof. destruct x; cbn; try discriminate. eauto. Qed.

Lemma conforming_array {A} (sc : Schema) (read : value -> option A) (x : value) :
  (forall y, conforms sc y = true -> exists r, read y = Some r) ->
  conforms (ARRAY sc) x = true -> exists l, asArray read (Some x) = Some l.
Proof.
  intros Hread. destruct x as [| | | |vs|]; try discriminate.
  rewrite conforms_array. cbn [asArray].
  induction vs as [|y vs IH]; cbn [forallb allOf]; [eauto|].
  rewrite andb_true_iff. intros [Hy Hvs].
  destruct (Hread y Hy) as (r & ->). destruct (IH Hvs) as (l & ->). eauto.
Qed.

Lemma conforming_Mcq (y : value) :
  conforms (OBJECT [(lit "question", STRING); (lit "options", ARRAY STRING);
                    (lit "answer", STRING)]
                   [lit "question"; lit "options"; lit "answer"]) y = true ->
  exists q, Mcq_of_value y = Some q.
Proof.
  intros H. destruct (conforming_object _ _ _ H) as (ms & ->). unfold Mcq_of_value.
  required H (lit "question"). destruct (conforming_string _ Hc) as (q & ->).
  required H (lit "options").
  destruct (conforming_array STRING string_of_value _ conforming_string Hc0) as (o & ->).
  required H (lit "answer"). destruct (conforming_string _ Hc1) as (a & ->).
  eauto.
Qed.

Lemma conforming_ShortAnswer (y : value) :
  conforms (OBJECT [(lit "question", STRING); (lit "answer", STRING)]
                   [lit "question"; lit "answer"]) y = true ->
  exists q, ShortAnswer_of_value y = Some q.
Proof.
  intros H. destruct (conforming_object _ _ _ H) as (ms & ->).
  unfold ShortAnswer_of_value.
  required H (lit "question"). destruct (conforming_string _ Hc) as (q & ->).
  required H (lit "answer"). destruct (conforming_string _ Hc0) as (a & ->).
  eauto.
Qed.

Lemma conforming_ExamStyle (y : value) :
  conforms (OBJECT [(lit "question", STRING); (lit "modelAnswer", STRING)]
                   [lit "question"; lit "modelAnswer"]) y = true ->
  exists q, ExamStyle_of_value y = Some q.
Proof.
  intros H. destruct (conforming_object _ _ _ H) as (ms & ->).
  unfold ExamStyle_of_value.
  required H (lit "question"). destruct (conforming_string _ Hc) as (q & ->).
  required H (lit "modelAnswer"). destruct (conforming_string _ Hc0) as (a & ->).
  eauto.
Qed.

Lemma allOf_map {A} (read : value -> option A) (write : A -> value) (l : list A) :
  (forall x, read (write x) = Some x) -> allOf read (map write l) = Some l.
Proof.
  intros H. induction l as [|x l IH]; [reflexivity|].
  cbn [map allOf]. now rewrite H, IH.
Qed.

Lemma read_strings (l : list jsstring) (v : value) :
  v = strings l -> asArray string_of_value (Some v) = Some l.
Proof. intros ->. unfold strings. cbn [asArray]. now apply allOf_map. Qed.

Lemma Mcq_of_value_of_Mcq (q : Mcq) : Mcq_of_value (value_of_Mcq q) = Some q.
Proof.
  destruct q as [q o a]. unfold value_of_Mcq, Mcq_of_value. cbn [mcq_question options mcq_answer].
  find_property. cbn [asString].
  now rewrite (read_strings o _ eq_refl).
Qed.

Lemma ShortAnswer_of_value_of_ShortAnswer (q : ShortAnswer) :
  ShortAnswer_of_value (value_of_ShortAnswer q) = Some q.
Proof.
  destruct q as [q a]. unfold value_of_ShortAnswer, ShortAnswer_of_value.
  find_property. reflexivity.
Qed.

Lemma ExamStyle_of_value_of_ExamStyle (q : ExamStyle) :
  ExamStyle_of_value (value_of_ExamStyle q) = Some q.
Proof.
  destruct q as [q a]. unfold value_of_ExamStyle, ExamStyle_of_value.
  find_property. reflexivity.
Qed.

(** Extra X16.  The schema sent with the request asks for everything the
    [StudyNotes] interface declares: a response that has the shape of the
    schema can be read property by property as a [StudyNotes], no property
    missing and none of another type; and the object of any [StudyNotes]
    has the shape of the schema and reads back as that [StudyNotes]. *)
Theorem schema_covers_interface (v : value) (n : StudyNotes) :
  (conforms responseSchema v = true -> exists n', StudyNotes_of_value v = Some n')
  /\ conforms responseSchema (value_of_StudyNotes n) = true
  /\ StudyNotes_of_value (value_of_StudyNotes n) = Some n.
Proof.
  split; [|split].
  - unfold responseSchema. intros H.
    destruct (conforming_object _ _ _ H) as (ms & ->). unfold StudyNotes_of_value.
    required H (lit "topicOverview"). destruct (conforming_string _ Hc) as (t & ->).
    required H (lit "detailedExplanation").
    destruct (conforming_string _ Hc0) as (d & ->).
    required H (lit "keyPoints").
    destruct (conforming_array STRING string_of_value _ conforming_string Hc1) as (k & ->).
    required H (lit "examples").
    destruct (conforming_array STRING string_of_value _ conforming_string Hc2) as (e & ->).
    required H (lit "commonMistakes").
    destruct (conforming_array STRING string_of_value _ conforming_string Hc3) as (c & ->).
    required H (lit "examTips").
    destruct (conforming_array STRING string_of_value _ conforming_string Hc4) as (p & ->).
    required H (lit "studyQuestions").
    destruct (conforming_object _ _ _ Hc5) as (qs & ->). unfold StudyQuestions_of_value.
    required Hc5 (lit "mcqs").
    destruct (conforming_array _ Mcq_of_value _ conforming_Mcq Hc6) as (m & ->).
    required Hc5 (lit "shortAnswers").
    destruct (conforming_array _ ShortAnswer_of_value _ conforming_ShortAnswer Hc7)
      as (sa & ->).
    required Hc5 (lit "examStyle").
    destruct (conforming_ExamStyle _ Hc8) as (ex & ->).
    eauto.
  - apply conforms_StudyNotes.
  - destruct n as [t d k e c p [m sa ex]].
    unfold value_of_StudyNotes, StudyNotes_of_value, value_of_StudyQuestions,
      StudyQuestions_of_value.
    cbn [topicOverview detailedExplanation keyPoints examples commonMistakes
         examTips studyQuestions mcqs shortAnswers examStyle].
    find_property. cbn [asString].
    rewrite !(read_strings _ _ eq_refl).
    cbn [asArray].
    rewrite (allOf_map Mcq_of_value value_of_Mcq m Mcq_of_value_of_Mcq).
    rewrite (allOf_map ShortAnswer_of_value value_of_ShortAnswer sa
               ShortAnswer_of_value_of_ShortAnswer).
    now rewrite ExamStyle_of_value_of_ExamStyle.
Qed.

Lemma schema_covers_interface_witness :
  exists n', StudyNotes_of_value (value_of_StudyNotes sampleNotes) = Some n'.
Proof.
  exact (proj1 (schema_covers_interface (value_of_StudyNotes sampleNotes) sampleNotes)
           (proj1 (proj2 (schema_covers_interface JNull sampleNotes)))).
Defined.

(** ** The theme *)

Lemma themeKey_is_not_historyKey :
  jsstring_eqb themeKey historyKey = false /\ jsstring_eqb historyKey themeKey = false.
Proof. split; reflexivity. Qed.

Lemma saved_theme_read (stored : Storage) (dark prefersDark : bool) :
  getItem themeKey stored = Some (themeName dark) ->
  initialDarkMode stored prefersDark = dark.
Proof. unfold initialDarkMode. intros ->. now destruct dark. Qed.

Lemma themeEffect_saved (t : ThemeWorld) :
  getItem themeKey (themeStorage (themeEffect t))
  = Some (themeName (isDarkMode (themeEffect t)))
  /\ darkClass (themeEffect t) = isDarkMode (themeEffect t).
Proof. unfold themeEffect. cbn [themeStorage darkClass isDarkMode]. split; [apply getItem_setItem|reflexivity]. Qed.

Lemma toggles_saved (stored : Storage) (prefersDark hadClass : bool) (toggles : nat) :
  let t := Nat.iter toggles toggleTheme (startTheme stored prefersDark hadClass) in
  getItem themeKey (themeStorage t) = Some (themeName (isDarkMode t))
  /\ darkClass t = isDarkMode t.
Proof.
  cbv zeta. destruct toggles as [|k].
  - change (Nat.iter 0 toggleTheme (startTheme stored prefersDark hadClass))
      with (startTheme stored prefersDark hadClass).
    unfold startTheme. apply themeEffect_saved.
  - change (Nat.iter (S k) toggleTheme (startTheme stored prefersDark hadClass))
      with (toggleTheme (Nat.iter k toggleTheme (startTheme stored prefersDark hadClass))).
    unfold toggleTheme. apply themeEffect_saved.
Qed.

(** Extra X17.  The theme on display is the theme in the storage: after the
    first render and any number of presses of the toggle, the storage names
    the theme shown and the class [dark] is set exactly in dark mode; each
    press inverts the theme; and the next start shows the same theme
    whatever the system then prefers.  A saved value that is neither
    [dark] nor empty is read as light and replaced by [light]. *)
Theorem theme_follows_storage (stored : Storage) (prefersDark hadClass : bool)
    (toggles : nat) (prefersDarkLater hadClassLater : bool) :
  let t := Nat.iter toggles toggleTheme (startTheme stored prefersDark hadClass) in
  getItem themeKey (themeStorage t) = Some (themeName (isDarkMode t))
  /\ darkClass t = isDarkMode t
  /\ isDarkMode (toggleTheme t) = negb (isDarkMode t)
  /\ isDarkMode (startTheme (themeStorage t) prefersDarkLater hadClassLater)
     = isDarkMode t
  /\ (forall saved, getItem themeKey stored = Some saved ->
                    saved <> [] -> saved <> lit "dark" ->
                    getItem themeKey (themeStorage (startTheme stored prefersDark hadClass))
                    = Some (lit "light")).
Proof.
  cbv zeta. destruct (toggles_saved stored prefersDark hadClass toggles) as [Hs Hc].
  split; [exact Hs|]. split; [exact Hc|]. split; [reflexivity|]. split.
  - unfold startTheme, themeEffect. cbn [isDarkMode]. now apply saved_theme_read.
  - intros saved Hsaved Hne Hnd. unfold startTheme, themeEffect, initialDarkMode.
    cbn [themeStorage isDarkMode]. rewrite Hsaved.
    replace (truthy saved) with true by (destruct saved; [now elim Hne|reflexivity]).
    replace (jsstring_eqb saved (lit "dark")) with false.
    + apply getItem_setItem.
    + unfold jsstring_eqb. now destruct (list_eq_dec N.eq_dec saved (lit "dark")).
Qed.

Lemma theme_follows_storage_witness :
  getItem themeKey (themeStorage (startTheme [(themeKey, lit "Dark")] true true))
  = Some (lit "light").
Proof.
  refine (proj2 (proj2 (proj2 (proj2
            (theme_follows_storage [(themeKey, lit "Dark")] true true 0 false false))))
            (lit "Dark") eq_refl _ _); discriminate.
Defined.

Lemma mount_history_by_key (st st' : Storage) :
  getItem historyKey st = getItem historyKey st' ->
  option_map (fun w => history (ui w)) (mount st)
  = option_map (fun w => history (ui w)) (mount st').
Proof.
  unfold mount. intros <-.
  destruct (getItem historyKey st) as [saved|]; [|reflexivity].
  destruct (truthy saved); [|reflexivity].
  destruct (JSON_parse saved) as [v|]; [|reflexivity].
  destruct (history_of_value v); reflexivity.
Qed.

(** Extra X18.  The theme and the history do not disturb each other in the
    storage: saving the theme, at the start or by the toggle, leaves the
    saved history as it was, so the history that the next start loads is
    the same with or without the change of theme. *)
Theorem theme_leaves_history (t : ThemeWorld) (stored : Storage)
    (prefersDark hadClass : bool) :
  getItem historyKey (themeStorage (toggleTheme t)) = getItem historyKey (themeStorage t)
  /\ getItem historyKey (themeStorage (startTheme stored prefersDark hadClass))
     = getItem historyKey stored
  /\ option_map (fun w => history (ui w)) (mount (themeStorage (toggleTheme t)))
     = option_map (fun w => history (ui w)) (mount (themeStorage t)).
Proof.
  assert (H : forall d st, getItem historyKey (setItem themeKey d st)
                           = getItem historyKey st)
    by (intros; now apply getItem_setItem_other).
  split; [apply H|]. split; [apply H|].
  apply mount_history_by_key. apply H.
Qed.

(** ** More on the history *)

(** Extra X19.  After an upload whose generation succeeds with notes the
    page can show, on a page that is on display, the component stays on the
    page, the input text is the extracted text, replacing whatever was typed
    before, the notes are on display, the error is cleared and the upload
    menu is closed; the newest history entry holds the extracted text and
    the notes, so that choosing it changes nothing on the page. *)
Theorem uploaded_text_is_on_display (w : World) (file : File) (a : Answers)
    (extracted : jsstring) (calls : list action) (v : value) :
  renders (ui w) = true ->
  extractText (currentFileType (ui w)) file = inr extracted ->
  truthy (trim extracted) = true ->
  generateStudyNotes extracted (serviceReply a) = (calls, inr v) ->
  displayable v = true ->
  exists w',
    interact (Upload (Some file) a) (Mounted w) = Mounted w'
    /\ inputText (ui w') = extracted
    /\ notes (ui w') = Some v
    /\ error (ui w') = None
    /\ showUploadMenu (ui w') = false
    /\ (exists item, nth_error (history (ui w')) 0 = Some item
                     /\ originalText item = extracted
                     /\ Types.notes item = v)
    /\ exists w'', interact (Select 0) (Mounted w') = Mounted w''
                   /\ ui w'' = ui w'.
Proof.
  intros Hw Hex Hin Hg Hv.
  assert (Hgen : generated (Upload (Some file) a) w = Some (newItem a extracted v)).
  { cbn [generated]. rewrite Hex. exact (generatedItem_some _ _ _ _ Hin Hg). }
  assert (Hr : renders (ui (dispatch (Upload (Some file) a) w)) = true)
    by now rewrite (renders_recorded w _ _ Hw Hgen).
  exists (dispatch (Upload (Some file) a) w). rewrite (interact_mounted _ _ Hr).
  split; [reflexivity|].
  assert (Hu : ui (dispatch (Select 0) (dispatch (Upload (Some file) a) w))
               = ui (dispatch (Upload (Some file) a) w)).
  { rewrite (upload_generated w file a extracted calls v Hex Hin Hg).
    erewrite select_entry by reflexivity. reflexivity. }
  assert (Hr' : renders (ui (dispatch (Select 0) (dispatch (Upload (Some file) a) w)))
                = true) by now rewrite Hu.
  rewrite (interact_mounted _ _ Hr').
  rewrite (upload_generated w file a extracted calls v Hex Hin Hg) in *.
  cbn [ui storage notes error inputText history showUploadMenu].
  split; [reflexivity|]. split; [reflexivity|]. split; [reflexivity|].
  split; [reflexivity|]. split; [eexists; repeat split|].
  eexists. split; [reflexivity|assumption].
Qed.

Lemma uploaded_text_is_on_display_witness :
  exists w',
    interact (Upload (Some onePagePdf) (goodAnswers 1))
      (Mounted {| ui := {| inputText := lit "typed before"; loading := false;
                           error := Some (lit "old error"); notes := None;
                           history := []; showUploadMenu := true;
                           currentFileType := Some pdf |};
                  storage := []; trace := [] |})
    = Mounted w'
    /\ inputText (ui w') = [97; 10]
    /\ error (ui w') = None.
Proof.
  destruct (uploaded_text_is_on_display
              {| ui := {| inputText := lit "typed before"; loading := false;
                          error := Some (lit "old error"); notes := None;
                          history := []; showUploadMenu := true;
                          currentFileType := Some pdf |};
                 storage := []; trace := [] |}
              onePagePdf (goodAnswers 1) [97; 10]
              [GenerateContent [97; 10]] (value_of_StudyNotes sampleNotes)
              eq_refl eq_refl eq_refl eq_refl eq_refl)
    as (w' & H1 & H2 & _ & H3 & _).
  exists w'. repeat split; assumption.
Defined.

(** Extra X20.  There is no way to delete an entry or to clear the history:
    an entry leaves the list only when a generation is recorded into a list
    that has no room for it, and then it is the oldest one.  Along a run in
    which the items recorded and the items that were there fit in ten, the
    history is the items recorded followed by all that were there; and a
    generation recorded into a list of ten drops its last entry and no
    other. *)
Theorem entries_leave_only_for_room (w : World) (evs : list event) (ev : event)
    (item : NoteHistoryItem) :
  ((length (recorded evs w) + length (history (ui w)) <= 10)%nat ->
   history (ui (run evs w)) = recorded evs w ++ history (ui w))
  /\ (length (history (ui w)) = 10%nat ->
      generated ev w = Some item ->
      history (ui (dispatch ev w)) = item :: removelast (history (ui w)))
  /\ (generated ev w = None -> history (ui (dispatch ev w)) = history (ui w)).
Proof.
  split; [|split].
  - intros Hfit. rewrite run_recorded by lia.
    apply firstn_all2. rewrite length_app. exact Hfit.
  - intros Hfull Hg. pose proof (dispatch_generated ev w) as Hd. rewrite Hg in Hd.
    destruct Hd as (Hh & _). rewrite Hh. unfold record.
    change (firstn 10 (item :: history (ui w))) with (item :: firstn 9 (history (ui w))).
    f_equal. rewrite removelast_firstn_len. now rewrite Hfull.
  - intros Hg. pose proof (dispatch_generated ev w) as Hd. rewrite Hg in Hd. tauto.
Qed.

Lemma entries_leave_only_for_room_witness :
  map id (history (ui (dispatch (Submit (goodAnswers 11)) full)))
  = map Z_toString [11; 10; 9; 8; 7; 6; 5; 4; 3; 2]%Z.
Proof.
  destruct (entries_leave_only_for_room full [] (Submit (goodAnswers 11))
              (newItem (goodAnswers 11) photosynthesis (value_of_StudyNotes sampleNotes)))
    as (_ & H & _).
  rewrite (H eq_refl ltac:(vm_compute; reflexivity)). vm_compute. reflexivity.
Defined.

(** ** What takes the page down *)

Lemma sound_parts (w : World) :
  sound w = true <->
  renders (ui w) = true
  /\ forallb (fun item => displayable (Types.notes item)) (history (ui w)) = true.
Proof. unfold sound. apply andb_true_iff. Qed.

Lemma displayable_entry (items : list NoteHistoryItem) (i : nat) (item : NoteHistoryItem) :
  forallb (fun item => displayable (Types.notes item)) items = true ->
  nth_error items i = Some item ->
  rendersNotes (Types.notes item) = true.
Proof.
  intros Hall Hi. apply nth_error_In in Hi.
  rewrite forallb_forall in Hall. specialize (Hall item Hi).
  unfold displayable in Hall. now apply andb_true_iff in Hall as [H _].
Qed.

(** Extra X21.  On a page as the app itself builds it (on display, every
    entry holding notes that the page can show), the component is taken off
    the page by exactly one thing: a generation that succeeds with notes the
    page cannot show.  No edit, no choice of an entry, and no failure (blank
    input, unreadable or empty file, rejected request, response that is not
    JSON) does it; and after every interaction that leaves the component on
    the page, the page is again as the app builds it. *)
Theorem page_goes_down_by_unshowable_notes (w : World) (ev : event) :
  sound w = true ->
  match interact ev (Mounted w) with
  | Mounted w' => w' = dispatch ev w /\ sound w' = true
  | Unmounted stored _ =>
      stored = storage w
      /\ exists item, generated ev w = Some item
                      /\ displayable (Types.notes item) = false
  end.
Proof.
  intros Hs. apply sound_parts in Hs as [Hw Hall].
  pose proof (dispatch_generated ev w) as Hd.
  destruct (renders (ui (dispatch ev w))) eqn:Hr.
  - rewrite (interact_mounted ev w Hr). split; [reflexivity|].
    apply sound_parts. split; [exact Hr|].
    destruct (generated ev w) as [item|] eqn:Hg.
    + destruct Hd as (Hh & _). rewrite Hh.
      change (record item (history (ui w))) with (item :: firstn 9 (history (ui w))).
      cbn [forallb]. rewrite <- (renders_recorded w ev item Hw Hg), Hr.
      now apply forallb_firstn.
    + destruct Hd as (Hh & _). now rewrite Hh.
  - rewrite (interact_unmounted ev w Hr). split; [reflexivity|].
    destruct (generated ev w) as [item|] eqn:Hg.
    + exists item. rewrite <- (renders_recorded w ev item Hw Hg). auto.
    + exfalso. rewrite (renders_kept w ev Hw Hg) in Hr.
      apply renders_state in Hw as [Hn _].
      destruct ev as [s| | |t|file a|a|index]; cbn [notesKept] in Hr;
        try (destruct (notes (ui w)); congruence).
      destruct (nth_error (history (ui w)) index) as [item|] eqn:Hi;
        [|destruct (notes (ui w)); congruence].
      rewrite (displayable_entry _ _ _ Hall Hi) in Hr. discriminate Hr.
Qed.

Lemma page_goes_down_by_unshowable_notes_witness :
  (exists done, interact (Submit (emptyObjectAnswers 11)) (Mounted full)
                = Unmounted (storage full) done)
  /\ interact (Submit (proseAnswers 11)) (Mounted full)
     = Mounted (dispatch (Submit (proseAnswers 11)) full).
Proof.
  split.
  - pose proof (page_goes_down_by_unshowable_notes full (Submit (emptyObjectAnswers 11))
                  ltac:(vm_compute; reflexivity)) as H.
    destruct (interact (Submit (emptyObjectAnswers 11)) (Mounted full))
      as [w'|stored done] eqn:E; [vm_compute in E; discriminate E|].
    destruct H as [-> _]. exists done. reflexivity.
  - pose proof (page_goes_down_by_unshowable_notes full (Submit (proseAnswers 11))
                  ltac:(vm_compute; reflexivity)) as H.
    destruct (interact (Submit (proseAnswers 11)) (Mounted full))
      as [w'|stored done] eqn:E; [|vm_compute in E; discriminate E].
    destruct H as [-> _]. reflexivity.
Defined.

(** Extra X22.  Choosing an entry whose notes the page cannot show takes the
    component off the page.  Such an entry is never recorded by the app,
    but one loaded from the storage can be: the list shows only the overview
    of the notes of an entry, so the history renders, and the click on the
    entry puts the notes on display. *)
Theorem unshowable_entry_takes_page_down (w : World) (i : nat)
    (item : NoteHistoryItem) :
  renders (ui w) = true ->
  nth_error (history (ui w)) i = Some item ->
  interact (Select i) (Mounted w)
  = if rendersNotes (Types.notes item)
    then Mounted (dispatch (Select i) w)
    else Unmounted (storage w)
           (trace w ++ [SetNotes (Some (Types.notes item));
                        SetInputText (originalText item); ScrollToTop]).
Proof.
  intros Hw Hi.
  assert (Hr : renders (ui (dispatch (Select i) w)) = rendersNotes (Types.notes item)).
  { rewrite (renders_kept w (Select i) Hw eq_refl). cbn [notesKept]. now rewrite Hi. }
  destruct (rendersNotes (Types.notes item)).
  - now apply interact_mounted.
  - rewrite (interact_unmounted _ _ Hr). f_equal.
    run_handler. step. rewrite Hi. step. now rewrite <- !app_assoc.
Qed.

Lemma unshowable_entry_takes_page_down_witness :
  (exists w, start (storage (listing [overviewOnlyItem])) = Some (Mounted w)
             /\ history (ui w) = [overviewOnlyItem])
  /\ interact (Select 0) (Mounted (listing [overviewOnlyItem]))
     = Unmounted (storage (listing [overviewOnlyItem]))
         [SetNotes (Some (Types.notes overviewOnlyItem));
          SetInputText photosynthesis; ScrollToTop].
Proof.
  split; [eexists; split; vm_compute; reflexivity|].
  exact (unshowable_entry_takes_page_down (listing [overviewOnlyItem]) 0
           overviewOnlyItem eq_refl eq_refl).
Defined.

(** Extra X23.  A stored history that the page cannot render is lost at the
    start: the effects of the first render load it and write the empty list
    over it, the render of the loaded history throws, and the component is
    taken off the page; the next start finds the empty list and comes up
    with an empty history. *)
Theorem unrenderable_stored_history_is_wiped (stored : Storage) (w : World) :
  mount stored = Some w ->
  renders (ui w) = false ->
  (exists done,
     start stored = Some (Unmounted (setItem historyKey (lit "[]") stored) done))
  /\ exists w', start (setItem historyKey (lit "[]") stored) = Some (Mounted w')
                /\ history (ui w') = []
                /\ storage w' = setItem historyKey (lit "[]") stored.
Proof.
  intros Hm Hr. split.
  - unfold start. rewrite Hm, Hr. eexists. reflexivity.
  - unfold start, mount. rewrite getItem_setItem.
    change (truthy (lit "[]")) with true. cbv iota.
    change (JSON_parse (lit "[]")) with (Some (JArray [])). cbv iota.
    change (history_of_value (JArray [])) with (Some (@nil NoteHistoryItem)). cbv iota.
    eexists. split; [reflexivity|]. split; [reflexivity|].
    unfold initialWorld. run_handler. step.
    rewrite !setItem_setItem. reflexivity.
Qed.

Lemma unrenderable_stored_history_is_wiped_witness :
  exists done,
    start (storage (listing [ {| id := lit "1"; timestamp := Integer 1;
                                 originalText := photosynthesis;
                                 Types.notes := JNull |} ]))
    = Some (Unmounted [(historyKey, lit "[]")] done).
Proof.
  destruct (mount (storage (listing [ {| id := lit "1"; timestamp := Integer 1;
                                         originalText := photosynthesis;
                                         Types.notes := JNull |} ])))
    as [w|] eqn:Hm; [|vm_compute in Hm; discriminate Hm].
  refine (proj1 (unrenderable_stored_history_is_wiped _ w Hm _)).
  vm_compute in Hm. injection Hm as <-. reflexivity.
Defined.

End Extras.
